(** * Company data synchronisation: the sync engine

    A shallow embedding of the synchronisation core of the repository
    (services/api_client.py, services/sync_service.py, models/company.py,
    models/sync.py, and the background task of api/routes/sync.py) together
    with the properties of its specification; and, after it, of the routes
    of api/routes/sync.py, the endpoints of utils/config.py and the company
    service (services/company_service.py, models/search.py), with further
    properties of the code.

    Conventions of the embedding.
    - Python [int] is [Z]; [str] is [string] (a sequence of characters,
      [String.length] standing for [len]); [Optional[T]] is [option T];
      [float] is [Q], so that rounding is left out and division by zero is
      kept.
    - A Python call that may raise returns a [result]; exceptions are the
      constructors of [exn].
    - The SQLite tables are lists of rows. A statement fails where the
      schema makes it fail on the values the code passes (a primary key
      taken, a NULL status); failures of the store as such are left out.
    - The process-wide [_sync_state] variable is a reference into a heap of
      [SyncState] objects, so that aliasing between the results of
      [get_sync_state()] is kept.
    - [datetime.now()] readings, HTTP responses and completion orders are
      inputs of the functions that observe them; the readings taken within
      one uninterrupted stretch of a call are one input.
    - [datetime.fromisoformat] and the text written for a [datetime] are
      parameters of the engine; a reference reader and writer serve to run
      it on concrete records. *)

From Stdlib Require Import ZArith QArith Qround List Bool Ascii String Lia.
From stdpp Require Import base option list gmap strings pretty sorting.

Local Open Scope string_scope.
Local Open Scope list_scope.
Local Open Scope Z_scope.

(** ** Exceptions and results *)

(** The three shapes of message an [APIException] is built with in
    [APIClient._request]. *)
Inductive api_message :=
| HttpError (status_code : Z) (text : string)
| RequestFailed (cause : string)
| JsonParseFailed.

Inductive exn :=
| ValueError (msg : string)
| TypeError (msg : string)
| ZeroDivisionError
| ValidationError (field : string)
| APIException (message : api_message) (status_code : option Z)
| DatabaseException (message : string) (operation : option string)
| SyncInProgressException (message : string).

Inductive result (A : Type) :=
| Ok (a : A)
| Raise (e : exn).
Arguments Ok {A} a.
Arguments Raise {A} e.

Definition bind {A B} (r : result A) (k : A -> result B) : result B :=
  match r with
  | Ok a => k a
  | Raise e => Raise e
  end.

Notation "'do' x <- r ; k" := (bind r (fun x => k))
  (at level 10, x pattern, r at level 100, k at level 200).

(** [try: body except ValueError: handler] *)
Definition try_except_ValueError {A} (body handler : result A) : result A :=
  match body with
  | Raise (ValueError _) => handler
  | r => r
  end.

(** Truthiness of an [Optional[str]]: [None] and the empty string are falsy. *)
Definition truthy (o : option string) : bool :=
  match o with
  | Some s => negb (String.eqb s "")
  | None => false
  end.

(** ** datetime *)

(** A [datetime] value: the reading of the wall clock in microseconds since
    the epoch, and the UTC offset (in microseconds) of an aware value;
    [None] for a naive one. *)
Record datetime := mk_datetime { wall : Z; utcoffset : option Z }.

(** [a <= b] on datetimes: naive values compare by wall clock, aware values
    by instant, and a naive value against an aware one raises [TypeError]. *)
Definition datetime_le (a b : datetime) : result bool :=
  match utcoffset a, utcoffset b with
  | None, None => Ok (wall a <=? wall b)
  | Some oa, Some ob => Ok (wall a - oa <=? wall b - ob)
  | _, _ => Raise (TypeError "can't compare offset-naive and offset-aware datetimes")
  end.

(** [datetime.now()] is naive. *)
Definition naive (t : Z) : datetime := mk_datetime t None.

(** A reference reader of ISO timestamps, used to run the engine on concrete
    records: [YYYY-MM-DD HH:MM:SS] (separator a blank or [T]), optionally
    followed by an offset [+HH:MM] or [-HH:MM]. The engine itself is stated
    over any reader, see the section variable [fromisoformat] below. *)
Definition digit_of (c : ascii) : option Z :=
  let n := Z.of_nat (nat_of_ascii c) in
  if (48 <=? n) && (n <=? 57) then Some (n - 48) else None.

Fixpoint number_of (cs : list ascii) (acc : Z) : option Z :=
  match cs with
  | [] => Some acc
  | c :: cs' =>
      match digit_of c with
      | Some d => number_of cs' (10 * acc + d)
      | None => None
      end
  end.

Definition is_leap (y : Z) : bool :=
  (y mod 4 =? 0) && (negb (y mod 100 =? 0) || (y mod 400 =? 0)).

Definition days_in_month (y m : Z) : Z :=
  if m =? 2 then (if is_leap y then 29 else 28)
  else if (m =? 4) || (m =? 6) || (m =? 9) || (m =? 11) then 30
  else 31.

Definition days_from_civil (y m d : Z) : Z :=
  let y' := if m <=? 2 then y - 1 else y in
  let era := y' / 400 in
  let yoe := y' - era * 400 in
  let mp := (m + 9) mod 12 in
  let doy := (153 * mp + 2) / 5 + d - 1 in
  let doe := yoe * 365 + yoe / 4 - yoe / 100 + doy in
  era * 146097 + doe - 719468.

Definition iso_offset (cs : list ascii) : option (option Z) :=
  match cs with
  | [] => Some None
  | sg :: h1 :: h2 :: ":"%char :: m1 :: m2 :: [] =>
      match number_of [h1; h2] 0, number_of [m1; m2] 0 with
      | Some h, Some m =>
          if (h <? 24) && (m <? 60) then
            let off := (h * 3600 + m * 60) * 1000000 in
            if Ascii.eqb sg "+" then Some (Some off)
            else if Ascii.eqb sg "-" then Some (Some (- off))
            else None
          else None
      | _, _ => None
      end
  | _ => None
  end.

Definition iso_parse (s : string) : option datetime :=
  match list_ascii_of_string s with
  | y1 :: y2 :: y3 :: y4 :: "-"%char :: m1 :: m2 :: "-"%char :: d1 :: d2 :: sep
      :: h1 :: h2 :: ":"%char :: n1 :: n2 :: ":"%char :: s1 :: s2 :: rest =>
      match number_of [y1; y2; y3; y4] 0, number_of [m1; m2] 0,
            number_of [d1; d2] 0, number_of [h1; h2] 0,
            number_of [n1; n2] 0, number_of [s1; s2] 0, iso_offset rest with
      | Some y, Some m, Some d, Some hh, Some mi, Some ss, Some off =>
          if (Ascii.eqb sep " " || Ascii.eqb sep "T")
             && (1 <=? y) && (1 <=? m) && (m <=? 12)
             && (1 <=? d) && (d <=? days_in_month y m)
             && (hh <? 24) && (mi <? 60) && (ss <? 60)
          then Some (mk_datetime
                 ((((days_from_civil y m d * 24 + hh) * 60 + mi) * 60 + ss) * 1000000)
                 off)
          else None
      | _, _, _, _, _, _, _ => None
      end
  | _ => None
  end.

(** The matching writer, [d.isoformat(" ")], as the store's adapter writes
    a [datetime] parameter. *)
Definition civil_from_days (days : Z) : Z * Z * Z :=
  let z := days + 719468 in
  let era := z / 146097 in
  let doe := z - era * 146097 in
  let yoe := (doe - doe / 1460 + doe / 36524 - doe / 146096) / 365 in
  let doy := doe - (365 * yoe + yoe / 4 - yoe / 100) in
  let mp := (5 * doy + 2) / 153 in
  let d := doy - (153 * mp + 2) / 5 + 1 in
  let m := if mp <? 10 then mp + 3 else mp - 9 in
  (if m <=? 2 then yoe + era * 400 + 1 else yoe + era * 400, m, d).

Definition digit_char (d : Z) : ascii := ascii_of_nat (Z.to_nat (48 + d mod 10)).

Fixpoint padded (width : nat) (n : Z) : string :=
  match width with
  | O => ""
  | S w => padded w (n / 10) +:+ String (digit_char n) ""
  end.

Definition iso_format (d : datetime) : string :=
  let micros := wall d mod 1000000 in
  let secs := wall d / 1000000 in
  let '(y, m, dd) := civil_from_days (secs / 86400) in
  let sod := secs mod 86400 in
  padded 4 y +:+ "-" +:+ padded 2 m +:+ "-" +:+ padded 2 dd +:+ " "
  +:+ padded 2 (sod / 3600) +:+ ":" +:+ padded 2 (sod / 60 mod 60) +:+ ":"
  +:+ padded 2 (sod mod 60)
  +:+ (if micros =? 0 then "" else "." +:+ padded 6 micros)
  +:+ match utcoffset d with
      | None => ""
      | Some off =>
          let a := Z.abs off / 60000000 in
          (if off <? 0 then "-" else "+") +:+ padded 2 (a / 60) +:+ ":"
          +:+ padded 2 (a mod 60)
      end.

(** ** models/company.py *)

Record ExternalCompany := {
  ext_id : Z;
  ext_company_name : string;
  ext_owner : option string;
  ext_company_desc : option string;
  ext_adress : option string;
  ext_create_time : string;
  ext_update_time : option string;
  ext_code : option string;
  ext_uuid : option string
}.

Record CompanyCreate := {
  company_name : string;
  owner : option string;
  company_desc : option string;
  address : option string;
  create_time : option datetime;
  update_time : option datetime;
  code : option string;
  uuid : option string;
  id : option Z
}.

Record ExternalData := {
  total_page : Z;
  total : Z;
  rows : list ExternalCompany
}.

Record ExternalCompanyResponse := {
  resp_code : Z;
  resp_msg : string;
  resp_data : ExternalData
}.

(** A row of table [companies] as [_get_existing_companies] returns it:
    the DATETIME columns come back as text. *)
Record CompanyRow := {
  row_id : Z;
  row_company_name : string;
  row_owner : option string;
  row_company_desc : option string;
  row_address : option string;
  row_create_time : option string;
  row_update_time : option string;
  row_code : option string;
  row_uuid : option string;
  row_last_sync_at : option string;
  row_is_active : bool
}.

(** The [Field] constraints of [CompanyBase]. *)
Definition max_length (n : nat) (field : string) (o : option string) : result unit :=
  match o with
  | Some s => if (String.length s <=? n)%nat then Ok tt else Raise (ValidationError field)
  | None => Ok tt
  end.

Definition validate_CompanyCreate (c : CompanyCreate) : result CompanyCreate :=
  do _ <- (if (1 <=? String.length (company_name c))%nat then Ok tt
           else Raise (ValidationError "company_name"));
  do _ <- max_length 255 "company_name" (Some (company_name c));
  do _ <- max_length 100 "owner" (owner c);
  do _ <- max_length 5000 "company_desc" (company_desc c);
  do _ <- max_length 500 "address" (address c);
  do _ <- max_length 50 "code" (code c);
  do _ <- max_length 100 "uuid" (uuid c);
  Ok c.

(** ** models/sync.py *)

Inductive sync_status := running | completed | failed | cancelled.

#[global] Instance sync_status_eq_dec : EqDecision sync_status.
Proof. solve_decision. Defined.

(** A row of table [sync_logs]. *)
Record SyncLog := {
  log_id : Z;
  log_start_time : datetime;
  log_end_time : option datetime;
  log_status : sync_status;
  log_total_records : option Z;
  log_success_records : option Z;
  log_failed_records : option Z;
  log_error_message : option string;
  log_duration_ms : option Z
}.

Record SyncLogUpdate := {
  upd_end_time : option datetime;
  upd_status : option sync_status;
  upd_total_records : option Z;
  upd_success_records : option Z;
  upd_failed_records : option Z;
  upd_error_message : option string;
  upd_duration_ms : option Z
}.

(** The constraint [ge=0] of the optional integer fields. *)
Definition ge0 (field : string) (o : option Z) : result unit :=
  match o with
  | Some n => if 0 <=? n then Ok tt else Raise (ValidationError field)
  | None => Ok tt
  end.

(** Construction of a [SyncLogUpdate]: the constructor validates. *)
Definition new_SyncLogUpdate (u : SyncLogUpdate) : result SyncLogUpdate :=
  do _ <- ge0 "total_records" (upd_total_records u);
  do _ <- ge0 "success_records" (upd_success_records u);
  do _ <- ge0 "failed_records" (upd_failed_records u);
  do _ <- ge0 "duration_ms" (upd_duration_ms u);
  Ok u.

Record SyncState := {
  is_running : bool;
  current_sync_id : option Z;
  current_page : Z;
  total_pages : Z;
  processed_records : Z;
  total_records : Z;
  start_time : option datetime;
  last_update : option datetime
}.

(** [SyncState()] *)
Definition SyncState_default : SyncState :=
  {| is_running := false; current_sync_id := None; current_page := 0;
     total_pages := 0; processed_records := 0; total_records := 0;
     start_time := None; last_update := None |}.

Definition set_is_running (b : bool) (s : SyncState) : SyncState :=
  {| is_running := b; current_sync_id := current_sync_id s;
     current_page := current_page s; total_pages := total_pages s;
     processed_records := processed_records s; total_records := total_records s;
     start_time := start_time s; last_update := last_update s |}.

Definition set_totals (records pages : Z) (s : SyncState) : SyncState :=
  {| is_running := is_running s; current_sync_id := current_sync_id s;
     current_page := current_page s; total_pages := pages;
     processed_records := processed_records s; total_records := records;
     start_time := start_time s; last_update := last_update s |}.

(** [SyncState.update_progress] *)
Definition update_progress (now : datetime) (page pages processed : Z)
    (s : SyncState) : SyncState :=
  {| is_running := is_running s; current_sync_id := current_sync_id s;
     current_page := page; total_pages := pages;
     processed_records := processed; total_records := total_records s;
     start_time := start_time s; last_update := Some now |}.

(** Python floats are modelled by exact rationals: rounding and overflow of
    floating point are outside the model, division by zero is inside. *)
Definition truediv (a b : Q) : result Q :=
  if Qeq_bool b 0 then Raise ZeroDivisionError else Ok (a / b)%Q.

(** [int(x)] on a float: truncation towards zero. *)
Definition int_of_float (x : Q) : Z :=
  if Qle_bool 0 x then Qfloor x else Qceiling x.

(** [(a - b).total_seconds()]; subtracting a naive from an aware value
    raises. *)
Definition total_seconds_between (a b : datetime) : result Q :=
  match utcoffset a, utcoffset b with
  | None, None => Ok (inject_Z (wall a - wall b) / inject_Z 1000000)%Q
  | Some oa, Some ob =>
      Ok (inject_Z ((wall a - oa) - (wall b - ob)) / inject_Z 1000000)%Q
  | _, _ => Raise (TypeError "can't subtract offset-naive and offset-aware datetimes")
  end.

(** [SyncState.get_percentage] *)
Definition get_percentage (self : SyncState) : result Q :=
  if total_records self =? 0 then Ok 0%Q
  else
    do ratio <- truediv (inject_Z (processed_records self))
                        (inject_Z (total_records self));
    Ok (ratio * inject_Z 100)%Q.

(** [SyncState.get_estimated_remaining_seconds] *)
Definition get_estimated_remaining_seconds (now : datetime) (self : SyncState)
    : result (option Z) :=
  match start_time self with
  | None => Ok None
  | Some started =>
      if processed_records self =? 0 then Ok None
      else
        do elapsed <- total_seconds_between now started;
        if Qeq_bool elapsed 0 then Ok None
        else
          do rate <- truediv (inject_Z (processed_records self)) elapsed;
          if Qeq_bool rate 0 then Ok None
          else
            let remaining_records := total_records self - processed_records self in
            do eta <- truediv (inject_Z remaining_records) rate;
            Ok (Some (int_of_float eta))
  end.

(** ** utils/config.py: the settings the engine reads *)

Record Settings := {
  sync_retry_attempts : Z;
  sync_retry_delay : Q
}.

(** ** services/api_client.py *)

(** A decoded JSON body: the envelope [ExternalCompanyResponse] accepts, or
    any other JSON value. *)
Inductive json :=
| Envelope (r : ExternalCompanyResponse)
| OtherJson.

(** What one [self.client.request(...)] yields: a response with its status
    code, text and decoded body ([None]: the body is not JSON), or an
    [httpx.RequestError]. *)
Inductive attempt_outcome :=
| Response (status_code : Z) (text : string) (body : option json)
| TransportError (cause : string).

(** What [_request] does to the outside, in order. *)
Inductive io_event :=
| Sent (attempt : nat)
| Slept (delay : Q).

(** [response.raise_for_status()] returns normally on a 2xx status only. *)
Definition is_success (status_code : Z) : bool :=
  (200 <=? status_code) && (status_code <? 300).

(** [self.settings.sync_retry_delay * (2 ** attempt)] *)
Definition backoff_delay (settings : Settings) (attempt : nat) : Q :=
  (sync_retry_delay settings * inject_Z (2 ^ Z.of_nat attempt))%Q.

(** The tail of an iteration of the retry loop: the wait before the next
    attempt, skipped after the last one. *)
Definition wait_before_retry (settings : Settings) (attempt : nat) : list io_event :=
  if Z.of_nat attempt <? sync_retry_attempts settings
  then [Slept (backoff_delay settings attempt)]
  else [].

(** The loop [for attempt in range(sync_retry_attempts + 1)] of [_request],
    over the attempts still to run; [send attempt] is what the request of
    that attempt yields. Raising [None] is a [TypeError]. *)
Fixpoint request_loop (settings : Settings) (send : nat -> attempt_outcome)
    (attempts : list nat) (last_exception : option exn)
    : result json * list io_event :=
  match attempts with
  | [] =>
      (match last_exception with
       | Some e => Raise e
       | None => Raise (TypeError "exceptions must derive from BaseException")
       end, [])
  | attempt :: rest =>
      match send attempt with
      | Response status_code text body =>
          if is_success status_code then
            match body with
            | Some j => (Ok j, [Sent attempt])
            | None => (Raise (APIException JsonParseFailed None), [Sent attempt])
            end
          else
            let last := APIException (HttpError status_code text) (Some status_code) in
            if (400 <=? status_code) && (status_code <? 500)
            then (Raise last, [Sent attempt])
            else
              let '(r, io) := request_loop settings send rest (Some last) in
              (r, Sent attempt :: wait_before_retry settings attempt ++ io)
      | TransportError cause =>
          let last := APIException (RequestFailed cause) None in
          let '(r, io) := request_loop settings send rest (Some last) in
          (r, Sent attempt :: wait_before_retry settings attempt ++ io)
      end
  end.

(** [range(n)] as a list of naturals. *)
Definition range (n : Z) : list nat := seq 0 (Z.to_nat n).

(** [APIClient._request] *)
Definition _request (settings : Settings) (send : nat -> attempt_outcome)
    : result json * list io_event :=
  request_loop settings send (range (sync_retry_attempts settings + 1)) None.

(** The external source: what the request for a page of a given size yields
    at each attempt. *)
Definition source := Z -> Z -> nat -> attempt_outcome.

(** [APIClient.get_companies_page]: building the [ExternalCompanyResponse]
    from the decoded body rejects a body that is not an envelope. *)
Definition get_companies_page (settings : Settings) (src : source)
    (page_num page_size : Z) : result ExternalData :=
  do response_data <- fst (_request settings (src page_num page_size));
  match response_data with
  | Envelope r => Ok (resp_data r)
  | OtherJson => Raise (ValidationError "ExternalCompanyResponse")
  end.

(** Python's [a // b] on integers. *)
Definition floordiv (a b : Z) : result Z :=
  if b =? 0 then Raise ZeroDivisionError else Ok (a / b).

(** [APIClient.get_total_pages] *)
Definition get_total_pages (settings : Settings) (src : source) (page_size : Z)
    : result Z :=
  do first_page <- get_companies_page settings src 1 page_size;
  floordiv (total first_page + page_size - 1) page_size.

(** [asyncio.gather] over the page tasks. [outcomes] holds what each
    awaitable ends with, by position; the awaitables finish in the order
    [completion] (positions listed there first, the others after them in
    ascending order). A finishing awaitable stores its value in the slot of
    its own position; the first exception to occur is propagated. *)
Fixpoint gather_run {A} (outcomes : list (result A)) (completion : list nat)
    (slots : list (option A)) : result (list (option A)) :=
  match completion with
  | [] => Ok slots
  | i :: rest =>
      match outcomes !! i with
      | Some (Ok a) => gather_run outcomes rest (<[i := Some a]> slots)
      | Some (Raise e) => Raise e
      | None => gather_run outcomes rest slots
      end
  end.

Definition gather {A} (outcomes : list (result A)) (completion : list nat)
    : result (list A) :=
  do slots <- gather_run outcomes (completion ++ seq 0 (length outcomes))
                (replicate (length outcomes) None);
  Ok (omap (fun slot => slot) slots).

(** [range(1, total_pages + 1)] *)
Definition page_numbers (total_pages : Z) : list Z :=
  map (fun k => Z.of_nat k) (seq 1 (Z.to_nat total_pages)).

(** [APIClient.get_all_companies]. The semaphore only restricts the
    completion orders that can occur; it is not part of the model. *)
Definition get_all_companies (settings : Settings) (src : source)
    (completion : list nat) (page_size : Z) : result (list ExternalCompany) :=
  do total_pages <- get_total_pages settings src page_size;
  let tasks :=
    map (fun page_num =>
           do page_data <- get_companies_page settings src page_num page_size;
           Ok (rows page_data))
        (page_numbers total_pages) in
  do results <- gather tasks completion;
  Ok (concat results).

(** ** The persisted store and the process state *)

(** The two tables the engine touches. Rows of [sync_logs] are never
    deleted, so AUTOINCREMENT hands out one more than the greatest id. *)
Record Store := {
  companies : list CompanyRow;
  sync_logs : list SyncLog
}.

Definition max_log_id (logs : list SyncLog) : Z :=
  foldr (fun r m => Z.max (log_id r) m) 0 logs.

Definition find_log (sync_log_id : Z) (logs : list SyncLog) : option SyncLog :=
  List.find (fun r => log_id r =? sync_log_id) logs.

(** [UPDATE sync_logs SET end_time = ?, status = ?, total_records = ?,
    success_records = ?, failed_records = ?, error_message = ?,
    duration_ms = ?]: all seven columns are assigned from the parameters. *)
Definition apply_update (status : sync_status) (u : SyncLogUpdate) (r : SyncLog)
    : SyncLog :=
  {| log_id := log_id r;
     log_start_time := log_start_time r;
     log_end_time := upd_end_time u;
     log_status := status;
     log_total_records := upd_total_records u;
     log_success_records := upd_success_records u;
     log_failed_records := upd_failed_records u;
     log_error_message := upd_error_message u;
     log_duration_ms := upd_duration_ms u |}.

Definition update_logs (sync_log_id : Z) (status : sync_status) (u : SyncLogUpdate)
    (logs : list SyncLog) : list SyncLog :=
  map (fun r => if log_id r =? sync_log_id then apply_update status u r else r) logs.

(** The process: the store, the [SyncState] objects alive, and the module
    variable [_sync_state], a reference to one of them. *)
Record World := {
  store : Store;
  heap : list SyncState;
  _sync_state : nat
}.

Definition deref (h : list SyncState) (l : nat) : SyncState :=
  default SyncState_default (h !! l).

(** At import: [_sync_state = SyncState()]. *)
Definition initial_world (st : Store) : World :=
  {| store := st; heap := [SyncState_default]; _sync_state := 0%nat |}.

(** Code that reads and writes the process and may raise. *)
Definition M (A : Type) : Type := World -> World * result A.

Definition ret {A} (a : A) : M A := fun w => (w, Ok a).
Definition raise {A} (e : exn) : M A := fun w => (w, Raise e).
Definition lift {A} (r : result A) : M A := fun w => (w, r).

Definition and_then {A B} (m : M A) (k : A -> M B) : M B :=
  fun w =>
    let '(w1, r) := m w in
    match r with
    | Ok a => k a w1
    | Raise e => (w1, Raise e)
    end.

Notation "'run' x <~ m ; k" := (and_then m (fun x => k))
  (at level 10, x pattern, m at level 100, k at level 200).

(** [try: body except Exception as e: handler e] *)
Definition try_except {A} (body : M A) (handler : exn -> M A) : M A :=
  fun w =>
    let '(w1, r) := body w in
    match r with
    | Ok a => (w1, Ok a)
    | Raise e => handler e w1
    end.

(** [get_sync_state], [set_sync_state] and access to the object behind a
    reference. *)
Definition get_sync_state : M nat := fun w => (w, Ok (_sync_state w)).

Definition set_sync_state (state : nat) : M unit :=
  fun w => ({| store := store w; heap := heap w; _sync_state := state |}, Ok tt).

Definition read_state (state : nat) : M SyncState :=
  fun w => (w, Ok (deref (heap w) state)).

Definition write_state (state : nat) (f : SyncState -> SyncState) : M unit :=
  fun w => ({| store := store w;
               heap := <[state := f (deref (heap w) state)]> (heap w);
               _sync_state := _sync_state w |}, Ok tt).

Definition new_state (s : SyncState) : M nat :=
  fun w => ({| store := store w; heap := heap w ++ [s];
               _sync_state := _sync_state w |}, Ok (length (heap w))).

Definition read_store : M Store := fun w => (w, Ok (store w)).

Definition write_store (st : Store) : M unit :=
  fun w => ({| store := st; heap := heap w; _sync_state := _sync_state w |}, Ok tt).

(** ** services/sync_service.py: the run record and the lifecycle *)

(** [SyncService._create_sync_log] *)
Definition _create_sync_log (now : datetime) : M SyncLog :=
  run st <~ read_store;
  let sync_log :=
    {| log_id := 1 + max_log_id (sync_logs st);
       log_start_time := now; log_end_time := None; log_status := running;
       log_total_records := Some 0; log_success_records := Some 0;
       log_failed_records := Some 0; log_error_message := None;
       log_duration_ms := None |} in
  run _ <~ write_store {| companies := companies st;
                          sync_logs := sync_logs st ++ [sync_log] |};
  ret sync_log.

(** [SyncService._update_sync_log]; column [status] is NOT NULL. *)
Definition _update_sync_log (sync_log_id : Z) (update : SyncLogUpdate) : M unit :=
  match upd_status update with
  | None => raise (DatabaseException "Database operation failed" None)
  | Some status =>
      run st <~ read_store;
      write_store {| companies := companies st;
                     sync_logs := update_logs sync_log_id status update (sync_logs st) |}
  end.

(** [SyncService.start_sync] up to its first suspension: the check of the
    flag and the statement that inserts the run's row. *)
Definition start_sync_begin (now : datetime) : M SyncLog :=
  run state <~ get_sync_state;
  run current_state <~ read_state state;
  if is_running current_state
  then raise (SyncInProgressException "Synchronization is already in progress")
  else _create_sync_log now.

(** [SyncService.start_sync] after [_create_sync_log] has returned. *)
Definition start_sync_end (now : datetime) (sync_log : SyncLog) : M SyncLog :=
  run state <~ new_state {| is_running := true;
                            current_sync_id := Some (log_id sync_log);
                            current_page := 0; total_pages := 0;
                            processed_records := 0; total_records := 0;
                            start_time := Some now; last_update := None |};
  run _ <~ set_sync_state state;
  ret sync_log.

(** [SyncService.start_sync], run without interruption. *)
Definition start_sync (now : datetime) : M SyncLog :=
  run sync_log <~ start_sync_begin now;
  start_sync_end now sync_log.

(** Truthiness of [state.current_sync_id]. *)
Definition truthy_id (o : option Z) : option Z :=
  match o with
  | Some n => if n =? 0 then None else Some n
  | None => None
  end.

(** [SyncService.cancel_sync] up to its first suspension: the check of the
    flag and the statement that marks the row. It yields the state object
    it holds when it goes on, [None] when it returns [False]. *)
Definition cancel_sync_begin (now : datetime) : M (option nat) :=
  run state <~ get_sync_state;
  run s <~ read_state state;
  if negb (is_running s) then ret None
  else
    run _ <~ match truthy_id (current_sync_id s) with
             | Some sync_id =>
                 run update <~ lift (new_SyncLogUpdate
                   {| upd_end_time := Some now; upd_status := Some cancelled;
                      upd_total_records := None; upd_success_records := None;
                      upd_failed_records := None; upd_error_message := None;
                      upd_duration_ms := None |});
                 _update_sync_log sync_id update
             | None => ret tt
             end;
    ret (Some state).

(** [SyncService.cancel_sync] after the row is written. *)
Definition cancel_sync_end (state : nat) : M bool :=
  run _ <~ write_state state (set_is_running false);
  run _ <~ set_sync_state state;
  ret true.

(** [SyncService.cancel_sync], run without interruption. *)
Definition cancel_sync (now : datetime) : M bool :=
  run held <~ cancel_sync_begin now;
  match held with
  | Some state => cancel_sync_end state
  | None => ret false
  end.

(** The dictionary [get_sync_progress] returns; [current_operation] holds
    the two numbers of its message. *)
Record Progress := {
  p_is_running : bool;
  p_current_page : Z;
  p_total_pages : Z;
  p_processed_records : Z;
  p_total_records : Z;
  p_percentage : Q;
  p_estimated_remaining_seconds : option Z;
  p_current_operation : option (Z * Z)
}.

Definition idle_progress : Progress :=
  {| p_is_running := false; p_current_page := 0; p_total_pages := 0;
     p_processed_records := 0; p_total_records := 0; p_percentage := 0%Q;
     p_estimated_remaining_seconds := None; p_current_operation := None |}.

(** [SyncService.get_sync_progress] *)
Definition get_sync_progress (now : datetime) : M Progress :=
  run l <~ get_sync_state;
  run state <~ read_state l;
  if negb (is_running state) then ret idle_progress
  else
    run percentage <~ lift (get_percentage state);
    run eta <~ lift (get_estimated_remaining_seconds now state);
    ret {| p_is_running := true;
           p_current_page := current_page state;
           p_total_pages := total_pages state;
           p_processed_records := processed_records state;
           p_total_records := total_records state;
           p_percentage := percentage;
           p_estimated_remaining_seconds := eta;
           p_current_operation := Some (current_page state, total_pages state) |}.

(** [SyncService.get_sync_status]: the row with the greatest id. *)
Definition latest_log (logs : list SyncLog) : option SyncLog :=
  foldl (fun best r =>
           match best with
           | Some b => if log_id b <? log_id r then Some r else Some b
           | None => Some r
           end) None logs.

Definition get_sync_status : M (option SyncLog) :=
  run st <~ read_store;
  ret (latest_log (sync_logs st)).

Section Engine.

(** [datetime.fromisoformat], [None] standing for its [ValueError], and the
    text the store's adapter writes for a [datetime] parameter. *)
Variable fromisoformat : string -> option datetime.
Variable isoformat : datetime -> string.

Definition datetime_fromisoformat (s : string) : result datetime :=
  match fromisoformat s with
  | Some d => Ok d
  | None => Raise (ValueError "Invalid isoformat string")
  end.

(** [datetime.fromisoformat(s) if s else None] *)
Definition parse_if_truthy (o : option string) : result (option datetime) :=
  match o with
  | Some s =>
      if truthy o then do d <- datetime_fromisoformat s; Ok (Some d) else Ok None
  | None => Ok None
  end.

(** [ExternalCompany.to_internal] *)
Definition to_internal (self : ExternalCompany) : result CompanyCreate :=
  do ct <- parse_if_truthy (Some (ext_create_time self));
  do ut <- parse_if_truthy (ext_update_time self);
  validate_CompanyCreate
    {| id := Some (ext_id self);
       company_name := ext_company_name self;
       owner := ext_owner self;
       company_desc := ext_company_desc self;
       address := if truthy (ext_adress self) then ext_adress self else Some "";
       create_time := ct;
       update_time := ut;
       code := ext_code self;
       uuid := ext_uuid self |}.

(** [SyncService._needs_update]. The [try] block yields [Some b] when it
    executes [return b] and [None] when control falls through to the final
    [return True]. *)
Definition _needs_update (existing : CompanyRow) (internal : CompanyCreate)
    (external : ExternalCompany) : result bool :=
  do r <-
    (if truthy (ext_update_time external) && truthy (row_update_time existing) then
       try_except_ValueError
         (do external_time <-
            datetime_fromisoformat (default "" (ext_update_time external));
          do existing_time <- parse_if_truthy (row_update_time existing);
          match existing_time with
          | Some existing_time =>
              do le <- datetime_le external_time existing_time;
              if le then Ok (Some false) else Ok None
          | None => Ok None
          end)
         (Ok None)
     else Ok None);
  match r with
  | Some b => Ok b
  | None => Ok true
  end.

(** [str(e)] *)
Definition str_of_exn (e : exn) : string :=
  match e with
  | ValueError msg => msg
  | TypeError msg => msg
  | ZeroDivisionError => "division by zero"
  | ValidationError field => "validation error for " +:+ field
  | APIException (HttpError status_code text) _ =>
      "HTTP error " +:+ pretty status_code +:+ ": " +:+ text
  | APIException (RequestFailed cause) _ => "Request failed: " +:+ cause
  | APIException JsonParseFailed _ => "Failed to parse JSON response"
  | DatabaseException message _ => message
  | SyncInProgressException message => message
  end.

(** [SyncService._get_existing_companies] and the dictionary
    [{comp["id"]: comp for comp in existing_companies}]. *)
Definition _get_existing_companies : M (list CompanyRow) :=
  run st <~ read_store;
  ret (filter (fun r => row_is_active r = true) (companies st)).

Definition index_by_id (existing_companies : list CompanyRow) : gmap Z CompanyRow :=
  foldl (fun d comp => <[row_id comp := comp]> d) ∅ existing_companies.

(** The row [INSERT INTO companies] writes for a company. *)
Definition inserted_row (now : datetime) (key : Z) (c : CompanyCreate) : CompanyRow :=
  {| row_id := key;
     row_company_name := company_name c;
     row_owner := owner c;
     row_company_desc := company_desc c;
     row_address := address c;
     row_create_time := isoformat <$> create_time c;
     row_update_time := isoformat <$> update_time c;
     row_code := code c;
     row_uuid := uuid c;
     row_last_sync_at := Some (isoformat now);
     row_is_active := true |}.

Definition max_company_id (table : list CompanyRow) : Z :=
  foldr (fun r m => Z.max (row_id r) m) 0 table.

(** [executemany] of the INSERT: row after row; a row whose id is already
    in the table violates the primary key and stops the statement, the rows
    before it staying written on the connection. *)
Fixpoint insert_rows (now : datetime) (new_companies : list CompanyCreate)
    (table : list CompanyRow) : list CompanyRow * bool :=
  match new_companies with
  | [] => (table, true)
  | c :: rest =>
      let key := match id c with
                 | Some n => n
                 | None => 1 + max_company_id table
                 end in
      if existsb (fun r => row_id r =? key) table then (table, false)
      else insert_rows now rest (table ++ [inserted_row now key c])
  end.

(** [SyncService._insert_companies] *)
Definition _insert_companies (now : datetime) (new_companies : list CompanyCreate)
    : M Z :=
  match new_companies with
  | [] => ret 0
  | _ =>
      run st <~ read_store;
      let '(table, accepted) := insert_rows now new_companies (companies st) in
      run _ <~ write_store {| companies := table; sync_logs := sync_logs st |};
      if accepted then ret (Z.of_nat (length new_companies))
      else raise (DatabaseException "Insert operation failed" (Some "insert"))
  end.

(** The row [UPDATE companies ... WHERE id = ?] leaves for a company. *)
Definition updated_row (now : datetime) (c : CompanyCreate) (r : CompanyRow)
    : CompanyRow :=
  {| row_id := row_id r;
     row_company_name := company_name c;
     row_owner := owner c;
     row_company_desc := company_desc c;
     row_address := address c;
     row_create_time := row_create_time r;
     row_update_time := isoformat <$> update_time c;
     row_code := code c;
     row_uuid := uuid c;
     row_last_sync_at := Some (isoformat now);
     row_is_active := row_is_active r |}.

Definition update_row (now : datetime) (table : list CompanyRow) (c : CompanyCreate)
    : list CompanyRow :=
  map (fun r => if decide (Some (row_id r) = id c) then updated_row now c r else r) table.

(** [SyncService._update_companies] *)
Definition _update_companies (now : datetime) (changed : list CompanyCreate) : M Z :=
  match changed with
  | [] => ret 0
  | _ =>
      run st <~ read_store;
      run _ <~ write_store {| companies := foldl (update_row now) (companies st) changed;
                              sync_logs := sync_logs st |};
      ret (Z.of_nat (length changed))
  end.

(** The lists and the counter the loop of [_process_batch] fills. *)
Record Partition := {
  to_insert : list CompanyCreate;
  to_update : list CompanyCreate;
  failed_count : Z
}.

(** One iteration of [for external_company in batch], with its [try]. *)
Definition partition_step (existing_by_id : gmap Z CompanyRow) (acc : Partition)
    (external_company : ExternalCompany) : Partition :=
  match
    (do internal_company <- to_internal external_company;
     match existing_by_id !! ext_id external_company with
     | Some existing =>
         do needed <- _needs_update existing internal_company external_company;
         if needed
         then Ok {| to_insert := to_insert acc;
                    to_update := to_update acc ++ [internal_company];
                    failed_count := failed_count acc |}
         else Ok acc
     | None =>
         Ok {| to_insert := to_insert acc ++ [internal_company];
               to_update := to_update acc;
               failed_count := failed_count acc |}
     end)
  with
  | Ok acc' => acc'
  | Raise _ => {| to_insert := to_insert acc; to_update := to_update acc;
                  failed_count := failed_count acc + 1 |}
  end.

Definition partition_batch (batch : list ExternalCompany)
    (existing_by_id : gmap Z CompanyRow) : Partition :=
  foldl (partition_step existing_by_id)
        {| to_insert := []; to_update := []; failed_count := 0 |} batch.

(** [SyncService._process_batch] *)
Definition _process_batch (now : datetime) (batch : list ExternalCompany)
    (existing_by_id : gmap Z CompanyRow) : M (Z * Z) :=
  let p := partition_batch batch existing_by_id in
  let success_count := 0 in
  let failed_count := failed_count p in
  run (success_count, failed_count) <~
    match to_insert p with
    | [] => ret (success_count, failed_count)
    | _ =>
        run insert_success <~ _insert_companies now (to_insert p);
        ret (success_count + insert_success,
             failed_count + (Z.of_nat (length (to_insert p)) - insert_success))
    end;
  run (success_count, failed_count) <~
    match to_update p with
    | [] => ret (success_count, failed_count)
    | _ =>
        run update_success <~ _update_companies now (to_update p);
        ret (success_count + update_success,
             failed_count + (Z.of_nat (length (to_update p)) - update_success))
    end;
  ret (success_count, failed_count).

(** An execution of [perform_sync] in flight: its local variables
    [start_time] and [state]. *)
Record Activation := {
  act_start_time : datetime;
  act_state : nat
}.

(** The dictionary [perform_sync] returns. *)
Record Summary := {
  sum_total_records : Z;
  sum_success_records : Z;
  sum_failed_records : Z;
  sum_status : sync_status
}.

(** What a run is given from outside: the settings, the source, the order
    in which its page fetches finish. *)
Record Environment := {
  env_settings : Settings;
  env_source : source;
  env_completion : list nat
}.

(** [int((datetime.now() - start_time).total_seconds() * 1000)] *)
Definition elapsed_ms (now started : datetime) : result Z :=
  do seconds <- total_seconds_between now started;
  Ok (int_of_float (seconds * inject_Z 1000)%Q).

(** [range(0, n, batch_size)] with [batch_size = 100]. *)
Definition batch_starts (n : nat) : list nat :=
  map (fun k => (k * 100)%nat) (seq 0 (Nat.div (n + 99) 100)).

(** The loop over the batches. *)
Fixpoint process_batches (now : datetime) (state : nat)
    (external_companies : list ExternalCompany)
    (existing_by_id : gmap Z CompanyRow) (starts : list nat) (counts : Z * Z)
    : M (Z * Z) :=
  match starts with
  | [] => ret counts
  | i :: rest =>
      let batch := take 100 (drop i external_companies) in
      let n := Z.of_nat (length external_companies) in
      let current_page := Z.of_nat i / 100 + 1 in
      let total_pages := (n + 100 - 1) / 100 in
      let processed_records := Z.min (Z.of_nat i + 100) n in
      run _ <~ write_state state
                 (update_progress now current_page total_pages processed_records);
      run (batch_success, batch_failed) <~ _process_batch now batch existing_by_id;
      process_batches now state external_companies existing_by_id rest
        (fst counts + batch_success, snd counts + batch_failed)
  end.

(** [perform_sync]: the first statements, before anything is awaited. *)
Definition perform_sync_enter (now : datetime) : M Activation :=
  run state <~ get_sync_state;
  ret {| act_start_time := now; act_state := state |}.

(** [perform_sync]: the [try] block up to the write of the [completed]
    row. *)
Definition perform_sync_try (env : Environment) (now : datetime) (act : Activation)
    (sync_log_id : Z) : M Summary :=
  run pages <~ lift (get_total_pages (env_settings env) (env_source env) 50);
  run first_page <~ lift (get_companies_page (env_settings env) (env_source env) 1 50);
  let records := total first_page in
  run _ <~ write_state (act_state act) (set_totals records pages);
  run external_companies <~
    lift (get_all_companies (env_settings env) (env_source env) (env_completion env) 50);
  run existing_companies <~ _get_existing_companies;
  let existing_by_id := index_by_id existing_companies in
  run (success_count, failed_count) <~
    process_batches now (act_state act) external_companies existing_by_id
      (batch_starts (length external_companies)) (0, 0);
  run duration_ms <~ lift (elapsed_ms now (act_start_time act));
  run update <~ lift (new_SyncLogUpdate
    {| upd_end_time := Some now; upd_status := Some completed;
       upd_total_records := Some records;
       upd_success_records := Some success_count;
       upd_failed_records := Some failed_count;
       upd_error_message := None;
       upd_duration_ms := Some duration_ms |});
  run _ <~ _update_sync_log sync_log_id update;
  ret {| sum_total_records := records; sum_success_records := success_count;
         sum_failed_records := failed_count; sum_status := completed |}.

(** [perform_sync] from its first await to the write of the terminal row,
    on either path. It yields what the call is about to do once the flag is
    cleared, return the summary or re-raise; an exception raised by the
    handler itself escapes. *)
Definition perform_sync_run (env : Environment) (now : datetime) (act : Activation)
    (sync_log_id : Z) : M (result Summary) :=
  try_except
    (run summary <~ perform_sync_try env now act sync_log_id;
     ret (Ok summary))
    (fun e =>
       run duration_ms <~ lift (elapsed_ms now (act_start_time act));
       run update <~ lift (new_SyncLogUpdate
         {| upd_end_time := Some now; upd_status := Some failed;
            upd_total_records := None; upd_success_records := None;
            upd_failed_records := None;
            upd_error_message := Some (str_of_exn e);
            upd_duration_ms := Some duration_ms |});
       run _ <~ _update_sync_log sync_log_id update;
       ret (Raise e)).

(** [perform_sync] after the terminal row is written:
    [state.is_running = False; set_sync_state(state)], then the return or
    the re-raise. *)
Definition perform_sync_exit (act : Activation) (outcome : result Summary)
    : M Summary :=
  run _ <~ write_state (act_state act) (set_is_running false);
  run _ <~ set_sync_state (act_state act);
  lift outcome.

(** [SyncService.perform_sync], run without interruption. *)
Definition perform_sync (env : Environment) (started now : datetime)
    (sync_log_id : Z) : M Summary :=
  run act <~ perform_sync_enter started;
  run outcome <~ perform_sync_run env now act sync_log_id;
  perform_sync_exit act outcome.

(** *** The lifecycle under interleaving

    The calls run as coroutines on one event loop: a call runs alone from
    one suspension to the next, and the store executes the statements in
    the order the calls hand them over. The route layer
    (api/routes/sync.py) creates the background task of a run when
    [start_sync] returns; the task calls [perform_sync] and, when that
    raises, writes a [failed] row of its own.

    A call is cut where the flag, the reference [_sync_state] or a row of
    [sync_logs] is read or written on one side of an await and on the
    other: [start_sync] after the insertion of the row is handed over,
    [cancel_sync] after the update of the row is handed over,
    [perform_sync] after its first statements and again after its terminal
    update is handed over. The work of a run between these points touches
    table [companies] and the progress fields of its state object only,
    which decide nothing in any other call; it is taken in one piece. *)

(** [run_sync_background], the [except] clause: the task marks the run
    failed itself; an exception of this write is logged and dropped. *)
Definition background_failure (now : datetime) (sync_log_id : Z) (e : exn) : M unit :=
  try_except
    (run update <~ lift (new_SyncLogUpdate
       {| upd_end_time := Some now; upd_status := Some failed;
          upd_total_records := None; upd_success_records := None;
          upd_failed_records := None;
          upd_error_message := Some (str_of_exn e);
          upd_duration_ms := None |});
     _update_sync_log sync_log_id update)
    (fun _ => ret tt).

(** A call suspended at an await. [TaskFailing] is a background task whose
    [perform_sync] has raised, with the flag cleared on the way or not. *)
Inductive Coroutine :=
| StartAwaiting (sync_log : SyncLog)
| CancelAwaiting (state : nat)
| TaskCreated (sync_log_id : Z)
| PerformAwaiting (sync_log_id : Z) (act : Activation)
| PerformExiting (sync_log_id : Z) (act : Activation) (outcome : result Summary)
| TaskFailing (sync_log_id : Z) (e : exn) (cleared : bool).

(** The process with its suspended calls; [finished] lists the runs whose
    background task has ended after [perform_sync] cleared the flag. *)
Record System := {
  world : World;
  suspended : list Coroutine;
  finished : list Z
}.

Definition initial_system (st : Store) : System :=
  {| world := initial_world st; suspended := []; finished := [] |}.

Inductive Event :=
| CallStart (now : datetime)
| CallCancel (now : datetime)
| Resume (k : nat) (now : datetime) (env : Environment).

Definition call_start (now : datetime) (s : System) : System :=
  let '(w, r) := start_sync_begin now (world s) in
  {| world := w;
     suspended := match r with
                  | Ok sync_log => suspended s ++ [StartAwaiting sync_log]
                  | Raise _ => suspended s
                  end;
     finished := finished s |}.

Definition call_cancel (now : datetime) (s : System) : System :=
  let '(w, r) := cancel_sync_begin now (world s) in
  {| world := w;
     suspended := match r with
                  | Ok (Some state) => suspended s ++ [CancelAwaiting state]
                  | _ => suspended s
                  end;
     finished := finished s |}.

Definition resume (k : nat) (now : datetime) (env : Environment) (s : System)
    : System :=
  match suspended s !! k with
  | None => s
  | Some c =>
      let others := delete k (suspended s) in
      match c with
      | StartAwaiting sync_log =>
          let '(w, _) := start_sync_end now sync_log (world s) in
          {| world := w; suspended := others ++ [TaskCreated (log_id sync_log)];
             finished := finished s |}
      | CancelAwaiting state =>
          let '(w, _) := cancel_sync_end state (world s) in
          {| world := w; suspended := others; finished := finished s |}
      | TaskCreated sync_log_id =>
          let '(w, r) := perform_sync_enter now (world s) in
          {| world := w;
             suspended := match r with
                          | Ok act => others ++ [PerformAwaiting sync_log_id act]
                          | Raise e => others ++ [TaskFailing sync_log_id e false]
                          end;
             finished := finished s |}
      | PerformAwaiting sync_log_id act =>
          let '(w, r) := perform_sync_run env now act sync_log_id (world s) in
          {| world := w;
             suspended := match r with
                          | Ok outcome => others ++ [PerformExiting sync_log_id act outcome]
                          | Raise e => others ++ [TaskFailing sync_log_id e false]
                          end;
             finished := finished s |}
      | PerformExiting sync_log_id act outcome =>
          let '(w, r) := perform_sync_exit act outcome (world s) in
          {| world := w;
             suspended := match r with
                          | Ok _ => others
                          | Raise e => others ++ [TaskFailing sync_log_id e true]
                          end;
             finished := match r with
                         | Ok _ => sync_log_id :: finished s
                         | Raise _ => finished s
                         end |}
      | TaskFailing sync_log_id e cleared =>
          let '(w, _) := background_failure now sync_log_id e (world s) in
          {| world := w; suspended := others;
             finished := if cleared then sync_log_id :: finished s else finished s |}
      end
  end.

Definition step (s : System) (e : Event) : System :=
  match e with
  | CallStart now => call_start now s
  | CallCancel now => call_cancel now s
  | Resume k now env => resume k now env s
  end.

Definition execute (events : list Event) (s : System) : System :=
  foldl step s events.

(** The rows of table [sync_logs] of a system, and the status of a run. *)
Definition logs_of (s : System) : list SyncLog := sync_logs (store (world s)).

Definition status_of (sync_log_id : Z) (s : System) : option sync_status :=
  log_status <$> find_log sync_log_id (logs_of s).

End Engine.

(** ** Reference data

    Concrete settings, records and sources on which the engine is run. *)

(** The defaults of [Settings]: three retries, one second of base delay. *)
Definition default_settings : Settings :=
  {| sync_retry_attempts := 3; sync_retry_delay := 1 |}.

(** A source record with the given id and update stamp. *)
Definition sample_company (key : Z) (stamp : option string) : ExternalCompany :=
  {| ext_id := key; ext_company_name := "Company"; ext_owner := Some "Owner";
     ext_company_desc := None; ext_adress := Some "Address";
     ext_create_time := "2023-01-01 00:00:00"; ext_update_time := stamp;
     ext_code := None; ext_uuid := None |}.

(** A persisted row with the given id and update stamp. *)
Definition sample_row (key : Z) (stamp : option string) : CompanyRow :=
  {| row_id := key; row_company_name := "Company"; row_owner := Some "Owner";
     row_company_desc := None; row_address := Some "Address";
     row_create_time := Some "2023-01-01 00:00:00"; row_update_time := stamp;
     row_code := None; row_uuid := None;
     row_last_sync_at := Some "2023-01-03 00:00:00"; row_is_active := true |}.

Definition sample_internal : CompanyCreate :=
  {| company_name := "Company"; owner := Some "Owner"; company_desc := None;
     address := Some "Address"; create_time := None; update_time := None;
     code := None; uuid := None; id := Some 1 |}.

(** A source that answers every request at once with status 200: [records]
    cut into pages of the requested size. *)
Definition paged_source (records : list ExternalCompany) : source :=
  fun page_num page_size _ =>
    Response 200 "OK"
      (Some (Envelope
         {| resp_code := 200; resp_msg := "success";
            resp_data :=
              {| total_page := (Z.of_nat (length records) + page_size - 1) / page_size;
                 total := Z.of_nat (length records);
                 rows := take (Z.to_nat page_size)
                           (drop (Z.to_nat ((page_num - 1) * page_size)) records) |} |})).

Definition env_of (records : list ExternalCompany) (completion : list nat)
    : Environment :=
  {| env_settings := default_settings; env_source := paged_source records;
     env_completion := completion |}.

(** The end-to-end scenario: records 1..100 arrive; rows 38..100 exist;
    records 38..42 carry a newer stamp than their rows, records 43..100 the
    same stamp. So 37 are new, 5 need an update, 58 are unchanged. *)
Definition scenario_records : list ExternalCompany :=
  map (fun k =>
         let key := Z.of_nat k in
         sample_company key
           (Some (if (38 <=? key) && (key <=? 42)
                  then "2023-06-01 00:00:00" else "2023-01-02 00:00:00")))
      (seq 1 100).

Definition scenario_store : Store :=
  {| companies := map (fun k => sample_row (Z.of_nat k) (Some "2023-01-02 00:00:00"))
                      (seq 38 63);
     sync_logs := [] |}.

(** Two clock readings used in the examples. *)
Definition t0 : datetime := naive 1700000000000000.
Definition t1 : datetime := naive 1700000005000000.

(** The world in which a run of the scenario has been started. *)
Definition scenario_started : World :=
  fst (start_sync t0 (initial_world scenario_store)).

(** ** Vocabulary of the properties *)

(** The exception the retry loop keeps from an attempt it goes on after;
    [None] for an attempt that ends the loop (a 2xx or a 4xx response). *)
Definition retried (o : attempt_outcome) : option exn :=
  match o with
  | Response status_code text _ =>
      if is_success status_code || ((400 <=? status_code) && (status_code <? 500))
      then None
      else Some (APIException (HttpError status_code text) (Some status_code))
  | TransportError cause => Some (APIException (RequestFailed cause) None)
  end.

(** The requests and waits of [k] attempts that each were followed by a
    retry. *)
Definition backoff_trace (settings : Settings) (k : nat) : list io_event :=
  flat_map (fun attempt => [Sent attempt; Slept (backoff_delay settings attempt)])
           (seq 0 k).

(** A slot of [gather] holds nothing yet or the value of its own
    position. *)
Definition slots_agree {A} (values : list A) (slots : list (option A)) : Prop :=
  length slots = length values /\
  forall i a, slots !! i = Some (Some a) -> values !! i = Some a.

(** What [_process_batch] does with one record. *)
Inductive Disposition := Inserted | Updated | Skipped | Rejected.

#[global] Instance Disposition_eq_dec : EqDecision Disposition.
Proof. solve_decision. Defined.

Definition disposition (fromisoformat : string -> option datetime)
    (existing_by_id : gmap Z CompanyRow) (e : ExternalCompany) : Disposition :=
  match to_internal fromisoformat e with
  | Raise _ => Rejected
  | Ok internal =>
      match existing_by_id !! ext_id e with
      | None => Inserted
      | Some existing =>
          match _needs_update fromisoformat existing internal e with
          | Ok true => Updated
          | Ok false => Skipped
          | Raise _ => Rejected
          end
      end
  end.

(** How many records of a list meet a given fate. *)
Definition tally (fromisoformat : string -> option datetime)
    (existing_by_id : gmap Z CompanyRow) (d : Disposition)
    (records : list ExternalCompany) : Z :=
  Z.of_nat (length (filter (fun e => disposition fromisoformat existing_by_id e = d)
                           records)).

(** The index a run of the scenario works with. *)
Definition scenario_index : gmap Z CompanyRow :=
  index_by_id (companies scenario_store).

(** The run of the scenario: page 2 finishes before page 1. *)
Definition scenario_env : Environment := env_of scenario_records [1%nat; 0%nat].

Definition scenario_finished : World :=
  fst (perform_sync iso_parse iso_format scenario_env t0 t1 1 scenario_started).

(** What the run of the scenario returns. *)
Definition scenario_summary : Summary :=
  {| sum_total_records := 100; sum_success_records := 42;
     sum_failed_records := 0; sum_status := completed |}.

(** What the work of a run leaves alone: the table of runs, the reference
    [_sync_state], and in every state object the flag and the run id. *)
Definition working (w w' : World) : Prop :=
  sync_logs (store w') = sync_logs (store w) /\
  _sync_state w' = _sync_state w /\
  forall l, is_running (deref (heap w') l) = is_running (deref (heap w) l) /\
            current_sync_id (deref (heap w') l) = current_sync_id (deref (heap w) l).

(** A computation that leaves the flags and the reference alone and, when
    it returns, has assigned the row of the run with the given status; when
    it raises, the table of runs is as before. *)
Definition writes_terminal {A} (sync_log_id : Z) (status : sync_status) (w : World)
    (x : World * result A) : Prop :=
  _sync_state (fst x) = _sync_state w /\
  (forall l, is_running (deref (heap (fst x)) l) = is_running (deref (heap w) l) /\
             current_sync_id (deref (heap (fst x)) l) = current_sync_id (deref (heap w) l)) /\
  match snd x with
  | Ok _ => exists u, sync_logs (store (fst x))
                      = update_logs sync_log_id status u (sync_logs (store w))
  | Raise _ => sync_logs (store (fst x)) = sync_logs (store w)
  end.

(** What the perform step leaves in the table of runs, by what it is about
    to do: return ([completed] written), re-raise ([failed] written), or
    let an exception of its handler escape (nothing written). *)
Definition terminal_write (sync_log_id : Z) (outcome : result (result Summary))
    (logs logs' : list SyncLog) : Prop :=
  match outcome with
  | Ok (Ok _) => exists u, logs' = update_logs sync_log_id completed u logs
  | Ok (Raise _) => exists u, logs' = update_logs sync_log_id failed u logs
  | Raise _ => logs' = logs
  end.

(** The run a suspended call works for. *)
Definition run_of (c : Coroutine) : option Z :=
  match c with
  | StartAwaiting sync_log => Some (log_id sync_log)
  | CancelAwaiting _ => None
  | TaskCreated sync_log_id => Some sync_log_id
  | PerformAwaiting sync_log_id _ => Some sync_log_id
  | PerformExiting sync_log_id _ _ => Some sync_log_id
  | TaskFailing sync_log_id _ _ => Some sync_log_id
  end.

Definition runs_in_flight (s : System) : list Z := omap run_of (suspended s).

(** The run of a background task that is past the [perform_sync] that
    cleared the flag. *)
Definition exited_of (c : Coroutine) : option Z :=
  match c with
  | TaskFailing sync_log_id _ true => Some sync_log_id
  | _ => None
  end.

(** The runs whose [perform_sync] has cleared the flag and has returned or
    re-raised. *)
Definition exited (s : System) : list Z := omap exited_of (suspended s) ++ finished s.

(** The run whose row [cancel_sync] would mark now. *)
Definition current_run (w : World) : option Z :=
  if is_running (deref (heap w) (_sync_state w))
  then truthy_id (current_sync_id (deref (heap w) (_sync_state w)))
  else None.

(** What holds of every system the events lead to: a run is in flight or
    finished at most once, each such run has an id handed out by the table,
    and the run the global state points at is not past its
    [perform_sync]. *)
Record consistent (s : System) : Prop := {
  runs_distinct : NoDup (runs_in_flight s ++ finished s);
  runs_known : forall sync_log_id,
    sync_log_id ∈ runs_in_flight s ++ finished s ->
    sync_log_id <= max_log_id (logs_of s);
  current_live : forall sync_log_id,
    current_run (world s) = Some sync_log_id -> sync_log_id ∉ exited s
}.

(** Three courses of events over the store of the scenario.

    A run from start to end: [start_sync] is called and goes on, the
    background task enters [perform_sync], writes its terminal row, clears
    the flag and ends. *)
Definition completed_course : list Event :=
  [CallStart t0; Resume 0 t0 scenario_env; Resume 0 t0 scenario_env;
   Resume 0 t1 scenario_env; Resume 0 t1 scenario_env].

(** A run cancelled in flight: the task has entered [perform_sync] when
    [cancel_sync] is called and goes on to its end. *)
Definition cancelled_course : list Event :=
  [CallStart t0; Resume 0 t0 scenario_env; Resume 0 t0 scenario_env;
   CallCancel t1; Resume 1 t1 scenario_env].

(** Two calls of [start_sync], the second arriving while the first awaits
    the store; then both go on. *)
Definition racing_starts : list Event :=
  [CallStart t0; CallStart t0; Resume 0 t1 scenario_env; Resume 0 t1 scenario_env].

(** A run against a source that answers 503 to every request: after the
    perform step has re-raised, the background task goes on twice. *)
Definition failing_env : Environment :=
  {| env_settings := default_settings;
     env_source := fun _ _ _ => Response 503 "Service Unavailable" None;
     env_completion := [] |}.

Definition failing_course : list Event :=
  [CallStart t0; Resume 0 t0 failing_env; Resume 0 t0 failing_env;
   Resume 0 t1 failing_env; Resume 0 t1 failing_env; Resume 0 t1 failing_env].

Definition course (events : list Event) : System :=
  execute iso_parse iso_format events (initial_system scenario_store).

(** ** Further code of the repository *)

(** *** services/api_client.py *)

(** [APIClient.health_check] *)
Definition health_check (settings : Settings) (src : source) : bool :=
  match get_companies_page settings src 1 1 with
  | Ok _ => true
  | Raise _ => false
  end.

(** The attempts sent and the delays waited for in a trace of [_request],
    and the time spent waiting. *)
Definition sent_attempts (io : list io_event) : list nat :=
  omap (fun ev => match ev with Sent attempt => Some attempt | Slept _ => None end) io.

Definition slept_delays (io : list io_event) : list Q :=
  omap (fun ev => match ev with Slept delay => Some delay | Sent _ => None end) io.

Definition total_wait (io : list io_event) : Q :=
  foldr Qplus 0%Q (slept_delays io).

(** *** services/sync_service.py *)

(** The row [_create_sync_log] inserts into a table of runs. *)
Definition started_row (now : datetime) (logs : list SyncLog) : SyncLog :=
  {| log_id := 1 + max_log_id logs;
     log_start_time := now; log_end_time := None; log_status := running;
     log_total_records := Some 0; log_success_records := Some 0;
     log_failed_records := Some 0; log_error_message := None;
     log_duration_ms := None |}.

(** The update objects [perform_sync] builds on its two paths, and the one
    the background task builds. *)
Definition completed_update (now : datetime) (summary : Summary) (duration_ms : Z)
    : SyncLogUpdate :=
  {| upd_end_time := Some now; upd_status := Some completed;
     upd_total_records := Some (sum_total_records summary);
     upd_success_records := Some (sum_success_records summary);
     upd_failed_records := Some (sum_failed_records summary);
     upd_error_message := None;
     upd_duration_ms := Some duration_ms |}.

Definition failed_update (now : datetime) (e : exn) (duration_ms : option Z)
    : SyncLogUpdate :=
  {| upd_end_time := Some now; upd_status := Some failed;
     upd_total_records := None; upd_success_records := None;
     upd_failed_records := None;
     upd_error_message := Some (str_of_exn e);
     upd_duration_ms := duration_ms |}.

(** One more failure on the counter of the loop of [_process_batch]. *)
Definition one_more_failed (p : Partition) : Partition :=
  {| to_insert := to_insert p; to_update := to_update p;
     failed_count := failed_count p + 1 |}.

(** *** api/routes/sync.py *)

(** What a route hands to the framework: the content it returns, sent with
    the status code of the route, or the [HTTPException] it raises. *)
Inductive Reply (A : Type) :=
| Answer (status_code : Z) (content : A)
| HTTPException (status_code : Z) (detail : string).
Arguments Answer {A} status_code content.
Arguments HTTPException {A} status_code detail.

Record SyncStartResponse := {
  start_message : string;
  sync_id : Z;
  estimated_duration_minutes : Z
}.

(** [SyncStatusResponse]: the fields of [SyncLog], the three counts being
    integers that are not optional. *)
Record SyncStatusResponse := {
  st_id : Z;
  st_start_time : datetime;
  st_end_time : option datetime;
  st_status : sync_status;
  st_total_records : Z;
  st_success_records : Z;
  st_failed_records : Z;
  st_error_message : option string;
  st_duration_ms : option Z
}.

(** An [int] field with [ge=0] that is given explicitly: [None] is not an
    integer. *)
Definition required_ge0 (field : string) (o : option Z) : result Z :=
  match o with
  | Some n => if 0 <=? n then Ok n else Raise (ValidationError field)
  | None => Raise (ValidationError field)
  end.

(** The [SyncStatusResponse] the route builds from the dictionary
    [get_sync_status] makes of a row. *)
Definition new_SyncStatusResponse (row : SyncLog) : result SyncStatusResponse :=
  do total <- required_ge0 "total_records" (log_total_records row);
  do success <- required_ge0 "success_records" (log_success_records row);
  do failures <- required_ge0 "failed_records" (log_failed_records row);
  do _ <- ge0 "duration_ms" (log_duration_ms row);
  Ok {| st_id := log_id row; st_start_time := log_start_time row;
        st_end_time := log_end_time row; st_status := log_status row;
        st_total_records := total; st_success_records := success;
        st_failed_records := failures;
        st_error_message := log_error_message row;
        st_duration_ms := log_duration_ms row |}.

Module routes.

(** [POST /sync]. The background task the route creates is the coroutine
    [TaskCreated] of the interleaving model; here the call of the service is
    taken in one piece. *)
Definition start_sync (now : datetime) (w : World) : World * Reply SyncStartResponse :=
  let '(w1, r) := start_sync now w in
  (w1,
   match r with
   | Ok sync_log =>
       Answer 202 {| start_message := "Synchronization started successfully";
                     sync_id := log_id sync_log;
                     estimated_duration_minutes := 5 |}
   | Raise (SyncInProgressException message) => HTTPException 409 message
   | Raise _ => HTTPException 500 "Failed to start synchronization"
   end).

(** [GET /sync/status] *)
Definition get_sync_status (w : World) : World * Reply SyncStatusResponse :=
  let '(w1, r) := get_sync_status w in
  (w1,
   match r with
   | Ok None => HTTPException 404 "No synchronization history found"
   | Ok (Some row) =>
       match new_SyncStatusResponse row with
       | Ok response => Answer 200 response
       | Raise _ => HTTPException 500 "Failed to get sync status"
       end
   | Raise _ => HTTPException 500 "Failed to get sync status"
   end).

(** [POST /sync/cancel] *)
Definition cancel_sync (now : datetime) (w : World) : World * Reply string :=
  let '(w1, r) := cancel_sync now w in
  (w1,
   match r with
   | Ok true => Answer 200 "Synchronization cancelled successfully"
   | Ok false => HTTPException 404 "No active synchronization to cancel"
   | Raise _ => HTTPException 500 "Failed to cancel synchronization"
   end).

End routes.

(** *** utils/config.py *)

(** [s.rstrip("/")] *)
Fixpoint rstrip_slash (s : string) : string :=
  match s with
  | EmptyString => EmptyString
  | String c rest =>
      match rstrip_slash rest with
      | EmptyString => if Ascii.eqb c "/" then EmptyString else String c EmptyString
      | kept => String c kept
      end
  end.

(** [Settings.external_api_endpoints], from the configured base URL. *)
Definition external_api_endpoints (external_api_base_url : string) : gmap string string :=
  let base_url := rstrip_slash external_api_base_url in
  {[ "companies" := base_url +:+ "/system/softwareCompany/list";
     "health" := base_url +:+ "/health" ]}.

(** A run of [n] slashes. *)
Fixpoint slashes (n : nat) : string :=
  match n with
  | O => EmptyString
  | S k => String "/" (slashes k)
  end.

(** *** models/company.py and models/search.py: what is read back *)

Record Company := {
  co_id : Z;
  co_company_name : string;
  co_owner : option string;
  co_company_desc : option string;
  co_address : option string;
  co_create_time : option datetime;
  co_update_time : option datetime;
  co_code : option string;
  co_uuid : option string;
  co_last_sync_at : datetime;
  co_is_active : bool
}.

Record CompanyResponse := {
  cr_id : Z;
  cr_company_name : string;
  cr_owner : option string;
  cr_address : option string;
  cr_update_time : option datetime
}.


Record SearchResult := {
  sr_companies : list CompanyResponse;
  sr_total_count : Z;
  sr_page : Z;
  sr_page_size : Z;
  sr_total_pages : Z;
  sr_query : string;
  sr_search_type : string;
  sr_processing_time_ms : Q
}.

#[global] Instance CompanyRow_eq_dec : EqDecision CompanyRow.
Proof. solve_decision. Defined.

(** *** services/company_service.py *)

(** A row of table [search_queries]. *)
Record SearchQueryRow := {
  sq_id : Z;
  sq_query : string;
  sq_timestamp : datetime;
  sq_result_count : Z;
  sq_user_agent : option string
}.

(** The store together with the table the company service writes. *)
Record Database := {
  tables : Store;
  search_queries : list SearchQueryRow
}.

Section CompanyService.

(** What the service relies on from outside: the reading of a datetime text
    by the models ([None]: the text is refused), the order [ORDER BY
    company_name] puts rows in, the operator [text LIKE pattern] of the
    store, and the rows [companies_fts MATCH ?] selects for a query ([None]:
    the query is not a MATCH expression and the statement fails). *)
Variable validate_datetime : string -> option datetime.
Variable order_by_company_name : list CompanyRow -> list CompanyRow.
Variable like : string -> string -> bool.
Variable fts_match : string -> option (CompanyRow -> bool).

Definition optional_datetime (field : string) (o : option string)
    : result (option datetime) :=
  match o with
  | None => Ok None
  | Some s =>
      match validate_datetime s with
      | Some d => Ok (Some d)
      | None => Raise (ValidationError field)
      end
  end.

Definition required_datetime (field : string) (o : option string) : result datetime :=
  match o with
  | Some s =>
      match validate_datetime s with
      | Some d => Ok d
      | None => Raise (ValidationError field)
      end
  | None => Raise (ValidationError field)
  end.

(** [Company(id=row[0], ..., is_active=row[10])], with the constraints of
    [CompanyBase]. *)
Definition new_Company (row : CompanyRow) : result Company :=
  do _ <- (if (1 <=? String.length (row_company_name row))%nat then Ok tt
           else Raise (ValidationError "company_name"));
  do _ <- max_length 255 "company_name" (Some (row_company_name row));
  do _ <- max_length 100 "owner" (row_owner row);
  do _ <- max_length 5000 "company_desc" (row_company_desc row);
  do _ <- max_length 500 "address" (row_address row);
  do ct <- optional_datetime "create_time" (row_create_time row);
  do ut <- optional_datetime "update_time" (row_update_time row);
  do _ <- max_length 50 "code" (row_code row);
  do _ <- max_length 100 "uuid" (row_uuid row);
  do synced <- required_datetime "last_sync_at" (row_last_sync_at row);
  Ok {| co_id := row_id row; co_company_name := row_company_name row;
        co_owner := row_owner row; co_company_desc := row_company_desc row;
        co_address := row_address row; co_create_time := ct; co_update_time := ut;
        co_code := row_code row; co_uuid := row_uuid row;
        co_last_sync_at := synced; co_is_active := row_is_active row |}.

(** [CompanyService._company_to_response] *)
Definition _company_to_response (company : Company) : CompanyResponse :=
  {| cr_id := co_id company; cr_company_name := co_company_name company;
     cr_owner := co_owner company; cr_address := co_address company;
     cr_update_time := co_update_time company |}.



(** [column LIKE ?] on a column that may hold NULL. *)
Definition like_nullable (column : option string) (pattern : string) : bool :=
  match column with
  | Some text => like text pattern
  | None => false
  end.

(** [CompanyService._count_companies]; [conn] stands for table
    [companies] as the connection shows it. A statement that fails surfaces
    from the connection as a [DatabaseException]. *)
Definition _count_companies (conn : list CompanyRow) (query search_type : string)
    : result Z :=
  if String.eqb query "" then
    Ok (Z.of_nat (length (List.filter (fun r => row_is_active r) conn)))
  else if String.eqb search_type "fts" then
    match fts_match query with
    | Some matches =>
        Ok (Z.of_nat (length (remove_dups
              (map row_id (List.filter (fun r => matches r && row_is_active r) conn)))))
    | None => Raise (DatabaseException "Database operation failed" None)
    end
  else
    let pattern := "%" +:+ query +:+ "%" in
    Ok (Z.of_nat (length (List.filter
          (fun r => row_is_active r
                    && (like (row_company_name r) pattern
                        || like_nullable (row_owner r) pattern
                        || like_nullable (row_address r) pattern)) conn))).

(** [LIMIT ? OFFSET ?]: a negative limit is no limit, a negative offset is
    none. *)
Definition limit_offset {A} (limit offset : Z) (l : list A) : list A :=
  let rest := drop (Z.to_nat offset) l in
  if limit <? 0 then rest else take (Z.to_nat limit) rest.

(** The list comprehension [Company(...) for row in rows]. *)
Fixpoint companies_of_rows (rows : list CompanyRow) : result (list Company) :=
  match rows with
  | [] => Ok []
  | row :: rest =>
      do company <- new_Company row;
      do others <- companies_of_rows rest;
      Ok (company :: others)
  end.

(** [CompanyService._search_companies] *)
Definition _search_companies (conn : list CompanyRow) (query search_type : string)
    (page page_size : Z) : result (list Company) :=
  let offset := (page - 1) * page_size in
  do rows <-
    (if String.eqb query "" then
       Ok (limit_offset page_size offset
             (order_by_company_name (List.filter (fun r => row_is_active r) conn)))
     else if String.eqb search_type "fts" then
       match fts_match query with
       | Some matches =>
           Ok (limit_offset page_size offset
                 (order_by_company_name
                    (remove_dups
                       (List.filter (fun r => matches r && row_is_active r) conn))))
       | None => Raise (DatabaseException "Database operation failed" None)
       end
     else
       let pattern := "%" +:+ query +:+ "%" in
       Ok (limit_offset page_size offset
             (order_by_company_name
                (List.filter
                   (fun r => row_is_active r
                             && (like (row_company_name r) pattern
                                 || like_nullable (row_owner r) pattern
                                 || like_nullable (row_address r) pattern)) conn))));
  companies_of_rows rows.

(** [CompanyService._log_search_query]: one more row in table
    [search_queries], stamped by the store. *)
Definition _log_search_query (now : datetime) (query : string) (result_count : Z)
    (db : Database) : Database :=
  {| tables := tables db;
     search_queries :=
       search_queries db
       ++ [{| sq_id := 1 + foldr (fun r m => Z.max (sq_id r) m) 0 (search_queries db);
              sq_query := query; sq_timestamp := now;
              sq_result_count := result_count;
              sq_user_agent := Some "web-interface" |}] |}.

(** [CompanyService.get_companies] *)
Definition get_companies (now : datetime) (query : string) (page page_size : Z)
    (search_type : string) (db : Database) : Database * result SearchResult :=
  if page <? 1 then (db, Raise (ValueError "Page must be >= 1"))
  else if (page_size <? 1) || (200 <? page_size)
  then (db, Raise (ValueError "Page size must be between 1 and 200"))
  else if negb (String.eqb search_type "auto" || String.eqb search_type "fts"
                || String.eqb search_type "like")
  then (db, Raise (ValueError "Search type must be 'auto', 'fts', or 'like'"))
  else
    match
      (do total_count <- _count_companies (companies (tables db)) query search_type;
       do found <- _search_companies (companies (tables db)) query search_type
                     page page_size;
       Ok (total_count, found))
    with
    | Ok (total_count, found) =>
        let db' := if String.eqb query "" then db
                   else _log_search_query now query (Z.of_nat (length found)) db in
        let total_pages := if 0 <? total_count
                           then (total_count + page_size - 1) / page_size else 0 in
        (db', Ok {| sr_companies := map _company_to_response found;
                    sr_total_count := total_count;
                    sr_page := page; sr_page_size := page_size;
                    sr_total_pages := total_pages;
                    sr_query := query; sr_search_type := search_type;
                    sr_processing_time_ms := 0 |})
    | Raise _ => (db, Raise (DatabaseException "Failed to get companies" None))
    end.

End CompanyService.

(** The order of a byte-wise comparison of the names, by a stable merge
    sort; used to run the listing on concrete tables. *)
Definition name_leb (r1 r2 : CompanyRow) : Prop :=
  String.leb (row_company_name r1) (row_company_name r2) = true.

#[global] Instance name_leb_dec : RelDecision name_leb.
Proof. intros r1 r2. unfold name_leb. apply _. Defined.

Definition sorted_by_name (rows : list CompanyRow) : list CompanyRow :=
  merge_sort name_leb rows.

(** The rows a listing is about: the active rows the query selects, before
    they are ordered and cut into pages; [None] when the query is not a
    MATCH expression. *)
Definition selection (like : string -> string -> bool)
    (fts_match : string -> option (CompanyRow -> bool))
    (conn : list CompanyRow) (query search_type : string) : option (list CompanyRow) :=
  if String.eqb query "" then Some (List.filter (fun r => row_is_active r) conn)
  else if String.eqb search_type "fts" then
    match fts_match query with
    | Some matches => Some (List.filter (fun r => matches r && row_is_active r) conn)
    | None => None
    end
  else
    let pattern := "%" +:+ query +:+ "%" in
    Some (List.filter
            (fun r => row_is_active r
                      && (like (row_company_name r) pattern
                          || like_nullable like (row_owner r) pattern
                          || like_nullable like (row_address r) pattern)) conn).

(** A reference [LIKE] operator, used to run searches on concrete tables:
    [%] stands for any run of characters, [_] for any one character, and
    ASCII letters match without regard to case. *)
Definition fold_case (c : ascii) : ascii :=
  let n := nat_of_ascii c in
  if (65 <=? n)%nat && (n <=? 90)%nat then ascii_of_nat (n + 32) else c.

Fixpoint like_chars (pattern text : list ascii) : bool :=
  match pattern with
  | [] => match text with [] => true | _ => false end
  | p :: rest =>
      if Ascii.eqb p "%" then
        (fix any (t : list ascii) : bool :=
           like_chars rest t || match t with [] => false | _ :: t' => any t' end) text
      else
        match text with
        | [] => false
        | c :: t =>
            (Ascii.eqb p "_" || Ascii.eqb (fold_case p) (fold_case c))
            && like_chars rest t
        end
  end.

Definition reference_like (text pattern : string) : bool :=
  like_chars (list_ascii_of_string pattern) (list_ascii_of_string text).

(** The store of the scenario as the company service sees it, no search
    logged yet, and a table of three companies with names of their own. *)
Definition scenario_database : Database :=
  {| tables := scenario_store; search_queries := [] |}.

Definition named_row (key : Z) (name : string) (active : bool) : CompanyRow :=
  {| row_id := key; row_company_name := name; row_owner := Some "Owner";
     row_company_desc := None; row_address := Some "Address";
     row_create_time := Some "2023-01-01 00:00:00";
     row_update_time := Some "2023-01-02 00:00:00";
     row_code := None; row_uuid := None;
     row_last_sync_at := Some "2023-01-03 00:00:00"; row_is_active := active |}.

Definition small_database : Database :=
  {| tables := {| companies := [named_row 1 "Test Company 1" true;
                                named_row 2 "Technology Company" true;
                                named_row 3 "Closed Company" false;
                                named_row 4 "Another Company" true];
                  sync_logs := [] |};
     search_queries := [] |}.

(** [SearchResult.create_empty] *)
Definition create_empty (query : string) (page page_size : Z) : SearchResult :=
  {| sr_companies := []; sr_total_count := 0; sr_page := page;
     sr_page_size := page_size; sr_total_pages := 0; sr_query := query;
     sr_search_type := "auto"; sr_processing_time_ms := 0 |}.

(** A run started, cancelled while its task is in [perform_sync], and a
    second run started; then the task of the first run goes on to its
    end. *)
Definition restarted_course : list Event :=
  [CallStart t0; Resume 0 t0 scenario_env; Resume 0 t0 scenario_env;
   CallCancel t1; Resume 1 t1 scenario_env;
   CallStart t1; Resume 1 t1 scenario_env;
   Resume 0 t1 scenario_env; Resume 1 t1 scenario_env].

(** * Properties *)

(** ** Generic facts about results *)

Lemma truthy_true (o : option string) :
  truthy o = true <-> exists s, o = Some s /\ s <> "".
Proof.
  destruct o as [s|]; simpl.
  - rewrite negb_true_iff. split.
    + intros H. exists s. split; [done|]. by apply String.eqb_neq.
    + intros (s' & [= <-] & Hne). by apply String.eqb_neq.
  - split; [done|]. by intros (s & ? & _).
Qed.

Lemma truthy_false (o : option string) :
  truthy o = false <-> o = None \/ o = Some "".
Proof.
  destruct o as [s|]; simpl.
  - rewrite negb_false_iff, String.eqb_eq. split; [intros ->; by right|].
    by intros [|[= ->]].
  - split; [by left|done].
Qed.

(** ** The staleness check *)

Section Staleness.

Variable fromisoformat : string -> option datetime.

Ltac stamps_cases external existing :=
  unfold _needs_update, parse_if_truthy, datetime_fromisoformat;
  destruct (ext_update_time external) as [s1|];
    destruct (row_update_time existing) as [s2|]; simpl;
  try destruct (String.eqb s1 "") eqn:?;
  try destruct (String.eqb s2 "") eqn:?; simpl;
  repeat match goal with
         | H : String.eqb _ _ = true |- _ => apply String.eqb_eq in H
         | H : String.eqb _ _ = false |- _ => apply String.eqb_neq in H
         end;
  try destruct (fromisoformat s1) as [d1|] eqn:Hd1; simpl;
  try destruct (fromisoformat s2) as [d2|] eqn:Hd2; simpl.

Ltac no_such_stamps :=
  let H := fresh in
  intros (? & ? & ? & ? & ? & ? & ? & ? & ? & ? & H); simplify_eq; try done;
  try (rewrite H in *; simplify_eq; done).

(** [_needs_update] answers [False] exactly when both stamps are present,
    both are read, and the comparison of the two values answers [True]. *)
Lemma needs_update_false_iff (existing : CompanyRow) (internal : CompanyCreate)
    (external : ExternalCompany) :
  _needs_update fromisoformat existing internal external = Ok false <->
  exists s1 s2 d1 d2,
    ext_update_time external = Some s1 /\ s1 <> "" /\
    row_update_time existing = Some s2 /\ s2 <> "" /\
    fromisoformat s1 = Some d1 /\ fromisoformat s2 = Some d2 /\
    datetime_le d1 d2 = Ok true.
Proof.
  stamps_cases external existing; try (split; [done|no_such_stamps]).
  destruct (datetime_le d1 d2) as [[|]|e] eqn:Hle; simpl.
  - split; [|done]. intros _. by exists s1, s2, d1, d2.
  - split; [done|no_such_stamps].
  - split; [by destruct e|no_such_stamps].
Qed.

(** A stamp missing on either side, or one that is not read, makes
    [_needs_update] answer [True]. *)
Lemma needs_update_undetermined (existing : CompanyRow) (internal : CompanyCreate)
    (external : ExternalCompany) :
  truthy (ext_update_time external) = false \/
  truthy (row_update_time existing) = false \/
  (exists s, ext_update_time external = Some s /\ fromisoformat s = None) \/
  (exists s, row_update_time existing = Some s /\ fromisoformat s = None) ->
  _needs_update fromisoformat existing internal external = Ok true.
Proof.
  intros H. revert H.
  stamps_cases external existing; try done;
    intros [H|[H|[(s & Hs & Hp)|(s & Hs & Hp)]]]; simplify_eq; try done.
  all: try (apply negb_false_iff, String.eqb_eq in H; done).
Qed.

(** [_needs_update] raises exactly when both stamps are present and read
    and their comparison raises: one value naive, the other aware. *)
Lemma needs_update_raises_iff (existing : CompanyRow) (internal : CompanyCreate)
    (external : ExternalCompany) (e : exn) :
  _needs_update fromisoformat existing internal external = Raise e <->
  exists s1 s2 d1 d2,
    ext_update_time external = Some s1 /\ s1 <> "" /\
    row_update_time existing = Some s2 /\ s2 <> "" /\
    fromisoformat s1 = Some d1 /\ fromisoformat s2 = Some d2 /\
    datetime_le d1 d2 = Raise e.
Proof.
  stamps_cases external existing; try (split; [done|no_such_stamps]).
  destruct (datetime_le d1 d2) as [[|]|e'] eqn:Hle; simpl.
  - split; [done|no_such_stamps].
  - split; [done|no_such_stamps].
  - assert (exists msg, e' = TypeError msg) as [msg ->].
    { unfold datetime_le in Hle. repeat case_match; simplify_eq; by eexists. }
    simpl. split.
    + intros [= <-]. by exists s1, s2, d1, d2.
    + no_such_stamps.
Qed.

End Staleness.

(** C5. [_needs_update] is meant to answer [True] whenever the stamps do
    not settle the question, but it only handles [ValueError]: with an
    existing row stamped without an offset and an incoming record stamped
    with one, both stamps are present and read, and the call raises
    [TypeError] instead of returning. *)
Theorem needs_update_mixed_offsets_raises :
  _needs_update iso_parse
    (sample_row 1 (Some "2024-01-01 00:00:00")) sample_internal
    (sample_company 1 (Some "2024-01-01T00:00:00+00:00"))
  = Raise (TypeError "can't compare offset-naive and offset-aware datetimes").
Proof. vm_compute. reflexivity. Qed.

(** ** The retry loop of [_request] *)

Section Retry.

Variable settings : Settings.
Variable send : nat -> attempt_outcome.

(** An attempt the loop goes on after: the loop continues with the kept
    exception, after the request and (unless it was the last attempt) the
    wait. *)
Lemma request_loop_retried (attempt : nat) (rest : list nat) (last : option exn)
    (e : exn) :
  retried (send attempt) = Some e ->
  request_loop settings send (attempt :: rest) last =
    (fst (request_loop settings send rest (Some e)),
     Sent attempt :: wait_before_retry settings attempt
       ++ snd (request_loop settings send rest (Some e))).
Proof.
  intros H. simpl. unfold retried in H.
  destruct (send attempt) as [c text body|cause].
  - destruct (is_success c); [done|]. simpl in H.
    destruct ((400 <=? c) && (c <? 500)); [done|]. simplify_eq.
    by destruct (request_loop _ _ rest _).
  - simplify_eq. by destruct (request_loop _ _ rest _).
Qed.

(** [k] attempts in a row, from attempt [a] on, each followed by a retry
    and none of them the last one. *)
Lemma request_loop_backoff (k : nat) : forall (a : nat) (rest : list nat) (last : option exn),
  (forall i, (a <= i < a + k)%nat -> retried (send i) <> None) ->
  Z.of_nat (a + k) <= sync_retry_attempts settings ->
  exists last',
    (k = 0%nat -> last' = last) /\
    (forall k', k = S k' -> last' = retried (send (a + k'))) /\
    request_loop settings send (seq a k ++ rest) last =
      (fst (request_loop settings send rest last'),
       flat_map (fun i => [Sent i; Slept (backoff_delay settings i)]) (seq a k)
         ++ snd (request_loop settings send rest last')).
Proof.
  induction k as [|k IH]; intros a rest last Hall Hle.
  - exists last. repeat split; [done|]. simpl. by destruct (request_loop _ _ rest last).
  - destruct (retried (send a)) as [e|] eqn:He.
    2: { exfalso. apply (Hall a); [lia|done]. }
    destruct (IH (S a) rest (Some e)) as (last' & H0 & HS & Heq).
    { intros i Hi. apply Hall. lia. }
    { lia. }
    exists last'. split; [done|]. split.
    + intros k' [= <-]. destruct k as [|k''].
      * rewrite (H0 eq_refl). by replace (a + 0)%nat with a by lia.
      * rewrite (HS k'' eq_refl). f_equal. f_equal. lia.
    + cbn [seq app]. rewrite (request_loop_retried a _ last e He).
      rewrite Heq. cbn [fst snd flat_map app]. f_equal.
      unfold wait_before_retry.
      replace (Z.of_nat a <? sync_retry_attempts settings) with true; [done|].
      symmetry. apply Z.ltb_lt. lia.
Qed.

(** The attempts of [_request], cut at attempt [k]. *)
Lemma range_split (k : nat) :
  Z.of_nat k <= sync_retry_attempts settings ->
  range (sync_retry_attempts settings + 1) =
    seq 0 k ++ k :: seq (S k) (Z.to_nat (sync_retry_attempts settings) - k).
Proof.
  intros Hk. unfold range.
  replace (Z.to_nat (sync_retry_attempts settings + 1))
    with (k + S (Z.to_nat (sync_retry_attempts settings) - k))%nat by lia.
  by rewrite seq_app.
Qed.

(** [_request] when the first [k] attempts are each followed by a retry:
    the outcome is that of the loop from attempt [k] on. *)
Lemma request_after_retries (k : nat) :
  Z.of_nat k <= sync_retry_attempts settings ->
  (forall i, (i < k)%nat -> retried (send i) <> None) ->
  exists last,
    (forall k', k = S k' -> last = retried (send k')) /\
    _request settings send =
      (fst (request_loop settings send
              (k :: seq (S k) (Z.to_nat (sync_retry_attempts settings) - k)) last),
       backoff_trace settings k
         ++ snd (request_loop settings send
              (k :: seq (S k) (Z.to_nat (sync_retry_attempts settings) - k)) last)).
Proof.
  intros Hk Hall. unfold _request. rewrite (range_split k Hk).
  destruct (request_loop_backoff k 0 (k :: seq (S k) (Z.to_nat (sync_retry_attempts settings) - k)) None)
    as (last & _ & HS & Heq).
  { intros i Hi. apply Hall. lia. }
  { lia. }
  exists last. split; [|done].
  intros k' Hk'. by rewrite (HS k' Hk').
Qed.

End Retry.

(** C6. The retry policy of [_request]. After [k] attempts that each ended
    in a network failure or a response that is neither 2xx nor 4xx, with [k]
    within the configured count, the requests and waits so far are
    [Sent 0; Slept (base * 2^0); ...; Sent (k-1); Slept (base * 2^(k-1))],
    and attempt [k] decides: a 4xx response raises the client error at once,
    nothing being sent or waited for after it; a 2xx response returns its
    body; a further failure at the last attempt ([k] equal to the count)
    raises that last error without a wait. Hence two 503 responses followed
    by a success return the body after exactly the two waits [base * 2^0]
    and [base * 2^1]. *)
Theorem request_retry_policy (settings : Settings) (send : nat -> attempt_outcome)
    (k : nat) :
  Z.of_nat k <= sync_retry_attempts settings ->
  (forall i, (i < k)%nat -> retried (send i) <> None) ->
  (forall i, backoff_delay settings i
             = (sync_retry_delay settings * inject_Z (2 ^ Z.of_nat i))%Q) /\
  (forall c text body, send k = Response c text body -> 400 <= c < 500 ->
     _request settings send =
       (Raise (APIException (HttpError c text) (Some c)),
        backoff_trace settings k ++ [Sent k])) /\
  (forall c text j, send k = Response c text (Some j) -> is_success c = true ->
     _request settings send = (Ok j, backoff_trace settings k ++ [Sent k])) /\
  (forall e, Z.of_nat k = sync_retry_attempts settings ->
     retried (send k) = Some e ->
     _request settings send = (Raise e, backoff_trace settings k ++ [Sent k])) /\
  (forall text0 b0 text1 b1 c j, k = 2%nat ->
     send 0%nat = Response 503 text0 b0 -> send 1%nat = Response 503 text1 b1 ->
     send 2%nat = Response c "" (Some j) -> is_success c = true ->
     _request settings send =
       (Ok j, [Sent 0; Slept (sync_retry_delay settings * inject_Z (2 ^ 0))%Q;
               Sent 1; Slept (sync_retry_delay settings * inject_Z (2 ^ 1))%Q;
               Sent 2])).
Proof.
  intros Hk Hall.
  destruct (request_after_retries settings send k Hk Hall) as (last & _ & Heq).
  assert (forall c text j, send k = Response c text (Some j) -> is_success c = true ->
     _request settings send = (Ok j, backoff_trace settings k ++ [Sent k])) as Hsuccess.
  { intros c text j Hs Hc. rewrite Heq. simpl. by rewrite Hs, Hc. }
  split; [done|]. split; [|split; [done|split]].
  - intros c text body Hs [Hlo Hhi]. rewrite Heq. simpl. rewrite Hs.
    assert (is_success c = false) as ->.
    { unfold is_success. apply andb_false_iff. right. apply Z.ltb_ge. lia. }
    assert ((400 <=? c) && (c <? 500) = true) as ->; [|done].
    apply andb_true_iff. split; [apply Z.leb_le|apply Z.ltb_lt]; lia.
  - intros e Hlast He. rewrite Heq.
    replace (Z.to_nat (sync_retry_attempts settings) - k)%nat with 0%nat by lia.
    cbn [seq]. rewrite (request_loop_retried settings send k [] last e He).
    cbn [request_loop fst snd]. unfold wait_before_retry.
    replace (Z.of_nat k <? sync_retry_attempts settings) with false; [done|].
    symmetry. apply Z.ltb_ge. lia.
  - intros text0 b0 text1 b1 c j -> _ _ Hs Hc. by rewrite (Hsuccess c "" j Hs Hc).
Qed.

(** The scenario of the claim at the default settings. *)
Lemma request_retry_policy_witness :
  let send := fun attempt =>
    match attempt with
    | 0%nat | 1%nat => Response 503 "Service Unavailable" None
    | _ => Response 200 "" (Some OtherJson)
    end in
  Z.of_nat 2 <= sync_retry_attempts default_settings /\
  (forall i, (i < 2)%nat -> retried (send i) <> None) /\
  _request default_settings send =
    (Ok OtherJson, [Sent 0; Slept (1 * inject_Z (2 ^ 0))%Q;
                    Sent 1; Slept (1 * inject_Z (2 ^ 1))%Q; Sent 2]).
Proof.
  intros send.
  assert (Z.of_nat 2 <= sync_retry_attempts default_settings) as H1 by (simpl; lia).
  assert (forall i, (i < 2)%nat -> retried (send i) <> None) as H2.
  { intros [|[|i]] Hi; simpl; try done. lia. }
  split; [done|]. split; [done|].
  apply (request_retry_policy default_settings send 2 H1 H2)
    with (text0 := "Service Unavailable") (b0 := None)
         (text1 := "Service Unavailable") (b1 := None) (c := 200); reflexivity.
Defined.

(** ** Page order of [get_all_companies] *)

Lemma omap_Some {A} (l : list A) : omap (fun slot => slot) (map Some l) = l.
Proof. induction l as [|a l IH]; [done|]. cbn. by f_equal. Qed.

Section Gather.

Context {A : Type}.
Variable values : list A.

Lemma gather_run_all_ok (completion : list nat) : forall slots,
  slots_agree values slots ->
  exists slots',
    gather_run (map Ok values) completion slots = Ok slots' /\
    slots_agree values slots' /\
    (forall i, (i < length values)%nat ->
       (i ∈ completion \/ is_Some (default None (slots !! i))) ->
       is_Some (default None (slots' !! i))).
Proof.
  induction completion as [|i rest IH]; intros slots [Hlen Hag].
  - exists slots. simpl. repeat split; try done.
    intros i _ [Hin|H]; [by apply elem_of_nil in Hin|done].
  - simpl. rewrite list_lookup_fmap.
    destruct (values !! i) as [a|] eqn:Hv; simpl.
    + destruct (IH (<[i := Some a]> slots)) as (slots' & Hrun & Hag' & Hfill).
      { split; [by rewrite length_insert|].
        intros j b Hj. destruct (decide (i = j)) as [<-|Hne].
        - rewrite list_lookup_insert_eq in Hj; [by simplify_eq|].
          rewrite Hlen. by eapply lookup_lt_Some.
        - rewrite list_lookup_insert_ne in Hj by done. by apply Hag. }
      exists slots'. repeat split; try done; try apply Hag'.
      intros j Hj H. apply Hfill; [done|].
      destruct (decide (i = j)) as [<-|Hne].
      * right. rewrite list_lookup_insert_eq; [done|].
        rewrite Hlen. by eapply lookup_lt_Some.
      * rewrite list_lookup_insert_ne by done.
        destruct H as [H|H]; [|by right].
        apply elem_of_cons in H as [->|H]; [done|by left].
    + destruct (IH slots) as (slots' & Hrun & Hag' & Hfill); [done|].
      exists slots'. repeat split; try done; try apply Hag'.
      intros j Hj H. apply Hfill; [done|].
      destruct H as [H|H]; [|by right].
      apply elem_of_cons in H as [->|H]; [|by left].
      apply lookup_lt_is_Some_2 in Hj. rewrite Hv in Hj. by destruct Hj.
Qed.

Lemma full_slots (slots : list (option A)) :
  slots_agree values slots ->
  (forall i, (i < length values)%nat -> is_Some (default None (slots !! i))) ->
  slots = map Some values.
Proof.
  intros [Hlen Hag] Hfull. apply list_eq. intros i.
  rewrite list_lookup_fmap.
  destruct (values !! i) as [a|] eqn:Hv; simpl.
  - assert (i < length values)%nat as Hi by by eapply lookup_lt_Some.
    specialize (Hfull i Hi).
    destruct (slots !! i) as [[b|]|] eqn:Hs; simpl in Hfull.
    + apply Hag in Hs. congruence.
    + by destruct Hfull.
    + by destruct Hfull.
  - apply lookup_ge_None. rewrite Hlen. by apply lookup_ge_None.
Qed.

(** When every awaitable ends with a value, [gather] returns the values by
    position, whatever the order of completion. *)
Lemma gather_all_ok (completion : list nat) :
  gather (map Ok values) completion = Ok values.
Proof.
  unfold gather. rewrite length_map.
  destruct (gather_run_all_ok (completion ++ seq 0 (length values))
              (replicate (length values) None)) as (slots' & -> & Hag & Hfill).
  { split; [by rewrite length_replicate|].
    intros i a Hi. apply lookup_replicate in Hi as [? _]. done. }
  simpl. f_equal.
  rewrite (full_slots slots' Hag).
  - apply omap_Some.
  - intros i Hi. apply Hfill; [done|]. left.
    apply elem_of_app. right. apply elem_of_seq. lia.
Qed.

End Gather.

(** C7. When the count of pages is learnt and every page fetch succeeds,
    [get_all_companies] returns, for every order in which the fetches
    finish, the rows of the pages concatenated by ascending page number. *)
Theorem get_all_companies_page_order (settings : Settings) (src : source)
    (page_size pages : Z) (page : Z -> ExternalData) (completion : list nat) :
  get_total_pages settings src page_size = Ok pages ->
  (forall page_num, 1 <= page_num <= pages ->
     get_companies_page settings src page_num page_size = Ok (page page_num)) ->
  get_all_companies settings src completion page_size =
    Ok (concat (map (fun page_num => rows (page page_num)) (page_numbers pages))).
Proof.
  intros Hpages Hfetch. unfold get_all_companies. rewrite Hpages. simpl.
  assert (map (fun page_num =>
                 do page_data <- get_companies_page settings src page_num page_size;
                 Ok (rows page_data)) (page_numbers pages)
          = map Ok (map (fun page_num => rows (page page_num)) (page_numbers pages)))
    as ->.
  { rewrite map_map. apply map_ext_in. intros p Hp.
    unfold page_numbers in Hp. apply in_map_iff in Hp as (k & <- & Hk).
    apply in_seq in Hk. rewrite Hfetch; [done|lia]. }
  by rewrite gather_all_ok.
Qed.

(** Three pages of two records each, the third page finishing first. *)
Lemma get_all_companies_page_order_witness :
  let records := map (fun k => sample_company (Z.of_nat k) None) (seq 1 6) in
  let src := paged_source records in
  let page := fun page_num =>
    {| total_page := 3; total := 6;
       rows := take 2 (drop (Z.to_nat ((page_num - 1) * 2)) records) |} in
  get_total_pages default_settings src 2 = Ok 3 /\
  (forall page_num, 1 <= page_num <= 3 ->
     get_companies_page default_settings src page_num 2 = Ok (page page_num)) /\
  get_all_companies default_settings src [2%nat; 0%nat; 1%nat] 2 = Ok records.
Proof.
  intros records src page.
  assert (get_total_pages default_settings src 2 = Ok 3) as H1 by reflexivity.
  assert (forall page_num, 1 <= page_num <= 3 ->
     get_companies_page default_settings src page_num 2 = Ok (page page_num)) as H2.
  { intros p Hp.
    assert (p = 1 \/ p = 2 \/ p = 3) as [->|[->| ->]] by lia; reflexivity. }
  split; [done|]. split; [done|].
  exact (get_all_companies_page_order default_settings src 2 3 page
           [2%nat; 0%nat; 1%nat] H1 H2).
Defined.

(** ** The table of runs *)

Lemma find_log_id (sync_log_id : Z) (logs : list SyncLog) (r : SyncLog) :
  find_log sync_log_id logs = Some r -> log_id r = sync_log_id.
Proof.
  unfold find_log. intros H. apply find_some in H as [_ H]. by apply Z.eqb_eq.
Qed.

Lemma find_log_update_eq (sync_log_id : Z) (status : sync_status)
    (u : SyncLogUpdate) (logs : list SyncLog) :
  find_log sync_log_id (update_logs sync_log_id status u logs)
  = apply_update status u <$> find_log sync_log_id logs.
Proof.
  unfold find_log, update_logs.
  induction logs as [|r logs IH]; [done|]. simpl.
  destruct (log_id r =? sync_log_id) eqn:E; simpl.
  - by rewrite E.
  - by rewrite E.
Qed.

Lemma find_log_update_ne (other sync_log_id : Z) (status : sync_status)
    (u : SyncLogUpdate) (logs : list SyncLog) :
  other <> sync_log_id ->
  find_log other (update_logs sync_log_id status u logs) = find_log other logs.
Proof.
  intros Hne. unfold find_log, update_logs.
  induction logs as [|r logs IH]; [done|]. simpl.
  destruct (log_id r =? sync_log_id) eqn:E; simpl.
  - apply Z.eqb_eq in E.
    assert ((log_id r =? other) = false) as -> by (apply Z.eqb_neq; lia). done.
  - by rewrite IH.
Qed.

Lemma max_log_id_update (sync_log_id : Z) (status : sync_status)
    (u : SyncLogUpdate) (logs : list SyncLog) :
  max_log_id (update_logs sync_log_id status u logs) = max_log_id logs.
Proof.
  unfold max_log_id, update_logs.
  induction logs as [|r logs IH]; [done|]. simpl. rewrite IH.
  by destruct (log_id r =? sync_log_id).
Qed.

Lemma max_log_id_app (logs : list SyncLog) (r : SyncLog) :
  max_log_id (logs ++ [r]) = Z.max (max_log_id logs) (log_id r).
Proof.
  unfold max_log_id. induction logs as [|r' logs IH]; simpl; [lia|].
  rewrite IH. lia.
Qed.

Lemma max_log_id_nonneg (logs : list SyncLog) : 0 <= max_log_id logs.
Proof. unfold max_log_id. induction logs; simpl; lia. Qed.

Lemma find_log_bound (sync_log_id : Z) (logs : list SyncLog) (r : SyncLog) :
  find_log sync_log_id logs = Some r -> sync_log_id <= max_log_id logs.
Proof.
  unfold find_log, max_log_id.
  induction logs as [|r' logs IH]; [done|]. simpl.
  destruct (log_id r' =? sync_log_id) eqn:E.
  - apply Z.eqb_eq in E. lia.
  - intros H. specialize (IH H). lia.
Qed.

Lemma find_log_fresh (sync_log_id : Z) (logs : list SyncLog) :
  max_log_id logs < sync_log_id -> find_log sync_log_id logs = None.
Proof.
  intros H. destruct (find_log sync_log_id logs) as [r|] eqn:E; [|done].
  apply find_log_bound in E. lia.
Qed.

Lemma find_log_app (sync_log_id : Z) (logs : list SyncLog) (r : SyncLog) :
  log_id r <> sync_log_id ->
  find_log sync_log_id (logs ++ [r]) = find_log sync_log_id logs.
Proof.
  intros Hne. unfold find_log.
  induction logs as [|r' logs IH]; simpl.
  - by assert ((log_id r =? sync_log_id) = false) as -> by by apply Z.eqb_neq.
  - by destruct (log_id r' =? sync_log_id).
Qed.

(** ** The heap of state objects *)

Lemma deref_running_allocated (h : list SyncState) (l : nat) :
  is_running (deref h l) = true -> (l < length h)%nat.
Proof.
  unfold deref. intros H. destruct (h !! l) eqn:E; [|done].
  by eapply lookup_lt_Some.
Qed.

Lemma deref_insert_eq (h : list SyncState) (l : nat) (s : SyncState) :
  (l < length h)%nat -> deref (<[l := s]> h) l = s.
Proof. intros H. unfold deref. by rewrite list_lookup_insert_eq. Qed.

Lemma deref_insert_ne (h : list SyncState) (l l' : nat) (s : SyncState) :
  l <> l' -> deref (<[l := s]> h) l' = deref h l'.
Proof. intros H. unfold deref. by rewrite list_lookup_insert_ne. Qed.

Lemma deref_new (h : list SyncState) (s : SyncState) :
  deref (h ++ [s]) (length h) = s.
Proof.
  unfold deref. rewrite lookup_app_r by lia.
  by replace (length h - length h)%nat with 0%nat by lia.
Qed.

Lemma deref_old (h : list SyncState) (s : SyncState) (l : nat) :
  (l < length h)%nat -> deref (h ++ [s]) l = deref h l.
Proof. intros H. unfold deref. by rewrite lookup_app_l. Qed.

(** After [state.is_running = False] the object is not running, whether or
    not the reference is allocated. *)
Lemma deref_cleared (h : list SyncState) (l : nat) :
  is_running (deref (<[l := set_is_running false (deref h l)]> h) l) = false.
Proof.
  destruct (decide (l < length h)%nat) as [H|H].
  - by rewrite deref_insert_eq.
  - rewrite list_insert_ge by lia. unfold deref.
    rewrite lookup_ge_None_2 by lia. done.
Qed.

(** ** The lifecycle, call by call *)

(** C3. [start_sync] raises the already-running condition when the flag of
    the global state is set, leaving the store and the state as they were;
    when the flag is clear it appends a row with a fresh id and status
    [running], makes the global state a running state with that id, zero
    page and record counts and the start time, and returns the new run.
    The part of the call after its await sets that state and returns the
    run whatever the process has become in between. *)
Theorem start_sync_contract (now : datetime) (w : World) :
  (is_running (deref (heap w) (_sync_state w)) = true ->
     start_sync now w =
       (w, Raise (SyncInProgressException "Synchronization is already in progress")))
  /\
  (is_running (deref (heap w) (_sync_state w)) = false ->
     exists sync_log w',
       start_sync now w = (w', Ok sync_log) /\
       log_status sync_log = running /\
       log_start_time sync_log = now /\
       find_log (log_id sync_log) (sync_logs (store w)) = None /\
       sync_logs (store w') = sync_logs (store w) ++ [sync_log] /\
       companies (store w') = companies (store w) /\
       deref (heap w') (_sync_state w') =
         {| is_running := true; current_sync_id := Some (log_id sync_log);
            current_page := 0; total_pages := 0; processed_records := 0;
            total_records := 0; start_time := Some now; last_update := None |})
  /\
  (forall later sync_log w1,
     exists w2,
       start_sync_end later sync_log w1 = (w2, Ok sync_log) /\
       store w2 = store w1 /\
       deref (heap w2) (_sync_state w2) =
         {| is_running := true; current_sync_id := Some (log_id sync_log);
            current_page := 0; total_pages := 0; processed_records := 0;
            total_records := 0; start_time := Some later; last_update := None |}).
Proof.
  split; [|split].
  - intros Hflag.
    unfold start_sync, start_sync_begin, and_then, get_sync_state, read_state.
    simpl. by rewrite Hflag.
  - intros Hflag.
    unfold start_sync, start_sync_begin, and_then, get_sync_state, read_state.
    simpl. rewrite Hflag. simpl.
    eexists _, _. split; [reflexivity|]. simpl.
    repeat split; try done.
    + apply find_log_fresh. lia.
    + apply deref_new.
  - intros later sync_log w1. eexists. split; [reflexivity|]. simpl.
    split; [done|]. apply deref_new.
Qed.

Lemma start_sync_contract_witness :
  is_running (deref (heap (initial_world scenario_store))
                    (_sync_state (initial_world scenario_store))) = false /\
  is_running (deref (heap scenario_started) (_sync_state scenario_started)) = true /\
  (exists sync_log w',
     start_sync t0 (initial_world scenario_store) = (w', Ok sync_log) /\
     log_id sync_log = 1 /\ log_status sync_log = running) /\
  start_sync t1 scenario_started =
    (scenario_started,
     Raise (SyncInProgressException "Synchronization is already in progress")).
Proof.
  assert (is_running (deref (heap (initial_world scenario_store))
            (_sync_state (initial_world scenario_store))) = false) as H1 by reflexivity.
  assert (is_running (deref (heap scenario_started) (_sync_state scenario_started))
          = true) as H2 by reflexivity.
  split; [done|]. split; [done|]. split.
  - destruct (proj1 (proj2 (start_sync_contract t0 (initial_world scenario_store))) H1)
      as (sync_log & w' & Heq & Hst & _).
    exists sync_log, w'. split; [done|]. split; [|done].
    assert (snd (start_sync t0 (initial_world scenario_store)) = Ok sync_log) as Hs
      by by rewrite Heq.
    vm_compute in Hs. by simplify_eq.
  - exact (proj1 (start_sync_contract t1 scenario_started) H2).
Defined.

(** What [cancel_sync] passes to [_update_sync_log]. *)
Lemma cancel_update_valid (now : datetime) :
  new_SyncLogUpdate
    {| upd_end_time := Some now; upd_status := Some cancelled;
       upd_total_records := None; upd_success_records := None;
       upd_failed_records := None; upd_error_message := None;
       upd_duration_ms := None |}
  = Ok {| upd_end_time := Some now; upd_status := Some cancelled;
          upd_total_records := None; upd_success_records := None;
          upd_failed_records := None; upd_error_message := None;
          upd_duration_ms := None |}.
Proof. reflexivity. Qed.

(** The rows [cancel_sync] leaves when the flag is set. *)
Lemma cancel_sync_running (now : datetime) (w : World) :
  is_running (deref (heap w) (_sync_state w)) = true ->
  cancel_sync now w =
    ({| store :=
          match truthy_id (current_sync_id (deref (heap w) (_sync_state w))) with
          | Some sync_id =>
              {| companies := companies (store w);
                 sync_logs :=
                   update_logs sync_id cancelled
                     {| upd_end_time := Some now; upd_status := Some cancelled;
                        upd_total_records := None; upd_success_records := None;
                        upd_failed_records := None; upd_error_message := None;
                        upd_duration_ms := None |}
                     (sync_logs (store w)) |}
          | None => store w
          end;
        heap := <[_sync_state w :=
                    set_is_running false (deref (heap w) (_sync_state w))]> (heap w);
        _sync_state := _sync_state w |},
     Ok true).
Proof.
  intros Hflag.
  unfold cancel_sync, cancel_sync_begin, cancel_sync_end, and_then,
    get_sync_state, read_state, write_state, set_sync_state, ret.
  simpl. rewrite Hflag. simpl.
  destruct (truthy_id (current_sync_id (deref (heap w) (_sync_state w)))) as [sync_id|];
    reflexivity.
Qed.

(** C8. [cancel_sync] returns [False] and changes nothing when no sync is
    running. When one is running it returns [True], clears the flag of the
    global state, so that a later [get_sync_progress] reports the idle
    snapshot with [is_running = False], and gives the row of the current
    run the end time and the status [cancelled]; the rows of other runs and
    the companies stay as they were. The part of the call after its await
    clears the flag and returns [True] whatever the process has become in
    between. *)
Theorem cancel_sync_contract (now : datetime) (w : World) :
  (is_running (deref (heap w) (_sync_state w)) = false ->
     cancel_sync now w = (w, Ok false))
  /\
  (is_running (deref (heap w) (_sync_state w)) = true ->
     exists w',
       cancel_sync now w = (w', Ok true) /\
       is_running (deref (heap w') (_sync_state w')) = false /\
       (forall later, get_sync_progress later w' = (w', Ok idle_progress)) /\
       p_is_running idle_progress = false /\
       companies (store w') = companies (store w) /\
       forall sync_id,
         truthy_id (current_sync_id (deref (heap w) (_sync_state w))) = Some sync_id ->
         (forall row, find_log sync_id (sync_logs (store w)) = Some row ->
            exists row',
              find_log sync_id (sync_logs (store w')) = Some row' /\
              log_end_time row' = Some now /\ log_status row' = cancelled) /\
         (forall other, other <> sync_id ->
            find_log other (sync_logs (store w')) = find_log other (sync_logs (store w))))
  /\
  (forall state w1,
     exists w2,
       cancel_sync_end state w1 = (w2, Ok true) /\
       store w2 = store w1 /\
       is_running (deref (heap w2) (_sync_state w2)) = false /\
       forall later, get_sync_progress later w2 = (w2, Ok idle_progress)).
Proof.
  split; [|split]; [intros Hflag|intros Hflag|].
  3: { intros state w1. eexists. split; [reflexivity|]. simpl.
       split; [done|]. split; [apply deref_cleared|].
       intros later. unfold get_sync_progress, and_then, get_sync_state, read_state.
       simpl. by rewrite deref_cleared. }
  - unfold cancel_sync, cancel_sync_begin, and_then, get_sync_state, read_state.
    simpl. by rewrite Hflag.
  - eexists. split; [by apply cancel_sync_running|]. simpl.
    split; [apply deref_cleared|].
    split.
    { intros later. unfold get_sync_progress, and_then, get_sync_state, read_state.
      simpl. by rewrite deref_cleared. }
    split; [done|]. split.
    { by destruct (truthy_id _). }
    intros sync_id ->. simpl. split.
    + intros row Hrow. rewrite find_log_update_eq, Hrow. simpl. by eexists.
    + intros other Hne. by apply find_log_update_ne.
Qed.

Lemma cancel_sync_contract_witness :
  is_running (deref (heap (initial_world scenario_store))
                    (_sync_state (initial_world scenario_store))) = false /\
  cancel_sync t1 (initial_world scenario_store)
    = (initial_world scenario_store, Ok false) /\
  is_running (deref (heap scenario_started) (_sync_state scenario_started)) = true /\
  snd (cancel_sync t1 scenario_started) = Ok true /\
  (log_status <$> find_log 1 (sync_logs (store (fst (cancel_sync t1 scenario_started)))))
    = Some cancelled.
Proof.
  assert (is_running (deref (heap (initial_world scenario_store))
            (_sync_state (initial_world scenario_store))) = false) as H1 by reflexivity.
  assert (is_running (deref (heap scenario_started) (_sync_state scenario_started))
          = true) as H2 by reflexivity.
  split; [done|]. split.
  { exact (proj1 (cancel_sync_contract t1 (initial_world scenario_store)) H1). }
  split; [done|].
  destruct (proj1 (proj2 (cancel_sync_contract t1 scenario_started)) H2)
    as (w' & Heq & _ & _ & _ & _ & Hrows).
  rewrite Heq. simpl. split; [done|].
  destruct (Hrows 1 eq_refl) as [Hrow _].
  destruct (Hrow _ eq_refl) as (row' & -> & _ & Hst). simpl. by rewrite Hst.
Defined.

(** C9. The write of a terminal row assigns all seven mutable columns from
    the update object, including the fields its maker left unset: the row
    keeps its id and start time only. In particular [cancel_sync] on a
    running sync leaves the run's row with the end time, status
    [cancelled], and NULL in [total_records], [success_records],
    [failed_records], [error_message] and [duration_ms], whatever these
    columns held. *)
Theorem update_sync_log_overwrites (w : World) (sync_log_id : Z) (row : SyncLog) :
  find_log sync_log_id (sync_logs (store w)) = Some row ->
  (forall update status, upd_status update = Some status ->
     snd (_update_sync_log sync_log_id update w) = Ok tt /\
     find_log sync_log_id (sync_logs (store (fst (_update_sync_log sync_log_id update w))))
     = Some {| log_id := log_id row;
               log_start_time := log_start_time row;
               log_end_time := upd_end_time update;
               log_status := status;
               log_total_records := upd_total_records update;
               log_success_records := upd_success_records update;
               log_failed_records := upd_failed_records update;
               log_error_message := upd_error_message update;
               log_duration_ms := upd_duration_ms update |})
  /\
  (forall now,
     is_running (deref (heap w) (_sync_state w)) = true ->
     truthy_id (current_sync_id (deref (heap w) (_sync_state w))) = Some sync_log_id ->
     find_log sync_log_id (sync_logs (store (fst (cancel_sync now w))))
     = Some {| log_id := log_id row;
               log_start_time := log_start_time row;
               log_end_time := Some now;
               log_status := cancelled;
               log_total_records := None;
               log_success_records := None;
               log_failed_records := None;
               log_error_message := None;
               log_duration_ms := None |}).
Proof.
  intros Hrow. split.
  - intros update status Hst.
    unfold _update_sync_log, and_then, read_store, write_store. rewrite Hst. simpl.
    split; [done|]. by rewrite find_log_update_eq, Hrow.
  - intros now Hflag Hid. rewrite (cancel_sync_running now w Hflag). simpl.
    rewrite Hid. simpl. by rewrite find_log_update_eq, Hrow.
Qed.

Lemma update_sync_log_overwrites_witness :
  let w := scenario_started in
  let row := {| log_id := 1; log_start_time := t0; log_end_time := None;
                log_status := running; log_total_records := Some 0;
                log_success_records := Some 0; log_failed_records := Some 0;
                log_error_message := None; log_duration_ms := None |} in
  find_log 1 (sync_logs (store w)) = Some row /\
  find_log 1 (sync_logs (store (fst (cancel_sync t1 w))))
  = Some {| log_id := 1; log_start_time := t0; log_end_time := Some t1;
            log_status := cancelled; log_total_records := None;
            log_success_records := None; log_failed_records := None;
            log_error_message := None; log_duration_ms := None |}.
Proof.
  intros w row.
  assert (find_log 1 (sync_logs (store w)) = Some row) as H by reflexivity.
  split; [done|].
  exact (proj2 (update_sync_log_overwrites w 1 row H) t1 eq_refl eq_refl).
Defined.

(** ** The progress snapshot *)







(** ** Reconciliation *)

Lemma and_then_Ok {A B} (m : M A) (k : A -> M B) (w w' : World) (b : B) :
  and_then m k w = (w', Ok b) ->
  exists a w1, m w = (w1, Ok a) /\ k a w1 = (w', Ok b).
Proof.
  unfold and_then. destruct (m w) as [w1 [a|e]]; [|done]. intros H. by exists a, w1.
Qed.

Lemma snd_and_then_Ok {A B} (m : M A) (k : A -> M B) (w w1 : World) (a : A) :
  m w = (w1, Ok a) -> snd (and_then m k w) = snd (k a w1).
Proof. intros H. unfold and_then. by rewrite H. Qed.

Lemma snd_and_then_Raise {A B} (m : M A) (k : A -> M B) (w : World) (e : exn) :
  snd (m w) = Raise e -> snd (and_then m k w) = Raise e.
Proof. unfold and_then. destruct (m w) as [w1 r]. simpl. by intros ->. Qed.

Lemma lift_Ok {A} (r : result A) (w w' : World) (a : A) :
  lift r w = (w', Ok a) -> r = Ok a /\ w' = w.
Proof. unfold lift. by intros [= -> ->]. Qed.

Section Reconciliation.

Variable fromisoformat : string -> option datetime.
Variable isoformat : datetime -> string.
Variable existing_by_id : gmap Z CompanyRow.

Local Abbreviation fate := (disposition fromisoformat existing_by_id).
Local Abbreviation count := (tally fromisoformat existing_by_id).

Lemma tally_cons (d : Disposition) (e : ExternalCompany) (l : list ExternalCompany) :
  count d (e :: l) = (if decide (fate e = d) then 1 else 0) + count d l.
Proof.
  unfold tally. rewrite filter_cons. destruct (decide (fate e = d)); simpl; lia.
Qed.

Lemma tally_app (d : Disposition) (l1 l2 : list ExternalCompany) :
  count d (l1 ++ l2) = count d l1 + count d l2.
Proof. unfold tally. rewrite filter_app, length_app. lia. Qed.

Lemma tally_total (l : list ExternalCompany) :
  count Inserted l + count Updated l + count Skipped l + count Rejected l
  = Z.of_nat (length l).
Proof.
  induction l as [|e l IH]; [done|].
  rewrite !tally_cons. simpl length.
  destruct (fate e); repeat case_decide; try done; lia.
Qed.

(** One iteration of the loop, by the fate of its record. *)
Lemma partition_step_fate (acc : Partition) (e : ExternalCompany) :
  length (to_insert (partition_step fromisoformat existing_by_id acc e))
    = (length (to_insert acc) + if decide (fate e = Inserted) then 1 else 0)%nat /\
  length (to_update (partition_step fromisoformat existing_by_id acc e))
    = (length (to_update acc) + if decide (fate e = Updated) then 1 else 0)%nat /\
  failed_count (partition_step fromisoformat existing_by_id acc e)
    = failed_count acc + (if decide (fate e = Rejected) then 1 else 0) /\
  (fate e = Skipped -> partition_step fromisoformat existing_by_id acc e = acc).
Proof.
  unfold partition_step, disposition.
  destruct (to_internal fromisoformat e) as [internal|err]; simpl.
  2: { repeat split; try lia; done. }
  destruct (existing_by_id !! ext_id e) as [existing|]; simpl.
  2: { rewrite length_app. simpl. repeat split; try lia; done. }
  destruct (_needs_update fromisoformat existing internal e) as [[|]|err]; simpl.
  - rewrite length_app. simpl. repeat split; try lia; done.
  - repeat split; try lia; done.
  - repeat split; try lia; done.
Qed.

Lemma partition_fold (batch : list ExternalCompany) : forall acc : Partition,
  let p := foldl (partition_step fromisoformat existing_by_id) acc batch in
  Z.of_nat (length (to_insert p)) = Z.of_nat (length (to_insert acc)) + count Inserted batch /\
  Z.of_nat (length (to_update p)) = Z.of_nat (length (to_update acc)) + count Updated batch /\
  failed_count p = failed_count acc + count Rejected batch.
Proof.
  induction batch as [|e batch IH]; intros acc; simpl.
  - unfold tally. simpl. lia.
  - destruct (IH (partition_step fromisoformat existing_by_id acc e)) as (H1 & H2 & H3).
    destruct (partition_step_fate acc e) as (S1 & S2 & S3 & _).
    rewrite !tally_cons. rewrite H1, H2, H3, S1, S2, S3.
    repeat case_decide; lia.
Qed.

Lemma partition_batch_counts (batch : list ExternalCompany) :
  let p := partition_batch fromisoformat batch existing_by_id in
  Z.of_nat (length (to_insert p)) = count Inserted batch /\
  Z.of_nat (length (to_update p)) = count Updated batch /\
  failed_count p = count Rejected batch.
Proof.
  unfold partition_batch.
  destruct (partition_fold batch {| to_insert := []; to_update := []; failed_count := 0 |})
    as (H1 & H2 & H3).
  simpl in *. lia.
Qed.

Lemma insert_companies_outcome (now : datetime) (cs : list CompanyCreate) (w : World) :
  snd (_insert_companies isoformat now cs w) =
    if snd (insert_rows isoformat now cs (companies (store w)))
    then Ok (Z.of_nat (length cs))
    else Raise (DatabaseException "Insert operation failed" (Some "insert")).
Proof.
  destruct cs as [|c cs]; [done|].
  unfold _insert_companies, and_then, read_store, write_store, ret, raise.
  destruct (insert_rows isoformat now (c :: cs) (companies (store w))) as [table [|]];
    reflexivity.
Qed.

Lemma update_companies_outcome (now : datetime) (cs : list CompanyCreate) (w : World) :
  snd (_update_companies isoformat now cs w) = Ok (Z.of_nat (length cs)).
Proof. by destruct cs. Qed.

(** What [_process_batch] ends with: the counts when the store accepts the
    rows to insert, the exception of [_insert_companies] otherwise. *)
Lemma process_batch_outcome (now : datetime) (batch : list ExternalCompany) (w : World) :
  snd (_process_batch fromisoformat isoformat now batch existing_by_id w) =
    if snd (insert_rows isoformat now
              (to_insert (partition_batch fromisoformat batch existing_by_id))
              (companies (store w)))
    then Ok (count Inserted batch + count Updated batch, count Rejected batch)
    else Raise (DatabaseException "Insert operation failed" (Some "insert")).
Proof.
  destruct (partition_batch_counts batch) as (H1 & H2 & H3).
  unfold _process_batch.
  destruct (partition_batch fromisoformat batch existing_by_id) as [ins upd failed_n].
  cbn [to_insert to_update failed_count] in *.
  assert (forall w1 s f,
    snd (and_then
           match upd with
           | [] => ret (s, f)
           | _ => and_then (_update_companies isoformat now upd)
                    (fun n => ret (s + n, f + (Z.of_nat (length upd) - n)))
           end (fun '(s', f') => ret (s', f')) w1)
    = Ok (s + count Updated batch, f)) as Hupd.
  { intros w1 s f. rewrite <- H2. destruct upd as [|c' upd].
    - simpl. f_equal. f_equal. lia.
    - unfold and_then.
      pose proof (update_companies_outcome now (c' :: upd) w1) as Hu.
      destruct (_update_companies isoformat now (c' :: upd) w1) as [w2 r].
      simpl in Hu. subst r. simpl. f_equal. f_equal; lia. }
  destruct ins as [|c ins].
  - cbn [insert_rows snd]. rewrite <- H1. simpl length.
    rewrite (snd_and_then_Ok _ _ w w (0, failed_n)) by reflexivity.
    etrans; [apply (Hupd w 0 failed_n)|]. f_equal. f_equal; simpl; lia.
  - pose proof (insert_companies_outcome now (c :: ins) w) as Hi.
    destruct (_insert_companies isoformat now (c :: ins) w) as [w1 r] eqn:Hic.
    cbn [snd] in Hi.
    destruct (snd (insert_rows isoformat now (c :: ins) (companies (store w))));
      subst r.
    + rewrite (snd_and_then_Ok _ _ w w1
                 (0 + Z.of_nat (length (c :: ins)),
                  failed_n + (Z.of_nat (length (c :: ins)) - Z.of_nat (length (c :: ins))))).
      2: { unfold and_then. by rewrite Hic. }
      etrans; [apply Hupd|]. f_equal. f_equal; simpl in *; lia.
    + apply snd_and_then_Raise. apply snd_and_then_Raise. by rewrite Hic.
Qed.

End Reconciliation.

(** ** A whole run *)

(** The batches of a run, put end to end, are the fetched list. *)
Lemma batches_cover {A} (l : list A) :
  concat (map (fun i => take 100 (drop i l)) (batch_starts (length l))) = l.
Proof.
  unfold batch_starts.
  assert (forall m, concat (map (fun i => take 100 (drop i l))
                        (map (fun k => (k * 100)%nat) (seq 0 m)))
                    = take (m * 100) l) as H.
  { induction m as [|m IH]; [done|].
    rewrite seq_S, !map_app, concat_app, IH. simpl.
    rewrite app_nil_r, take_take_drop. f_equal. lia. }
  rewrite H. apply take_ge.
  pose proof (Nat.div_mod_eq (length l + 99) 100).
  pose proof (Nat.mod_upper_bound (length l + 99) 100). lia.
Qed.

Section Run.

Variable fromisoformat : string -> option datetime.
Variable isoformat : datetime -> string.

Lemma process_batches_counts (now : datetime) (state : nat)
    (external_companies : list ExternalCompany)
    (existing_by_id : gmap Z CompanyRow) (starts : list nat) :
  forall (counts : Z * Z) (w w' : World) (s f : Z),
    process_batches fromisoformat isoformat now state external_companies
      existing_by_id starts counts w = (w', Ok (s, f)) ->
    let fetched := concat (map (fun i => take 100 (drop i external_companies)) starts) in
    s = fst counts + tally fromisoformat existing_by_id Inserted fetched
        + tally fromisoformat existing_by_id Updated fetched /\
    f = snd counts + tally fromisoformat existing_by_id Rejected fetched.
Proof.
  induction starts as [|i starts IH]; intros counts w w' s f Hrun.
  - simpl in Hrun. unfold ret in Hrun. simplify_eq. unfold tally. simpl. lia.
  - cbn [process_batches] in Hrun.
    apply and_then_Ok in Hrun as ([] & w1 & _ & Hrun).
    apply and_then_Ok in Hrun as ([bs bf] & w2 & Hbatch & Hrun).
    pose proof (process_batch_outcome fromisoformat isoformat existing_by_id now
                  (take 100 (drop i external_companies)) w1) as Hout.
    rewrite Hbatch in Hout. cbn [snd] in Hout.
    destruct (snd (insert_rows _ _ _ _)); [|done]. simplify_eq.
    apply IH in Hrun as [Hs Hf]. cbn [fst snd] in Hs, Hf.
    cbn [map concat]. rewrite !tally_app. lia.
Qed.

(** A run that returns: its counts are those of the fetched records, by
    their fate against the index taken from the store at its start. *)
Lemma perform_sync_counts (env : Environment) (started now : datetime)
    (sync_log_id : Z) (w w' : World) (summary : Summary) :
  perform_sync fromisoformat isoformat env started now sync_log_id w = (w', Ok summary) ->
  exists fetched first_page,
    get_all_companies (env_settings env) (env_source env) (env_completion env) 50
      = Ok fetched /\
    get_companies_page (env_settings env) (env_source env) 1 50 = Ok first_page /\
    let existing_by_id :=
      index_by_id (filter (fun r => row_is_active r = true) (companies (store w))) in
    sum_status summary = completed /\
    sum_total_records summary = total first_page /\
    sum_success_records summary
      = tally fromisoformat existing_by_id Inserted fetched
        + tally fromisoformat existing_by_id Updated fetched /\
    sum_failed_records summary = tally fromisoformat existing_by_id Rejected fetched.
Proof.
  unfold perform_sync. intros H.
  apply and_then_Ok in H as (act & w1 & Henter & H).
  apply and_then_Ok in H as (outcome & w2 & Hrun & H).
  apply and_then_Ok in H as ([] & w3 & _ & H).
  apply and_then_Ok in H as ([] & w4 & _ & H).
  apply lift_Ok in H as [-> _].
  unfold perform_sync_enter, and_then, get_sync_state, ret in Henter.
  injection Henter as Hw Hact. subst w1 act.
  unfold perform_sync_run, try_except in Hrun.
  destruct (and_then (perform_sync_try _ _ _ _ _ _) _ w) as [w5 [r|e]] eqn:Hbody.
  2: { exfalso. unfold and_then in Hrun.
       destruct (lift (elapsed_ms _ _) w5) as [w6 [d|e1]]; [|done].
       destruct (lift (new_SyncLogUpdate _) w6) as [w7 [u|e2]]; [|done].
       destruct (_update_sync_log _ _ w7) as [w8 [[]|e3]]; [|done].
       unfold ret in Hrun. by simplify_eq. }
  simplify_eq.
  apply and_then_Ok in Hbody as (summary' & w6 & Htry & Hret).
  unfold ret in Hret. simplify_eq.
  unfold perform_sync_try in Htry.
  apply and_then_Ok in Htry as (pages & wa & Hpages & Htry).
  apply lift_Ok in Hpages as [Hpages ->].
  apply and_then_Ok in Htry as (first_page & wb & Hfirst & Htry).
  apply lift_Ok in Hfirst as [Hfirst ->].
  apply and_then_Ok in Htry as ([] & wc & Hwrite & Htry).
  apply and_then_Ok in Htry as (fetched & wd & Hall & Htry).
  apply lift_Ok in Hall as [Hall ->].
  apply and_then_Ok in Htry as (existing & we & Hexisting & Htry).
  apply and_then_Ok in Htry as ([s f] & wf & Hbatches & Htry).
  apply and_then_Ok in Htry as (duration & wg & _ & Htry).
  apply and_then_Ok in Htry as (update & wh & _ & Htry).
  apply and_then_Ok in Htry as ([] & wi & _ & Htry).
  unfold ret in Htry. simplify_eq.
  unfold write_state in Hwrite. simplify_eq.
  unfold _get_existing_companies, and_then, read_store, ret in Hexisting.
  simpl in Hexisting. simplify_eq.
  apply process_batches_counts in Hbatches as [Hs Hf].
  rewrite batches_cover in Hs, Hf. cbn [fst snd] in Hs, Hf.
  exists fetched, first_page. simpl. repeat split; try done; lia.
Qed.

End Run.

(** C1 (as the code has it). A record that passes the transform, whose id
    is in the index and whose update stamp is read as less than or equal to
    the stamp of its row, is skipped: the loop of [_process_batch] leaves
    both lists and the failure counter as they were, so the record is
    counted neither as a success nor as a failure. A batch that is processed
    returns as successes the inserts plus the updates and as failures the
    rejected records; the skipped records make up the rest of the batch. A
    run that returns reports [completed] with, over all fetched records,
    successes = inserts + updates and failures = rejected records. *)
Theorem skipped_records_are_not_counted
    (fromisoformat : string -> option datetime) (isoformat : datetime -> string) :
  (forall existing_by_id acc e existing internal s1 s2 d1 d2,
     existing_by_id !! ext_id e = Some existing ->
     to_internal fromisoformat e = Ok internal ->
     ext_update_time e = Some s1 -> s1 <> "" ->
     row_update_time existing = Some s2 -> s2 <> "" ->
     fromisoformat s1 = Some d1 -> fromisoformat s2 = Some d2 ->
     datetime_le d1 d2 = Ok true ->
     disposition fromisoformat existing_by_id e = Skipped /\
     partition_step fromisoformat existing_by_id acc e = acc)
  /\
  (forall now batch existing_by_id w w' s f,
     _process_batch fromisoformat isoformat now batch existing_by_id w = (w', Ok (s, f)) ->
     s = tally fromisoformat existing_by_id Inserted batch
         + tally fromisoformat existing_by_id Updated batch /\
     f = tally fromisoformat existing_by_id Rejected batch /\
     s + f + tally fromisoformat existing_by_id Skipped batch = Z.of_nat (length batch))
  /\
  (forall env started now sync_log_id w w' summary,
     perform_sync fromisoformat isoformat env started now sync_log_id w = (w', Ok summary) ->
     exists fetched,
       get_all_companies (env_settings env) (env_source env) (env_completion env) 50
         = Ok fetched /\
       let existing_by_id :=
         index_by_id (filter (fun r => row_is_active r = true) (companies (store w))) in
       sum_status summary = completed /\
       sum_success_records summary
         = tally fromisoformat existing_by_id Inserted fetched
           + tally fromisoformat existing_by_id Updated fetched /\
       sum_failed_records summary = tally fromisoformat existing_by_id Rejected fetched /\
       sum_success_records summary + sum_failed_records summary
         + tally fromisoformat existing_by_id Skipped fetched = Z.of_nat (length fetched)).
Proof.
  split; [|split].
  - intros idx acc e existing internal s1 s2 d1 d2 Hidx Hint H1 Hn1 H2 Hn2 Hd1 Hd2 Hle.
    assert (_needs_update fromisoformat existing internal e = Ok false) as Hskip.
    { apply needs_update_false_iff. by exists s1, s2, d1, d2. }
    assert (disposition fromisoformat idx e = Skipped) as Hfate.
    { unfold disposition. by rewrite Hint, Hidx, Hskip. }
    split; [done|]. by apply partition_step_fate.
  - intros now batch idx w w' s f Hbatch.
    pose proof (process_batch_outcome fromisoformat isoformat idx now batch w) as Hout.
    rewrite Hbatch in Hout. cbn [snd] in Hout.
    destruct (snd (insert_rows _ _ _ _)); [|done]. simplify_eq.
    pose proof (tally_total fromisoformat idx batch). repeat split; lia.
  - intros env started now sync_log_id w w' summary Hrun.
    apply perform_sync_counts in Hrun
      as (fetched & first_page & Hall & _ & Hst & _ & Hs & Hf).
    exists fetched. split; [done|]. simpl.
    pose proof (tally_total fromisoformat
      (index_by_id (filter (fun r => row_is_active r = true) (companies (store w))))
      fetched).
    repeat split; try done; lia.
Qed.

(** The end-to-end scenario: 100 records, 37 new, 5 to update, 58
    unchanged; the run completes with 42 successes and no failure. *)
Lemma skipped_records_are_not_counted_witness :
  perform_sync iso_parse iso_format scenario_env t0 t1 1 scenario_started
    = (scenario_finished, Ok scenario_summary)
  /\
  exists fetched,
    get_all_companies (env_settings scenario_env) (env_source scenario_env)
      (env_completion scenario_env) 50 = Ok fetched /\
    let existing_by_id :=
      index_by_id (filter (fun r => row_is_active r = true)
                          (companies (store scenario_started))) in
    sum_status scenario_summary = completed /\
    sum_success_records scenario_summary
      = tally iso_parse existing_by_id Inserted fetched
        + tally iso_parse existing_by_id Updated fetched /\
    sum_failed_records scenario_summary = tally iso_parse existing_by_id Rejected fetched /\
    sum_success_records scenario_summary + sum_failed_records scenario_summary
      + tally iso_parse existing_by_id Skipped fetched = Z.of_nat (length fetched).
Proof.
  assert (perform_sync iso_parse iso_format scenario_env t0 t1 1 scenario_started
          = (scenario_finished, Ok scenario_summary)) as Hrun
    by (vm_compute; reflexivity).
  split; [exact Hrun|].
  exact (proj2 (proj2 (skipped_records_are_not_counted iso_parse iso_format))
           scenario_env t0 t1 1 scenario_started scenario_finished _ Hrun).
Defined.

(** The fates of the records of the scenario. *)
Example scenario_tallies :
  tally iso_parse scenario_index Inserted scenario_records = 37 /\
  tally iso_parse scenario_index Updated scenario_records = 5 /\
  tally iso_parse scenario_index Skipped scenario_records = 58 /\
  tally iso_parse scenario_index Rejected scenario_records = 0.
Proof. vm_compute. repeat split. Qed.

(** C1 as stated fails: a batch of one unchanged record returns no success
    at all, and the run of the end-to-end scenario reports 42 successes, not
    100. *)
Lemma skipped_counted_as_success_counterexample :
  snd (_process_batch iso_parse iso_format t1
         [sample_company 43 (Some "2023-01-02 00:00:00")] scenario_index
         scenario_started) = Ok (0, 0)
  /\
  exists summary,
    snd (perform_sync iso_parse iso_format scenario_env t0 t1 1 scenario_started) = Ok summary /\
    sum_status summary = completed /\
    sum_failed_records summary = 0 /\
    sum_success_records summary = 42 /\
    sum_success_records summary <> 100.
Proof.
  split; [vm_compute; reflexivity|].
  eexists. split; [vm_compute; reflexivity|]. simpl. repeat split; lia.
Qed.

(** ** What the perform step touches *)

Lemma and_then_inv {A B} (m : M A) (k : A -> M B) (w w' : World) (r : result B) :
  and_then m k w = (w', r) ->
  (exists a w1, m w = (w1, Ok a) /\ k a w1 = (w', r)) \/
  (exists e, m w = (w', Raise e) /\ r = Raise e).
Proof.
  unfold and_then. destruct (m w) as [w1 [a|e]]; intros H.
  - left. by exists a, w1.
  - right. exists e. by simplify_eq.
Qed.

Lemma lift_inv {A} (r r' : result A) (w w' : World) :
  lift r w = (w', r') -> w' = w /\ r' = r.
Proof. unfold lift. by intros [= <- <-]. Qed.

Lemma working_refl (w : World) : working w w.
Proof. by repeat split. Qed.

Lemma working_trans (w1 w2 w3 : World) : working w1 w2 -> working w2 w3 -> working w1 w3.
Proof.
  intros (L1 & S1 & F1) (L2 & S2 & F2). repeat split; try congruence.
  - destruct (F1 l), (F2 l). congruence.
  - destruct (F1 l), (F2 l). congruence.
Qed.

(** Assigning the progress fields or the totals of a state object. *)
Lemma write_state_working (state : nat) (f : SyncState -> SyncState) (w : World) :
  (forall s, is_running (f s) = is_running s /\ current_sync_id (f s) = current_sync_id s) ->
  working w (fst (write_state state f w)).
Proof.
  intros Hf. unfold write_state, working. simpl. repeat split; try done.
  - destruct (decide (state = l)) as [->|Hne].
    + destruct (decide (l < length (heap w))%nat).
      * rewrite deref_insert_eq by done. apply Hf.
      * by rewrite list_insert_ge by lia.
    + by rewrite deref_insert_ne.
  - destruct (decide (state = l)) as [->|Hne].
    + destruct (decide (l < length (heap w))%nat).
      * rewrite deref_insert_eq by done. apply Hf.
      * by rewrite list_insert_ge by lia.
    + by rewrite deref_insert_ne.
Qed.

Lemma and_then_working {A B} (m : M A) (k : A -> M B) (w : World) :
  working w (fst (m w)) ->
  (forall a w1, working w1 (fst (k a w1))) ->
  working w (fst (and_then m k w)).
Proof.
  intros Hm Hk. unfold and_then. destruct (m w) as [w1 [a|e]]; [|exact Hm].
  eapply working_trans; [exact Hm|apply Hk].
Qed.

Lemma ret_working {A} (a : A) (w : World) : working w (fst (ret a w)).
Proof. apply working_refl. Qed.

Lemma lift_working {A} (r : result A) (w : World) : working w (fst (lift r w)).
Proof. apply working_refl. Qed.

Section Working.

Variable fromisoformat : string -> option datetime.
Variable isoformat : datetime -> string.

Lemma insert_companies_working (now : datetime) (cs : list CompanyCreate) (w : World) :
  working w (fst (_insert_companies isoformat now cs w)).
Proof.
  destruct cs as [|c cs]; [apply working_refl|].
  unfold _insert_companies, and_then, read_store, write_store, ret, raise.
  destruct (insert_rows isoformat now (c :: cs) (companies (store w))) as [table [|]];
    by repeat split.
Qed.

Lemma update_companies_working (now : datetime) (cs : list CompanyCreate) (w : World) :
  working w (fst (_update_companies isoformat now cs w)).
Proof. destruct cs as [|c cs]; [apply working_refl|]. by repeat split. Qed.

Lemma process_batch_working (now : datetime) (batch : list ExternalCompany)
    (existing_by_id : gmap Z CompanyRow) (w : World) :
  working w (fst (_process_batch fromisoformat isoformat now batch existing_by_id w)).
Proof.
  unfold _process_batch.
  apply and_then_working.
  { destruct (to_insert _); [apply ret_working|].
    apply and_then_working; [apply insert_companies_working|].
    intros; apply ret_working. }
  intros [s f] w1. apply and_then_working.
  { destruct (to_update _); [apply ret_working|].
    apply and_then_working; [apply update_companies_working|].
    intros; apply ret_working. }
  intros [s' f'] w2. apply ret_working.
Qed.

Lemma process_batches_working (now : datetime) (state : nat)
    (external_companies : list ExternalCompany) (existing_by_id : gmap Z CompanyRow)
    (starts : list nat) : forall (counts : Z * Z) (w : World),
  working w (fst (process_batches fromisoformat isoformat now state external_companies
                    existing_by_id starts counts w)).
Proof.
  induction starts as [|i starts IH]; intros counts w; [apply working_refl|].
  cbn [process_batches].
  apply and_then_working; [by apply write_state_working|].
  intros [] w1. apply and_then_working; [apply process_batch_working|].
  intros [bs bf] w2. apply IH.
Qed.

End Working.

Lemma writes_terminal_after {A} (sync_log_id : Z) (status : sync_status)
    (w w1 : World) (x : World * result A) :
  working w w1 -> writes_terminal sync_log_id status w1 x ->
  writes_terminal sync_log_id status w x.
Proof.
  intros (L & S & F) (S' & F' & W). repeat split; try congruence.
  - destruct (F l), (F' l). congruence.
  - destruct (F l), (F' l). congruence.
  - destruct (snd x); [destruct W as [u W]; exists u|]; congruence.
Qed.

Lemma writes_terminal_fail {A} (sync_log_id : Z) (status : sync_status)
    (w w1 : World) (e : exn) :
  working w w1 -> writes_terminal (A:=A) sync_log_id status w (w1, Raise e).
Proof. intros (L & S & F). by repeat split; try apply F. Qed.

Lemma and_then_writes_terminal {A B} (sync_log_id : Z) (status : sync_status)
    (m : M A) (k : A -> M B) (w : World) :
  working w (fst (m w)) ->
  (forall a w1, m w = (w1, Ok a) -> writes_terminal sync_log_id status w1 (k a w1)) ->
  writes_terminal sync_log_id status w (and_then m k w).
Proof.
  intros Hm Hk. unfold and_then. destruct (m w) as [w1 [a|e]] eqn:E.
  - eapply writes_terminal_after; [exact Hm|]. by apply Hk.
  - by apply writes_terminal_fail.
Qed.

Lemma new_SyncLogUpdate_Ok (u u' : SyncLogUpdate) :
  new_SyncLogUpdate u = Ok u' -> u' = u.
Proof.
  unfold new_SyncLogUpdate, bind.
  repeat (match goal with |- context [ge0 ?f ?o] => destruct (ge0 f o) end; [|done]).
  by intros [= <-].
Qed.

(** The last two statements of either path: the update object is built,
    the row is assigned. *)
Lemma terminal_update_writes {A} (sync_log_id : Z) (status : sync_status)
    (u : SyncLogUpdate) (a : A) (w : World) :
  upd_status u = Some status ->
  writes_terminal sync_log_id status w
    (and_then (lift (new_SyncLogUpdate u))
       (fun update => and_then (_update_sync_log sync_log_id update) (fun _ => ret a)) w).
Proof.
  intros Hst. apply and_then_writes_terminal; [apply lift_working|].
  intros update w1 Hu. apply lift_Ok in Hu as [Hu ->].
  apply new_SyncLogUpdate_Ok in Hu as ->.
  unfold _update_sync_log. rewrite Hst.
  unfold and_then, read_store, write_store, ret. simpl.
  repeat split; try done. by exists u.
Qed.

Lemma and_then_ret {A B} (m : M A) (f : A -> B) (w : World) :
  and_then m (fun a => ret (f a)) w
  = (fst (m w), match snd (m w) with Ok a => Ok (f a) | Raise e => Raise e end).
Proof. unfold and_then, ret. by destruct (m w) as [w1 [a|e]]. Qed.

Section PerformStep.

Variable fromisoformat : string -> option datetime.
Variable isoformat : datetime -> string.

Lemma perform_sync_try_writes (env : Environment) (now : datetime) (act : Activation)
    (sync_log_id : Z) (w : World) :
  writes_terminal sync_log_id completed w
    (perform_sync_try fromisoformat isoformat env now act sync_log_id w).
Proof.
  unfold perform_sync_try.
  apply and_then_writes_terminal; [apply lift_working|]. intros pages w1 _.
  apply and_then_writes_terminal; [apply lift_working|]. intros first_page w2 _.
  apply and_then_writes_terminal; [by apply write_state_working|]. intros [] w3 _.
  apply and_then_writes_terminal; [apply lift_working|]. intros fetched w4 _.
  apply and_then_writes_terminal; [apply working_refl|]. intros existing w5 _.
  apply and_then_writes_terminal; [apply process_batches_working|].
  intros [s f] w6 _.
  apply and_then_writes_terminal; [apply lift_working|]. intros duration w7 _.
  by apply terminal_update_writes.
Qed.

(** The perform step, from its first await to its terminal write. *)
Lemma perform_sync_run_effect (env : Environment) (now : datetime) (act : Activation)
    (sync_log_id : Z) (w : World) :
  let x := perform_sync_run fromisoformat isoformat env now act sync_log_id w in
  _sync_state (fst x) = _sync_state w /\
  (forall l, is_running (deref (heap (fst x)) l) = is_running (deref (heap w) l) /\
             current_sync_id (deref (heap (fst x)) l) = current_sync_id (deref (heap w) l)) /\
  terminal_write sync_log_id (snd x) (sync_logs (store w)) (sync_logs (store (fst x))).
Proof.
  unfold perform_sync_run, try_except.
  pose proof (perform_sync_try_writes env now act sync_log_id w) as Htry.
  rewrite (and_then_ret (perform_sync_try fromisoformat isoformat env now act sync_log_id)
             (fun summary => Ok summary) w).
  destruct (perform_sync_try _ _ _ _ _ _ w) as [w1 [summary|e]]; cbn [fst snd].
  - destruct Htry as (S & F & W). simpl in *. repeat split; try done; apply F.
  - destruct Htry as (S & F & W). cbn [fst snd] in S, F, W.
    match goal with
    | |- context [and_then ?m ?k w1] =>
        assert (writes_terminal sync_log_id failed w1 (and_then m k w1)) as Hh;
        [|assert (forall r, snd (and_then m k w1) = Ok r -> r = Raise e) as Hr;
          [|destruct (and_then m k w1) as [w2 [r|e']]]]
    end.
    + apply and_then_writes_terminal; [apply lift_working|]. intros duration w2 _.
      by apply terminal_update_writes.
    + intros r Hr. unfold and_then, lift, ret in Hr.
      repeat (match type of Hr with
              | context [match ?scrut with _ => _ end] => destruct scrut
              end; simpl in Hr; try done).
      all: by simplify_eq.
    + destruct Hh as (S' & F' & W'). cbn [fst snd] in *.
      rewrite (Hr r eq_refl). simpl.
      repeat split; try congruence.
      * destruct (F l), (F' l). congruence.
      * destruct (F l), (F' l). congruence.
      * destruct W' as [u W']. exists u. congruence.
    + destruct Hh as (S' & F' & W'). cbn [fst snd] in *.
      repeat split; try congruence.
      * destruct (F l), (F' l). congruence.
      * destruct (F l), (F' l). congruence.
Qed.

End PerformStep.

(** ** The lifecycle under interleaving *)

Lemma runs_in_flight_resumed (l : list Coroutine) (k : nat) (c : Coroutine) :
  l !! k = Some c ->
  omap run_of l ≡ₚ omap run_of [c] ++ omap run_of (delete k l).
Proof.
  intros H. rewrite <- omap_app. apply omap_Permutation. simpl.
  by apply delete_Permutation.
Qed.

Lemma exited_resumed (l : list Coroutine) (k : nat) (c : Coroutine) :
  l !! k = Some c ->
  omap exited_of l ≡ₚ omap exited_of [c] ++ omap exited_of (delete k l).
Proof.
  intros H. rewrite <- omap_app. apply omap_Permutation. simpl.
  by apply delete_Permutation.
Qed.

Lemma exited_in_flight (l : list Coroutine) (x : Z) :
  x ∈ omap exited_of l -> x ∈ omap run_of l.
Proof.
  rewrite !list_elem_of_omap. intros (c & Hc & Hx). exists c. split; [done|].
  destruct c as [| | | | |id e [|]]; by simplify_eq.
Qed.

Lemma current_run_same (w w' : World) :
  _sync_state w' = _sync_state w ->
  (forall l, is_running (deref (heap w') l) = is_running (deref (heap w) l) /\
             current_sync_id (deref (heap w') l) = current_sync_id (deref (heap w) l)) ->
  current_run w' = current_run w.
Proof.
  intros S F. unfold current_run. rewrite S.
  destruct (F (_sync_state w)) as [-> ->]. done.
Qed.

Lemma current_run_cleared (w : World) (state : nat) :
  current_run
    {| store := store w;
       heap := <[state := set_is_running false (deref (heap w) state)]> (heap w);
       _sync_state := state |} = None.
Proof. unfold current_run. simpl. by rewrite deref_cleared. Qed.

(** The write of the background task: the row of its run is assigned
    [failed], nothing else changes. *)
Lemma background_failure_effect (now : datetime) (sync_log_id : Z) (e : exn)
    (w : World) :
  heap (fst (background_failure now sync_log_id e w)) = heap w /\
  _sync_state (fst (background_failure now sync_log_id e w)) = _sync_state w /\
  exists u,
    sync_logs (store (fst (background_failure now sync_log_id e w)))
    = update_logs sync_log_id failed u (sync_logs (store w)).
Proof.
  unfold background_failure, try_except, and_then, lift, _update_sync_log. simpl.
  repeat split; try done. by eexists.
Qed.

Section Interleaving.

Variable fromisoformat : string -> option datetime.
Variable isoformat : datetime -> string.

Local Abbreviation step := (step fromisoformat isoformat).
Local Abbreviation execute := (execute fromisoformat isoformat).

(** A call of [start_sync] up to its suspension. *)
Lemma call_start_effect (now : datetime) (s : System) :
  finished (call_start now s) = finished s /\
  heap (world (call_start now s)) = heap (world s) /\
  _sync_state (world (call_start now s)) = _sync_state (world s) /\
  ((logs_of (call_start now s) = logs_of s /\
    suspended (call_start now s) = suspended s) \/
   (exists sync_log,
      log_id sync_log = 1 + max_log_id (logs_of s) /\
      logs_of (call_start now s) = logs_of s ++ [sync_log] /\
      suspended (call_start now s) = suspended s ++ [StartAwaiting sync_log])).
Proof.
  unfold call_start, start_sync_begin, and_then, get_sync_state, read_state, logs_of.
  simpl. destruct (is_running _); simpl.
  - repeat split; try done. by left.
  - repeat split; try done. right.
    eexists. split; [|split; reflexivity]. reflexivity.
Qed.

(** A call of [cancel_sync] up to its suspension. *)
Lemma call_cancel_effect (now : datetime) (s : System) :
  finished (call_cancel now s) = finished s /\
  heap (world (call_cancel now s)) = heap (world s) /\
  _sync_state (world (call_cancel now s)) = _sync_state (world s) /\
  (suspended (call_cancel now s) = suspended s \/
   exists state, suspended (call_cancel now s) = suspended s ++ [CancelAwaiting state]) /\
  (logs_of (call_cancel now s) = logs_of s \/
   exists sync_log_id u,
     current_run (world s) = Some sync_log_id /\
     logs_of (call_cancel now s) = update_logs sync_log_id cancelled u (logs_of s)).
Proof.
  unfold call_cancel, cancel_sync_begin, and_then, get_sync_state, read_state, logs_of,
    current_run.
  simpl. destruct (is_running _); simpl.
  - destruct (truthy_id _) as [sync_id|] eqn:E; simpl.
    + split; [done|]. split; [done|]. split; [done|]. split.
      * right. by eexists.
      * right. eexists _, _. by split.
    + split; [done|]. split; [done|]. split; [done|]. split.
      * right. by eexists.
      * by left.
  - split; [done|]. split; [done|]. split; [done|]. split; by left.
Qed.

(** What resuming a suspended call does, by the kind of call. *)
Lemma resume_effect (k : nat) (now : datetime) (env : Environment) (s : System)
    (c : Coroutine) :
  suspended s !! k = Some c ->
  resume fromisoformat isoformat k now env s =
    match c with
    | StartAwaiting sync_log =>
        {| world :=
             {| store := store (world s);
                heap := heap (world s) ++
                  [{| is_running := true; current_sync_id := Some (log_id sync_log);
                      current_page := 0; total_pages := 0; processed_records := 0;
                      total_records := 0; start_time := Some now; last_update := None |}];
                _sync_state := length (heap (world s)) |};
           suspended := delete k (suspended s) ++ [TaskCreated (log_id sync_log)];
           finished := finished s |}
    | CancelAwaiting state =>
        {| world :=
             {| store := store (world s);
                heap := <[state := set_is_running false (deref (heap (world s)) state)]>
                          (heap (world s));
                _sync_state := state |};
           suspended := delete k (suspended s);
           finished := finished s |}
    | TaskCreated sync_log_id =>
        {| world := world s;
           suspended := delete k (suspended s) ++
             [PerformAwaiting sync_log_id
                {| act_start_time := now; act_state := _sync_state (world s) |}];
           finished := finished s |}
    | PerformAwaiting sync_log_id act =>
        {| world := fst (perform_sync_run fromisoformat isoformat env now act
                           sync_log_id (world s));
           suspended :=
             delete k (suspended s) ++
             [match snd (perform_sync_run fromisoformat isoformat env now act
                           sync_log_id (world s)) with
              | Ok outcome => PerformExiting sync_log_id act outcome
              | Raise e => TaskFailing sync_log_id e false
              end];
           finished := finished s |}
    | PerformExiting sync_log_id act outcome =>
        {| world :=
             {| store := store (world s);
                heap := <[act_state act :=
                            set_is_running false (deref (heap (world s)) (act_state act))]>
                          (heap (world s));
                _sync_state := act_state act |};
           suspended :=
             match outcome with
             | Ok _ => delete k (suspended s)
             | Raise e => delete k (suspended s) ++ [TaskFailing sync_log_id e true]
             end;
           finished :=
             match outcome with
             | Ok _ => sync_log_id :: finished s
             | Raise _ => finished s
             end |}
    | TaskFailing sync_log_id e cleared =>
        {| world := fst (background_failure now sync_log_id e (world s));
           suspended := delete k (suspended s);
           finished := if cleared then sync_log_id :: finished s else finished s |}
    end.
Proof.
  intros H. unfold resume. rewrite H.
  destruct c as [log|state|id|id act|id act outcome|id e cleared].
  - reflexivity.
  - reflexivity.
  - reflexivity.
  - by destruct (perform_sync_run _ _ _ _ _ _ _) as [w [r|e]].
  - unfold perform_sync_exit, and_then, write_state, set_sync_state, lift. simpl.
    by destruct outcome.
  - by destruct (background_failure _ _ _ _) as [w r].
Qed.

(** The pattern of every step: some run may be new, with an id beyond
    those of the table so far, and some run in flight may be gone. *)
Lemma consistent_next (s s' : System) (fresh dropped : list Z) :
  consistent s ->
  fresh ++ runs_in_flight s ++ finished s ≡ₚ dropped ++ runs_in_flight s' ++ finished s' ->
  NoDup fresh ->
  (forall sync_log_id, sync_log_id ∈ fresh ->
     max_log_id (logs_of s) < sync_log_id <= max_log_id (logs_of s')) ->
  max_log_id (logs_of s) <= max_log_id (logs_of s') ->
  (forall sync_log_id, current_run (world s') = Some sync_log_id ->
     sync_log_id ∉ exited s') ->
  consistent s'.
Proof.
  intros [Hnd Hkn Hcur] Hperm Hfresh Hnew Hmax Hcur'. split; [| |done].
  - assert (NoDup (fresh ++ runs_in_flight s ++ finished s)) as H.
    { apply NoDup_app. split; [done|]. split; [|done].
      intros x Hx Hin. apply Hkn in Hin. apply Hnew in Hx. lia. }
    rewrite Hperm in H. by apply NoDup_app in H as (_ & _ & H).
  - intros x Hx.
    assert (x ∈ fresh ++ runs_in_flight s ++ finished s) as Hin.
    { rewrite Hperm. apply elem_of_app. by right. }
    apply elem_of_app in Hin as [Hin|Hin].
    + apply Hnew in Hin. lia.
    + apply Hkn in Hin. lia.
Qed.

(** A step that neither starts nor drops a run and keeps the table's
    greatest id. *)
Lemma consistent_same_runs (s s' : System) :
  consistent s ->
  runs_in_flight s ++ finished s ≡ₚ runs_in_flight s' ++ finished s' ->
  max_log_id (logs_of s') = max_log_id (logs_of s) ->
  (forall sync_log_id, current_run (world s') = Some sync_log_id ->
     sync_log_id ∉ exited s') ->
  consistent s'.
Proof.
  intros Hs Hperm Hmax Hcur.
  apply (consistent_next s s' [] []); try done.
  - apply NoDup_nil_2.
  - intros x Hx. by apply elem_of_nil in Hx.
  - lia.
Qed.

Lemma initial_consistent (st : Store) : consistent (initial_system st).
Proof.
  split.
  - apply NoDup_nil_2.
  - intros x Hx. by apply elem_of_nil in Hx.
  - intros x _ Hx. by apply elem_of_nil in Hx.
Qed.

Lemma terminal_write_max (sync_log_id : Z) (outcome : result (result Summary))
    (logs logs' : list SyncLog) :
  terminal_write sync_log_id outcome logs logs' -> max_log_id logs' = max_log_id logs.
Proof.
  destruct outcome as [[?|?]|?]; simpl.
  - intros [u ->]. apply max_log_id_update.
  - intros [u ->]. apply max_log_id_update.
  - by intros ->.
Qed.

Lemma terminal_write_other (sync_log_id other : Z) (outcome : result (result Summary))
    (logs logs' : list SyncLog) :
  terminal_write sync_log_id outcome logs logs' -> other <> sync_log_id ->
  find_log other logs' = find_log other logs.
Proof.
  destruct outcome as [[?|?]|?]; simpl.
  - intros [u ->] Hne. by apply find_log_update_ne.
  - intros [u ->] Hne. by apply find_log_update_ne.
  - by intros ->.
Qed.


(** The clause on the current run, for a step that leaves the flags and
    the reference alone and lets no run pass its [perform_sync]. *)
Lemma current_live_kept (s s' : System) :
  consistent s ->
  current_run (world s') = current_run (world s) ->
  exited s' ≡ₚ exited s ->
  forall sync_log_id, current_run (world s') = Some sync_log_id ->
    sync_log_id ∉ exited s'.
Proof.
  intros Hs Hcur Hex x Hx. rewrite Hex. apply (current_live s Hs). by rewrite <- Hcur.
Qed.

(** Every step keeps the system consistent. *)
Lemma step_consistent (s : System) (e : Event) : consistent s -> consistent (step s e).
Proof.
  intros Hs. destruct e as [now|now|k now env]; simpl.
  - (* a call of start_sync *)
    destruct (call_start_effect now s) as (Hret & Hheap & Hst & [[Hlogs Hsus]|Hnew]).
    + apply (consistent_same_runs s); try done.
      * unfold runs_in_flight. by rewrite Hsus, Hret.
      * by rewrite Hlogs.
      * apply (current_live_kept s); try done.
        -- unfold current_run. by rewrite Hheap, Hst.
        -- unfold exited. by rewrite Hsus, Hret.
    + destruct Hnew as (sync_log & Hid & Hlogs & Hsus).
      apply (consistent_next s _ [log_id sync_log] []); try done.
      * unfold runs_in_flight. rewrite Hsus, Hret, omap_app. simpl.
        rewrite <- !app_assoc. simpl.
        by rewrite <- Permutation_middle.
      * apply NoDup_singleton.
      * intros x Hx. apply list_elem_of_singleton in Hx as ->.
        rewrite Hlogs, max_log_id_app. lia.
      * rewrite Hlogs, max_log_id_app. lia.
      * apply (current_live_kept s); try done.
        -- unfold current_run. by rewrite Hheap, Hst.
        -- unfold exited. rewrite Hsus, Hret, omap_app. simpl. by rewrite app_nil_r.
  - (* a call of cancel_sync *)
    destruct (call_cancel_effect now s) as (Hret & Hheap & Hst & Hsus & Hlogs).
    apply (consistent_same_runs s); try done.
    + unfold runs_in_flight. rewrite Hret.
      destruct Hsus as [->|[state ->]]; [done|].
      rewrite omap_app. simpl. by rewrite app_nil_r.
    + destruct Hlogs as [->|(id & u & _ & ->)]; [done|].
      by rewrite max_log_id_update.
    + apply (current_live_kept s); try done.
      * unfold current_run. by rewrite Hheap, Hst.
      * unfold exited. rewrite Hret.
        destruct Hsus as [->|[state ->]]; [done|].
        rewrite omap_app. simpl. by rewrite app_nil_r.
  - (* a suspended call goes on *)
    destruct (suspended s !! k) as [c|] eqn:Hk.
    2: { unfold resume. by rewrite Hk. }
    rewrite (resume_effect k now env s c Hk).
    pose proof (runs_in_flight_resumed _ _ _ Hk) as Hperm.
    pose proof (exited_resumed _ _ _ Hk) as Hex.
    destruct c as [sync_log|state|sync_log_id|sync_log_id act
                  |sync_log_id act outcome|sync_log_id e cleared].
    + apply (consistent_same_runs s); try done.
      * unfold runs_in_flight at 1. rewrite Hperm.
        unfold runs_in_flight. simpl. rewrite omap_app. simpl.
        rewrite <- !app_assoc. simpl. by rewrite <- Permutation_middle.
      * simpl. unfold current_run. simpl. rewrite deref_new. simpl.
        intros x Hx Hin.
        assert (x = log_id sync_log) as ->.
        { destruct (log_id sync_log =? 0); by simplify_eq. }
        pose proof (runs_distinct s Hs) as Hnd.
        unfold runs_in_flight in Hnd. rewrite Hperm in Hnd. simpl in Hnd.
        apply NoDup_cons in Hnd as [Hnotin _]. apply Hnotin.
        unfold exited in Hin. simpl in Hin. rewrite omap_app in Hin. simpl in Hin.
        rewrite app_nil_r in Hin.
        apply elem_of_app in Hin as [Hin|Hin]; apply elem_of_app; [left|by right].
        by apply exited_in_flight.
    + apply (consistent_same_runs s); try done.
      * unfold runs_in_flight at 1. by rewrite Hperm.
      * simpl. intros x Hx. by rewrite current_run_cleared in Hx.
    + apply (consistent_same_runs s); try done.
      * unfold runs_in_flight at 1. rewrite Hperm.
        unfold runs_in_flight. simpl. rewrite omap_app. simpl.
        rewrite <- !app_assoc. simpl. by rewrite <- Permutation_middle.
      * apply (current_live_kept s); try done.
        unfold exited. simpl. rewrite Hex, omap_app. simpl. by rewrite app_nil_r.
    + destruct (perform_sync_run_effect fromisoformat isoformat env now act
                  sync_log_id (world s)) as (S & F & W).
      cbn zeta in S, F, W.
      apply (consistent_same_runs s); try done.
      * unfold runs_in_flight at 1. rewrite Hperm.
        unfold runs_in_flight. simpl. rewrite omap_app.
        destruct (snd (perform_sync_run _ _ _ _ _ _ _)); simpl;
          rewrite <- !app_assoc; simpl; by rewrite <- Permutation_middle.
      * unfold logs_of at 1. simpl. by rewrite (terminal_write_max _ _ _ _ W).
      * apply (current_live_kept s); try done.
        -- simpl. by apply current_run_same.
        -- unfold exited. simpl. rewrite Hex, omap_app. simpl.
           destruct (snd (perform_sync_run _ _ _ _ _ _ _)); simpl; by rewrite app_nil_r.
    + apply (consistent_same_runs s); try done.
      * unfold runs_in_flight at 1. rewrite Hperm.
        unfold runs_in_flight. simpl. destruct outcome as [summary|e]; simpl.
        -- by rewrite <- Permutation_middle.
        -- rewrite omap_app. simpl.
           rewrite <- !app_assoc. simpl. by rewrite <- Permutation_middle.
      * simpl. intros x Hx. by rewrite current_run_cleared in Hx.
    + destruct (background_failure_effect now sync_log_id e (world s))
        as (Hheap & Hst & u & Hlogs).
      apply (consistent_next s _ [] (if cleared then [] else [sync_log_id])).
      * done.
      * unfold runs_in_flight at 1. rewrite Hperm.
        unfold runs_in_flight. simpl. destruct cleared; simpl; [|done].
        by rewrite <- Permutation_middle.
      * apply NoDup_nil_2.
      * intros x Hx. by apply elem_of_nil in Hx.
      * unfold logs_of. cbn [world]. rewrite Hlogs, max_log_id_update. lia.
      * apply (current_live_kept s); [done| |].
        -- cbn [world]. unfold current_run. by rewrite Hheap, Hst.
        -- unfold exited. cbn [suspended finished]. rewrite Hex.
           destruct cleared; simpl; [|done].
           by rewrite <- Permutation_middle.
Qed.

Lemma execute_consistent (events : list Event) : forall s : System,
  consistent s -> consistent (execute events s).
Proof.
  unfold execute. induction events as [|e events IH]; intros s Hs; [done|].
  simpl. apply IH. by apply step_consistent.
Qed.

(** A step leaves the row of a finished run as it is. *)
Lemma step_keeps_finished (s : System) (e : Event) (sync_log_id : Z) :
  consistent s -> sync_log_id ∈ finished s ->
  find_log sync_log_id (logs_of (step s e)) = find_log sync_log_id (logs_of s).
Proof.
  intros Hs Hfin.
  assert (sync_log_id <= max_log_id (logs_of s)) as Hknown.
  { apply (runs_known s Hs). apply elem_of_app. by right. }
  assert (forall id, id ∈ runs_in_flight s -> sync_log_id <> id) as Hflight.
  { intros id Hin ->. pose proof (runs_distinct s Hs) as Hnd.
    apply NoDup_app in Hnd as (_ & Hdisj & _). by apply (Hdisj id). }
  destruct e as [now|now|k now env]; simpl.
  - destruct (call_start_effect now s) as (_ & _ & _ & [[-> _]|Hnew]); [done|].
    destruct Hnew as (sync_log & Hid & -> & _).
    apply find_log_app. lia.
  - destruct (call_cancel_effect now s) as (_ & _ & _ & _ & [->|Hupd]); [done|].
    destruct Hupd as (id & u & Hcur & ->).
    apply find_log_update_ne. intros ->.
    apply (current_live s Hs id Hcur). unfold exited. apply elem_of_app. by right.
  - destruct (suspended s !! k) as [c|] eqn:Hk.
    2: { unfold resume. by rewrite Hk. }
    rewrite (resume_effect k now env s c Hk).
    assert (forall id, run_of c = Some id -> sync_log_id <> id) as Hc.
    { intros id Hid. apply Hflight. unfold runs_in_flight.
      rewrite (runs_in_flight_resumed _ _ _ Hk). simpl. rewrite Hid.
      apply elem_of_cons. by left. }
    destruct c as [sync_log|state|id|id act|id act outcome|id e' cleared]; try done.
    + destruct (perform_sync_run_effect fromisoformat isoformat env now act
                  id (world s)) as (_ & _ & W).
      cbn zeta in W. unfold logs_of at 1. simpl.
      apply (terminal_write_other _ _ _ _ _ W). by apply Hc.
    + destruct (background_failure_effect now id e' (world s)) as (_ & _ & u & Hlogs).
      unfold logs_of. cbn [world]. rewrite Hlogs.
      apply find_log_update_ne. by apply Hc.
Qed.

End Interleaving.

(** C2 (as the code has it). Once the background task of a run has ended
    with the flag cleared by its perform step (the step has returned, or it
    has re-raised and the task has written its own [failed] row), no later
    step changes the run's row: not a call of [start_sync] or
    [cancel_sync], not the continuation of any suspended call. Before that
    the row is not final: whatever status the row carries when the perform
    step reaches its terminal write, [cancelled] included, the step assigns
    [completed] or [failed] over it. *)
Theorem finished_run_is_final
    (fromisoformat : string -> option datetime) (isoformat : datetime -> string) :
  (forall (st : Store) (events : list Event) (e : Event) (sync_log_id : Z),
     sync_log_id ∈ finished (execute fromisoformat isoformat events (initial_system st)) ->
     find_log sync_log_id
       (logs_of (step fromisoformat isoformat
                   (execute fromisoformat isoformat events (initial_system st)) e))
     = find_log sync_log_id
         (logs_of (execute fromisoformat isoformat events (initial_system st))))
  /\
  (forall (s : System) (k : nat) (now : datetime) (env : Environment)
          (sync_log_id : Z) (act : Activation) (row : SyncLog),
     suspended s !! k = Some (PerformAwaiting sync_log_id act) ->
     find_log sync_log_id (logs_of s) = Some row ->
     status_of sync_log_id (step fromisoformat isoformat s (Resume k now env))
     = Some match snd (perform_sync_run fromisoformat isoformat env now act
                         sync_log_id (world s)) with
            | Ok (Ok _) => completed
            | Ok (Raise _) => failed
            | Raise _ => log_status row
            end).
Proof.
  split.
  - intros st events e sync_log_id Hfin.
    apply step_keeps_finished; [|done].
    apply execute_consistent, initial_consistent.
  - intros s k now env sync_log_id act row Hk Hrow. simpl.
    rewrite (resume_effect fromisoformat isoformat k now env s _ Hk).
    destruct (perform_sync_run_effect fromisoformat isoformat env now act
                sync_log_id (world s)) as (_ & _ & W).
    cbn zeta in W. unfold status_of, logs_of. cbn [world]. unfold logs_of in Hrow.
    destruct (snd (perform_sync_run _ _ _ _ _ _ _)) as [[?|?]|?]; simpl in W.
    + destruct W as [u ->]. by rewrite find_log_update_eq, Hrow.
    + destruct W as [u ->]. by rewrite find_log_update_eq, Hrow.
    + by rewrite W, Hrow.
Qed.

(** A run that has finished, then a call of [cancel_sync]. *)
Lemma finished_run_is_final_witness :
  1 ∈ finished (execute iso_parse iso_format completed_course
                  (initial_system scenario_store)) /\
  find_log 1
    (logs_of (step iso_parse iso_format
                (execute iso_parse iso_format completed_course
                   (initial_system scenario_store)) (CallCancel t1)))
  = find_log 1
      (logs_of (execute iso_parse iso_format completed_course
                  (initial_system scenario_store))).
Proof.
  assert (1 ∈ finished (execute iso_parse iso_format completed_course
                          (initial_system scenario_store))) as H.
  { vm_compute. apply list_elem_of_here. }
  split; [exact H|].
  exact (proj1 (finished_run_is_final iso_parse iso_format)
           scenario_store completed_course (CallCancel t1) 1 H).
Defined.

(** C2 as stated fails: the run is cancelled while its perform step is in
    flight and its row carries [cancelled]; the perform step then goes on
    and the row carries [completed]. *)
Lemma cancelled_row_overwritten_counterexample :
  status_of 1 (course cancelled_course) = Some cancelled /\
  suspended (course cancelled_course)
    = [PerformAwaiting 1 {| act_start_time := t0; act_state := 1%nat |}] /\
  status_of 1 (course (cancelled_course ++ [Resume 0 t1 scenario_env]))
    = Some completed.
Proof. vm_compute. repeat split. Qed.

(** A run whose source answers 503 throughout: the perform step writes
    [failed] and re-raises, the background task writes [failed] again, and
    the run is finished. *)
Example failing_run :
  status_of 1 (course failing_course) = Some failed /\
  suspended (course failing_course) = [] /\
  finished (course failing_course) = [1] /\
  (log_duration_ms <$> find_log 1 (logs_of (course failing_course))) = Some None.
Proof. vm_compute. repeat split. Qed.

(** C4. [start_sync] reads the flag, awaits the insertion of the row, and
    only then sets the flag: a second call arriving during the await passes
    the check too. Both calls are accepted: two rows carry [running] and two
    background tasks are created. *)
Theorem racing_starts_both_accepted :
  map log_id (logs_of (course racing_starts)) = [1; 2] /\
  map log_status (logs_of (course racing_starts)) = [running; running] /\
  suspended (course racing_starts) = [TaskCreated 1; TaskCreated 2].
Proof. vm_compute. repeat split. Qed.

(** ** The reference reader and writer of stamps *)

Example iso_reader_writer :
  iso_parse "2023-01-02 00:00:00" = Some (mk_datetime 1672617600000000 None) /\
  iso_format (mk_datetime 1672617600000000 None) = "2023-01-02 00:00:00" /\
  iso_parse "2024-02-29T23:59:58+08:00"
    = Some (mk_datetime 1709251198000000 (Some 28800000000)) /\
  iso_format (mk_datetime 1709251198000000 (Some 28800000000))
    = "2024-02-29 23:59:58+08:00" /\
  iso_parse "2023-02-29 00:00:00" = None /\
  iso_parse "yesterday" = None.
Proof. vm_compute. repeat split. Qed.

(** * Further properties of the code *)

(** ** [_request]: when it returns, how much it sends and waits *)

Section RetryBounds.

Variable settings : Settings.
Variable send : nat -> attempt_outcome.

(** A loop that returns a body has met, after retried attempts only, a 2xx
    response carrying that body. *)
Lemma request_loop_returns (n : nat) : forall (a : nat) (last : option exn) (j : json),
  fst (request_loop settings send (seq a n) last) = Ok j ->
  exists k c text,
    (a <= k < a + n)%nat /\
    (forall i, (a <= i < k)%nat -> retried (send i) <> None) /\
    send k = Response c text (Some j) /\ is_success c = true.
Proof.
  induction n as [|n IH]; intros a last j H.
  - simpl in H. by destruct last.
  - cbn [seq request_loop] in H.
    destruct (send a) as [c text body|cause] eqn:Hs.
    + destruct (is_success c) eqn:Hc.
      * destruct body as [j'|]; [|done]. simpl in H. simplify_eq.
        exists a, c, text. repeat split; try lia; try done.
      * destruct ((400 <=? c) && (c <? 500)) eqn:H4; [done|].
        destruct (request_loop settings send (seq (S a) n) _) as [r io] eqn:Hl.
        simpl in H. subst r.
        destruct (IH (S a) _ j ltac:(by rewrite Hl)) as (k & c' & text' & Hk & Hall & Hk' & Hc').
        exists k, c', text'. repeat split; try lia; try done.
        intros i Hi. destruct (decide (i = a)) as [->|Hne].
        -- unfold retried. rewrite Hs, Hc, H4. done.
        -- apply Hall. lia.
    + destruct (request_loop settings send (seq (S a) n) _) as [r io] eqn:Hl.
      simpl in H. subst r.
      destruct (IH (S a) _ j ltac:(by rewrite Hl)) as (k & c' & text' & Hk & Hall & Hk' & Hc').
      exists k, c', text'. repeat split; try lia; try done.
      intros i Hi. destruct (decide (i = a)) as [->|Hne].
      -- unfold retried. by rewrite Hs.
      -- apply Hall. lia.
Qed.

(** An attempt the loop goes on after, in the trace. *)
Lemma retried_trace (a sent waits : nat) (io : list io_event) :
  sent_attempts io = seq (S a) sent ->
  slept_delays io = map (backoff_delay settings) (seq (S a) waits) ->
  (waits <= sent)%nat ->
  (waits <> 0%nat -> Z.of_nat (S a + waits) <= sync_retry_attempts settings) ->
  exists sent' waits' : nat,
    sent_attempts (Sent a :: wait_before_retry settings a ++ io) = seq a sent' /\
    slept_delays (Sent a :: wait_before_retry settings a ++ io)
      = map (backoff_delay settings) (seq a waits') /\
    sent' = S sent /\ (waits' <= sent')%nat /\
    (waits' <> 0%nat -> Z.of_nat (a + waits') <= sync_retry_attempts settings).
Proof.
  intros Hs Hw Hle Hbound. unfold wait_before_retry.
  destruct (Z.of_nat a <? sync_retry_attempts settings) eqn:E.
  - apply Z.ltb_lt in E. exists (S sent), (S waits).
    unfold sent_attempts, slept_delays in *. cbn. rewrite Hs, Hw.
    repeat split; try done; try lia.
  - apply Z.ltb_ge in E.
    assert (waits = 0%nat) as ->.
    { destruct (decide (waits = 0%nat)) as [|Hne]; [done|]. specialize (Hbound Hne). lia. }
    exists (S sent), 0%nat.
    unfold sent_attempts, slept_delays in *. cbn. rewrite Hs, Hw.
    repeat split; try done; lia.
Qed.

(** The requests of a loop are those of consecutive attempts; the waits
    follow the first requests, each with the delay of its attempt, and only
    attempts below the configured count are waited after. *)
Lemma request_loop_trace (n : nat) : forall (a : nat) (last : option exn),
  exists sent waits : nat,
    sent_attempts (snd (request_loop settings send (seq a n) last)) = seq a sent /\
    slept_delays (snd (request_loop settings send (seq a n) last))
      = map (backoff_delay settings) (seq a waits) /\
    (sent <= n)%nat /\ (waits <= sent)%nat /\
    (n <> 0%nat -> sent <> 0%nat) /\
    (waits <> 0%nat -> Z.of_nat (a + waits) <= sync_retry_attempts settings).
Proof.
  induction n as [|n IH]; intros a last.
  - exists 0%nat, 0%nat. simpl. repeat split; try done; lia.
  - assert (exists sent waits : nat,
           sent_attempts [Sent a] = seq a sent /\
           slept_delays [Sent a] = map (backoff_delay settings) (seq a waits) /\
           (sent <= S n)%nat /\ (waits <= sent)%nat /\ (S n <> 0%nat -> sent <> 0%nat) /\
           (waits <> 0%nat -> Z.of_nat (a + waits) <= sync_retry_attempts settings))
      as Hstop.
    { exists 1%nat, 0%nat. simpl. repeat split; try done; lia. }
    assert (forall last',
      exists sent waits : nat,
        let io := Sent a :: wait_before_retry settings a
                    ++ snd (request_loop settings send (seq (S a) n) last') in
        sent_attempts io = seq a sent /\
        slept_delays io = map (backoff_delay settings) (seq a waits) /\
        (sent <= S n)%nat /\ (waits <= sent)%nat /\ (S n <> 0%nat -> sent <> 0%nat) /\
        (waits <> 0%nat -> Z.of_nat (a + waits) <= sync_retry_attempts settings))
      as Hgo.
    { intros last'. destruct (IH (S a) last') as (s & m & Hs & Hm & Hsn & Hms & _ & Hb).
      destruct (retried_trace a s m _ Hs Hm Hms Hb) as (s' & m' & Hs' & Hm' & -> & Hle & Hb').
      exists (S s), m'. cbn zeta. repeat split; try done; lia. }
    cbn [seq request_loop].
    destruct (send a) as [c text body|cause].
    + destruct (is_success c).
      * by destruct body.
      * destruct ((400 <=? c) && (c <? 500)); [done|].
        specialize (Hgo (Some (APIException (HttpError c text) (Some c)))).
        by destruct (request_loop settings send (seq (S a) n) _) as [r io].
    + specialize (Hgo (Some (APIException (RequestFailed cause) None))).
      by destruct (request_loop settings send (seq (S a) n) _) as [r io].
Qed.

End RetryBounds.

(** The delays of the attempts [a], ..., [a + m - 1] add up to
    [delay * 2^a * (2^m - 1)]. *)
Lemma backoff_sum (settings : Settings) (m : nat) : forall a : nat,
  (foldr Qplus 0 (map (backoff_delay settings) (seq a m))
   == sync_retry_delay settings * inject_Z (2 ^ Z.of_nat a * (2 ^ Z.of_nat m - 1)))%Q.
Proof.
  induction m as [|m IH]; intros a.
  - simpl. rewrite Z.mul_0_r. unfold inject_Z. by rewrite Qmult_0_r.
  - cbn [seq map foldr]. rewrite IH. unfold backoff_delay.
    rewrite <- Qmult_plus_distr_r, <- inject_Z_plus.
    replace (2 ^ Z.of_nat a + 2 ^ Z.of_nat (S a) * (2 ^ Z.of_nat m - 1))
      with (2 ^ Z.of_nat a * (2 ^ Z.of_nat (S m) - 1)); [done|].
    rewrite !Nat2Z.inj_succ, !Z.pow_succ_r by lia. lia.
Qed.

(** X1. [_request] returns a decoded body exactly when some attempt within
    the configured count, reached after attempts that were each retried (a
    network failure or a response that is neither 2xx nor 4xx), gets a 2xx
    response whose body decodes; the body returned is that one. *)
Theorem request_returns_iff (settings : Settings) (send : nat -> attempt_outcome)
    (j : json) :
  fst (_request settings send) = Ok j <->
  exists (k : nat) (c : Z) (text : string),
    Z.of_nat k <= sync_retry_attempts settings /\
    (forall i, (i < k)%nat -> retried (send i) <> None) /\
    send k = Response c text (Some j) /\ is_success c = true.
Proof.
  split.
  - unfold _request, range. intros H.
    apply request_loop_returns in H as (k & c & text & Hk & Hall & Hs & Hc).
    exists k, c, text. repeat split; try done; [lia|].
    intros i Hi. apply Hall. lia.
  - intros (k & c & text & Hk & Hall & Hs & Hc).
    destruct (request_after_retries settings send k Hk Hall) as (last & _ & ->).
    simpl. by rewrite Hs, Hc.
Qed.

(** X2. What [_request] costs. With a negative retry count nothing is sent
    and the final [raise last_exception] raises a [TypeError]. With a count
    of at least zero the requests are those of the attempts 0, 1, ... in
    order, at least one and at most the count plus one; and when the base
    delay is not negative either, the time spent waiting is at most
    [delay * (2^count - 1)]. *)
Theorem request_effort (settings : Settings) (send : nat -> attempt_outcome) :
  (sync_retry_attempts settings < 0 ->
     _request settings send
     = (Raise (TypeError "exceptions must derive from BaseException"), []))
  /\
  (0 <= sync_retry_attempts settings ->
     exists sent : nat,
       sent_attempts (snd (_request settings send)) = seq 0 sent /\
       1 <= Z.of_nat sent <= sync_retry_attempts settings + 1 /\
       ((0 <= sync_retry_delay settings)%Q ->
        (total_wait (snd (_request settings send))
         <= sync_retry_delay settings
            * inject_Z (2 ^ sync_retry_attempts settings - 1))%Q)).
Proof.
  split.
  - intros Hneg. unfold _request, range.
    by replace (Z.to_nat (sync_retry_attempts settings + 1)) with 0%nat by lia.
  - intros Hcount. unfold _request, range.
    destruct (request_loop_trace settings send
                (Z.to_nat (sync_retry_attempts settings + 1)) 0 None)
      as (sent & waits & Hs & Hw & Hsn & Hws & Hpos & Hb).
    exists sent. split; [done|]. split; [lia|].
    intros Hdelay. unfold total_wait. rewrite Hw, backoff_sum.
    rewrite (Qmult_comm _ (inject_Z (2 ^ sync_retry_attempts settings - 1))),
            (Qmult_comm (sync_retry_delay settings)).
    apply Qmult_le_compat_r; [|done].
    rewrite <- Zle_Qle. simpl (2 ^ Z.of_nat 0). rewrite Z.mul_1_l.
    assert (Z.of_nat waits <= sync_retry_attempts settings) as Hle.
    { destruct (decide (waits = 0%nat)) as [->|Hne]; [lia|]. specialize (Hb Hne). lia. }
    pose proof (Z.pow_le_mono_r 2 (Z.of_nat waits) (sync_retry_attempts settings)).
    lia.
Qed.

(** The default settings, against a source that is down: four requests and
    seven seconds of waiting. *)
Lemma request_effort_witness :
  0 <= sync_retry_attempts default_settings /\
  (0 <= sync_retry_delay default_settings)%Q /\
  exists sent : nat,
    sent_attempts (snd (_request default_settings (fun _ => TransportError "down")))
      = seq 0 sent /\
    1 <= Z.of_nat sent <= sync_retry_attempts default_settings + 1 /\
    (total_wait (snd (_request default_settings (fun _ => TransportError "down")))
     <= sync_retry_delay default_settings
        * inject_Z (2 ^ sync_retry_attempts default_settings - 1))%Q.
Proof.
  assert (0 <= sync_retry_attempts default_settings) as H1 by (simpl; lia).
  assert (0 <= sync_retry_delay default_settings)%Q as H2 by (by vm_compute).
  split; [done|]. split; [done|].
  destruct (proj2 (request_effort default_settings (fun _ => TransportError "down")) H1)
    as (sent & Hs & Hn & Hwait).
  exists sent. split; [done|]. split; [done|]. exact (Hwait H2).
Defined.

(** X3. [health_check] reports the source healthy exactly when the request
    for page 1 of size 1 gets, at an attempt within the configured count and
    after retried attempts only, a 2xx response whose body is a response
    envelope. A 4xx response, a body that does not decode, a JSON value of
    another shape, or failures up to the last attempt all give [False]. *)
Theorem health_check_true_iff (settings : Settings) (src : source) :
  health_check settings src = true <->
  exists (k : nat) (c : Z) (text : string) (r : ExternalCompanyResponse),
    Z.of_nat k <= sync_retry_attempts settings /\
    (forall i, (i < k)%nat -> retried (src 1 1 i) <> None) /\
    src 1 1 k = Response c text (Some (Envelope r)) /\ is_success c = true.
Proof.
  unfold health_check, get_companies_page. split.
  - destruct (fst (_request settings (src 1 1))) as [[r|]|e] eqn:H; try done.
    intros _. unfold _request, range in H.
    apply request_loop_returns in H as (k & c & text & Hk & Hall & Hs & Hc).
    exists k, c, text, r. repeat split; try done; [lia|].
    intros i Hi. apply Hall. lia.
  - intros (k & c & text & r & Hk & Hall & Hs & Hc).
    destruct (request_after_retries settings (src 1 1) k Hk Hall) as (last & _ & ->).
    simpl. by rewrite Hs, Hc.
Qed.

(** ** Page counts and complete fetches *)

(** X4. Once the first page is fetched, [get_total_pages] raises
    [ZeroDivisionError] for a page size of zero, and for a positive page size
    returns the least number of pages that hold all [total] records:
    [(pages - 1) * page_size < total <= pages * page_size]. *)
Theorem get_total_pages_ceiling (settings : Settings) (src : source)
    (page_size : Z) (first_page : ExternalData) :
  get_companies_page settings src 1 page_size = Ok first_page ->
  (page_size = 0 -> get_total_pages settings src page_size = Raise ZeroDivisionError) /\
  (0 < page_size ->
     exists pages,
       get_total_pages settings src page_size = Ok pages /\
       (pages - 1) * page_size < total first_page <= pages * page_size).
Proof.
  intros Hfirst. unfold get_total_pages. rewrite Hfirst. simpl. unfold floordiv. split.
  - by intros ->.
  - intros Hpos.
    assert ((page_size =? 0) = false) as -> by (apply Z.eqb_neq; lia).
    eexists. split; [done|].
    pose proof (Z.div_mod (total first_page + page_size - 1) page_size ltac:(lia)).
    pose proof (Z.mod_pos_bound (total first_page + page_size - 1) page_size Hpos).
    nia.
Qed.

(** Six records in pages of four: two pages. *)
Lemma get_total_pages_ceiling_witness :
  let records := map (fun k => sample_company (Z.of_nat k) None) (seq 1 6) in
  exists first_page,
    get_companies_page default_settings (paged_source records) 1 4 = Ok first_page /\
    total first_page = 6 /\
    exists pages,
      get_total_pages default_settings (paged_source records) 4 = Ok pages /\
      (pages - 1) * 4 < total first_page <= pages * 4.
Proof.
  intros records. eexists. split; [reflexivity|]. split; [reflexivity|].
  exact (proj2 (get_total_pages_ceiling default_settings (paged_source records) 4 _
                  eq_refl) ltac:(lia)).
Defined.

(** A [gather] that returns has seen no awaitable raise. *)
Lemma gather_run_returns {A} (outcomes : list (result A)) (completion : list nat) :
  forall slots slots',
    gather_run outcomes completion slots = Ok slots' ->
    forall i e, i ∈ completion -> outcomes !! i <> Some (Raise e).
Proof.
  induction completion as [|i rest IH]; intros slots slots' Hrun j e Hj.
  - by apply elem_of_nil in Hj.
  - simpl in Hrun. apply elem_of_cons in Hj as [->|Hj].
    + destruct (outcomes !! i) as [[a|e']|]; done.
    + destruct (outcomes !! i) as [[a|e']|]; try done; by eapply IH.
Qed.

Lemma all_returned {A} (outcomes : list (result A)) :
  (forall i e, outcomes !! i <> Some (Raise e)) ->
  exists values, outcomes = map Ok values.
Proof.
  induction outcomes as [|[a|e] outcomes IH]; intros H.
  - by exists [].
  - destruct IH as [values ->]; [intros i e; apply (H (S i) e)|]. by exists (a :: values).
  - by destruct (H 0%nat e).
Qed.

Lemma gather_returns {A} (outcomes : list (result A)) (completion : list nat)
    (values : list A) :
  gather outcomes completion = Ok values -> outcomes = map Ok values.
Proof.
  intros H.
  destruct (all_returned outcomes) as [values' ->].
  { intros i e Hi. unfold gather in H.
    destruct (gather_run _ _ _) as [slots|e'] eqn:Hrun; [|done].
    apply (gather_run_returns _ _ _ _ Hrun i e); [|done].
    apply elem_of_app. right. apply elem_of_seq.
    apply lookup_lt_Some in Hi. lia. }
  rewrite gather_all_ok in H. by simplify_eq.
Qed.

(** X5. [get_all_companies] never returns a partial list: when it returns,
    the count of pages was learnt, the fetch of every page from 1 to that
    count succeeded, and the list is the rows of these pages in the order of
    the page numbers. *)
Theorem get_all_companies_complete (settings : Settings) (src : source)
    (completion : list nat) (page_size : Z) (fetched : list ExternalCompany) :
  get_all_companies settings src completion page_size = Ok fetched ->
  exists (pages : Z) (page : Z -> ExternalData),
    get_total_pages settings src page_size = Ok pages /\
    (forall page_num, 1 <= page_num <= pages ->
       get_companies_page settings src page_num page_size = Ok (page page_num)) /\
    fetched = concat (map (fun page_num => rows (page page_num)) (page_numbers pages)).
Proof.
  unfold get_all_companies. intros H.
  destruct (get_total_pages settings src page_size) as [pages|e]; [|done].
  cbn [bind] in H.
  destruct (gather _ completion) as [results|e] eqn:Hg; [|done].
  cbn [bind] in H. simplify_eq. apply gather_returns in Hg.
  set (page := fun page_num =>
         match get_companies_page settings src page_num page_size with
         | Ok page_data => page_data
         | Raise _ => {| total_page := 0; total := 0; rows := [] |}
         end).
  assert (forall page_num, In page_num (page_numbers pages) ->
            get_companies_page settings src page_num page_size = Ok (page page_num))
    as Hfetch.
  { intros p Hp. unfold page.
    destruct (get_companies_page settings src p page_size) as [d|e] eqn:Hd; [done|].
    exfalso.
    assert (In (Raise e) (map Ok results)) as Hin.
    { rewrite <- Hg. apply in_map_iff. exists p. by rewrite Hd. }
    apply in_map_iff in Hin as (x & Hx & _). done. }
  exists pages, page. split; [done|]. split.
  - intros p Hp. apply Hfetch. unfold page_numbers. apply in_map_iff.
    exists (Z.to_nat p). split; [lia|]. apply in_seq. lia.
  - f_equal.
    assert (map Ok results
            = map Ok (map (fun page_num => rows (page page_num)) (page_numbers pages)))
      as Heq.
    { rewrite <- Hg, map_map. apply map_ext_in. intros p Hp. by rewrite (Hfetch p Hp). }
    apply (f_equal (omap (fun r : result (list ExternalCompany) =>
                            match r with Ok a => Some a | Raise _ => None end))) in Heq.
    assert (forall l : list (list ExternalCompany),
              omap (fun r : result (list ExternalCompany) =>
                      match r with Ok a => Some a | Raise _ => None end) (map Ok l) = l)
      as Hback.
    { induction l as [|a l IH]; [done|]. cbn. by rewrite IH. }
    by rewrite !Hback in Heq.
Qed.

(** Six records fetched in pages of two, the last page finishing first. *)
Lemma get_all_companies_complete_witness :
  let records := map (fun k => sample_company (Z.of_nat k) None) (seq 1 6) in
  get_all_companies default_settings (paged_source records) [2%nat; 0%nat; 1%nat] 2
    = Ok records /\
  exists (pages : Z) (page : Z -> ExternalData),
    get_total_pages default_settings (paged_source records) 2 = Ok pages /\
    (forall page_num, 1 <= page_num <= pages ->
       get_companies_page default_settings (paged_source records) page_num 2
       = Ok (page page_num)) /\
    records = concat (map (fun page_num => rows (page page_num)) (page_numbers pages)).
Proof.
  intros records.
  assert (get_all_companies default_settings (paged_source records)
            [2%nat; 0%nat; 1%nat] 2 = Ok records) as H by reflexivity.
  split; [exact H|].
  exact (get_all_companies_complete default_settings (paged_source records)
           [2%nat; 0%nat; 1%nat] 2 records H).
Defined.

(** ** The latest run and repeated calls *)

(** The scan of [ORDER BY id DESC LIMIT 1], from any row kept so far. *)
Lemma latest_scan (logs : list SyncLog) : forall best : option SyncLog,
  match foldl (fun best r =>
                 match best with
                 | Some b => if log_id b <? log_id r then Some r else Some b
                 | None => Some r
                 end) best logs with
  | None => best = None /\ logs = []
  | Some row =>
      (best = Some row \/ row ∈ logs) /\
      (forall b, best = Some b -> log_id b <= log_id row) /\
      (forall r, r ∈ logs -> log_id r <= log_id row)
  end.
Proof.
  induction logs as [|r logs IH]; intros best.
  - simpl. destruct best as [b|]; [|done]. split; [by left|]. split.
    + by intros b' [= ->].
    + intros r Hr. by apply elem_of_nil in Hr.
  - cbn [foldl].
    match goal with |- context [foldl ?f ?acc logs] => specialize (IH acc) end.
    destruct (foldl _ _ logs) as [row|].
    + destruct IH as (Hin & Hbest & Hall). split; [|split].
      * destruct best as [b|].
        -- destruct (log_id b <? log_id r); destruct Hin as [Hin|Hin];
             simplify_eq; auto using list_elem_of_here, list_elem_of_further.
        -- destruct Hin as [Hin|Hin];
             simplify_eq; auto using list_elem_of_here, list_elem_of_further.
      * intros b ->. destruct (log_id b <? log_id r) eqn:E.
        -- apply Z.ltb_lt in E. specialize (Hbest r eq_refl). lia.
        -- by apply Hbest.
      * intros r' Hr'. apply elem_of_cons in Hr' as [->|Hr']; [|by apply Hall].
        destruct best as [b|].
        -- destruct (log_id b <? log_id r) eqn:E.
           ++ by apply Hbest.
           ++ apply Z.ltb_ge in E. specialize (Hbest b eq_refl). lia.
        -- by apply Hbest.
    + destruct IH as [IH _]. by destruct best as [b|]; [destruct (log_id b <? log_id r)|].
Qed.

Lemma elem_of_max_log_id (logs : list SyncLog) (r : SyncLog) :
  r ∈ logs -> log_id r <= max_log_id logs.
Proof.
  unfold max_log_id. induction logs as [|r' logs IH]; intros H.
  - by apply elem_of_nil in H.
  - simpl. apply elem_of_cons in H as [->|H]; [lia|]. specialize (IH H). lia.
Qed.

(** The row a call of [start_sync] appends is the latest one. *)
Lemma latest_log_appended (logs : list SyncLog) (r : SyncLog) :
  max_log_id logs < log_id r -> latest_log (logs ++ [r]) = Some r.
Proof.
  intros Hfresh. unfold latest_log.
  pose proof (latest_scan (logs ++ [r]) None) as H.
  destruct (foldl _ None (logs ++ [r])) as [row|].
  - destruct H as ([H|H] & _ & Hall); [done|].
    apply elem_of_app in H as [H|H].
    + apply elem_of_max_log_id in H.
      assert (log_id r <= log_id row) by (apply Hall, elem_of_app; right; apply list_elem_of_here).
      lia.
    + apply list_elem_of_singleton in H. by subst.
  - destruct H as [_ H]. by destruct logs.
Qed.

(** X6. [get_sync_status] reads only. It returns nothing exactly when table
    [sync_logs] is empty; otherwise it returns a row of the table whose id
    is the greatest of all. *)
Theorem get_sync_status_latest (w : World) :
  fst (get_sync_status w) = w /\
  match snd (get_sync_status w) with
  | Ok None => sync_logs (store w) = []
  | Ok (Some row) =>
      row ∈ sync_logs (store w) /\
      forall r, r ∈ sync_logs (store w) -> log_id r <= log_id row
  | Raise _ => False
  end.
Proof.
  split; [done|]. unfold get_sync_status, and_then, read_store, ret, latest_log. simpl.
  pose proof (latest_scan (sync_logs (store w)) None) as H.
  destruct (foldl _ None (sync_logs (store w))) as [row|].
  - destruct H as ([H|H] & _ & Hall); done.
  - by destruct H.
Qed.

(** The two calls on an idle service. *)
Lemma cancel_sync_idle (now : datetime) (w : World) :
  is_running (deref (heap w) (_sync_state w)) = false ->
  cancel_sync now w = (w, Ok false).
Proof.
  intros Hflag.
  unfold cancel_sync, cancel_sync_begin, and_then, get_sync_state, read_state.
  simpl. by rewrite Hflag.
Qed.

Lemma start_sync_idle (now : datetime) (w : World) :
  is_running (deref (heap w) (_sync_state w)) = false ->
  exists sync_log w',
    start_sync now w = (w', Ok sync_log) /\
    sync_log = started_row now (sync_logs (store w)) /\
    sync_logs (store w') = sync_logs (store w) ++ [sync_log] /\
    companies (store w') = companies (store w) /\
    is_running (deref (heap w') (_sync_state w')) = true /\
    current_sync_id (deref (heap w') (_sync_state w')) = Some (log_id sync_log).
Proof.
  intros Hflag.
  unfold start_sync, start_sync_begin, and_then, get_sync_state, read_state.
  simpl. rewrite Hflag. simpl. eexists _, _. split; [reflexivity|].
  split; [reflexivity|]. simpl. repeat split; by rewrite deref_new.
Qed.

(** X7. The run [start_sync] has just accepted is what [get_sync_status]
    reports next: the new row, [running], with zero counts, whatever rows
    the table held before. *)
Theorem get_sync_status_after_start (now : datetime) (w : World) :
  is_running (deref (heap w) (_sync_state w)) = false ->
  exists sync_log w',
    start_sync now w = (w', Ok sync_log) /\
    get_sync_status w' = (w', Ok (Some sync_log)) /\
    log_status sync_log = running /\
    log_total_records sync_log = Some 0 /\
    log_success_records sync_log = Some 0 /\
    log_failed_records sync_log = Some 0 /\
    log_end_time sync_log = None.
Proof.
  intros Hflag.
  destruct (start_sync_idle now w Hflag) as (sync_log & w' & Hstart & Hrow & Hlogs & _).
  exists sync_log, w'. split; [done|]. split; [|by subst sync_log].
  unfold get_sync_status, and_then, read_store, ret. simpl. rewrite Hlogs.
  rewrite latest_log_appended; [done|]. subst sync_log. simpl. lia.
Qed.

Lemma get_sync_status_after_start_witness :
  is_running (deref (heap (initial_world scenario_store))
                    (_sync_state (initial_world scenario_store))) = false /\
  exists sync_log w',
    start_sync t0 (initial_world scenario_store) = (w', Ok sync_log) /\
    get_sync_status w' = (w', Ok (Some sync_log)) /\
    log_status sync_log = running /\
    log_total_records sync_log = Some 0 /\
    log_success_records sync_log = Some 0 /\
    log_failed_records sync_log = Some 0 /\
    log_end_time sync_log = None.
Proof.
  assert (is_running (deref (heap (initial_world scenario_store))
            (_sync_state (initial_world scenario_store))) = false) as H by reflexivity.
  split; [exact H|].
  exact (get_sync_status_after_start t0 (initial_world scenario_store) H).
Defined.

(** X8. Cancelling is not repeatable but restarting is possible: after a
    [cancel_sync] that returned [True], a second [cancel_sync] returns
    [False] and changes nothing, and a [start_sync] is accepted, its run
    getting an id greater than every id in the table. *)
Theorem cancel_sync_twice (now later : datetime) (w : World) :
  is_running (deref (heap w) (_sync_state w)) = true ->
  exists w',
    cancel_sync now w = (w', Ok true) /\
    cancel_sync later w' = (w', Ok false) /\
    exists sync_log w'',
      start_sync later w' = (w'', Ok sync_log) /\
      forall r, r ∈ sync_logs (store w) -> log_id r < log_id sync_log.
Proof.
  intros Hflag. eexists. split; [by apply cancel_sync_running|].
  match goal with |- cancel_sync later ?w1 = _ /\ _ =>
    assert (is_running (deref (heap w1) (_sync_state w1)) = false) as Hclear
      by apply deref_cleared;
    assert (max_log_id (sync_logs (store w1)) = max_log_id (sync_logs (store w))) as Hmax;
    [|generalize dependent w1; intros w' Hclear Hmax]
  end.
  { simpl. destruct (truthy_id _); [|done]. simpl. apply max_log_id_update. }
  split; [by apply cancel_sync_idle|].
  destruct (start_sync_idle later w' Hclear) as (sync_log & w'' & Hstart & Hrow & _).
  exists sync_log, w''. split; [done|].
  intros r Hr. apply elem_of_max_log_id in Hr. subst sync_log. simpl. lia.
Qed.

Lemma cancel_sync_twice_witness :
  is_running (deref (heap scenario_started) (_sync_state scenario_started)) = true /\
  exists w',
    cancel_sync t1 scenario_started = (w', Ok true) /\
    cancel_sync t1 w' = (w', Ok false) /\
    exists sync_log w'',
      start_sync t1 w' = (w'', Ok sync_log) /\
      forall r, r ∈ sync_logs (store scenario_started) -> log_id r < log_id sync_log.
Proof.
  assert (is_running (deref (heap scenario_started) (_sync_state scenario_started))
          = true) as H by reflexivity.
  split; [exact H|]. exact (cancel_sync_twice t1 t1 scenario_started H).
Defined.

(** ** How a run ends *)

(** The duration of a run whose two clock readings are naive and in
    order. *)
Lemma elapsed_ms_forward (now started : datetime) :
  utcoffset now = None -> utcoffset started = None -> wall started <= wall now ->
  exists d, elapsed_ms now started = Ok d /\ 0 <= d.
Proof.
  intros Hn Hs Hle. unfold elapsed_ms, total_seconds_between. rewrite Hn, Hs.
  cbn [bind]. eexists. split; [reflexivity|]. unfold int_of_float.
  match goal with |- context [Qle_bool 0 ?q] =>
    assert (0 <= q)%Q as Hq; [|destruct (Qle_bool 0 q) eqn:E]
  end.
  - unfold Qle. simpl. lia.
  - rewrite <- (Qfloor_Z 0). by apply Qfloor_resp_le.
  - apply Qle_bool_iff in Hq. congruence.
Qed.

(** The same when the second reading is at least a millisecond before the
    first. *)
Lemma elapsed_ms_backward (now started : datetime) :
  utcoffset now = None -> utcoffset started = None -> wall now + 1000 <= wall started ->
  exists d, elapsed_ms now started = Ok d /\ d < 0.
Proof.
  intros Hn Hs Hle. unfold elapsed_ms, total_seconds_between. rewrite Hn, Hs.
  cbn [bind]. eexists. split; [reflexivity|]. unfold int_of_float.
  match goal with |- context [Qle_bool 0 ?q] =>
    assert (q <= inject_Z (-1))%Q as Hq; [|destruct (Qle_bool 0 q) eqn:E]
  end.
  - unfold Qle. simpl. lia.
  - apply Qle_bool_iff in E. pose proof (Qle_trans _ _ _ E Hq) as H. by vm_compute in H.
  - apply Qceiling_resp_le in Hq. rewrite Qceiling_Z in Hq. lia.
Qed.

(** A constructed update object is the one given, with counts and duration
    that are not negative. *)
Lemma new_SyncLogUpdate_valid (u u' : SyncLogUpdate) :
  new_SyncLogUpdate u = Ok u' ->
  u' = u /\ forall d, upd_duration_ms u = Some d -> 0 <= d.
Proof.
  intros H. split; [by apply new_SyncLogUpdate_Ok|].
  intros d Hd. unfold new_SyncLogUpdate, bind in H.
  repeat (match type of H with context [ge0 ?f ?o] => destruct (ge0 f o) eqn:? end;
          [|done]).
  match goal with Hg : ge0 "duration_ms" _ = _ |- _ => rewrite Hd in Hg; simpl in Hg end.
  destruct (0 <=? d) eqn:E; [|done]. by apply Z.leb_le.
Qed.

Section RunEnds.

Variable fromisoformat : string -> option datetime.
Variable isoformat : datetime -> string.

(** The [try] block when it returns: the duration was not negative and the
    row of the run is assigned the [completed] update made of the
    summary. *)
Lemma perform_sync_try_returns (env : Environment) (now : datetime) (act : Activation)
    (sync_log_id : Z) (w w1 : World) (summary : Summary) :
  perform_sync_try fromisoformat isoformat env now act sync_log_id w = (w1, Ok summary) ->
  exists d,
    elapsed_ms now (act_start_time act) = Ok d /\ 0 <= d /\
    sync_logs (store w1)
    = update_logs sync_log_id completed (completed_update now summary d)
        (sync_logs (store w)).
Proof.
  unfold perform_sync_try. intros H.
  apply and_then_Ok in H as (pages & wa & Hpages & H).
  apply lift_Ok in Hpages as [_ ->].
  apply and_then_Ok in H as (first_page & wb & Hfirst & H).
  apply lift_Ok in Hfirst as [_ ->].
  apply and_then_Ok in H as ([] & wc & Hwrite & H).
  assert (working w wc) as Hc.
  { replace wc with (fst (write_state (act_state act)
                            (set_totals (total first_page) pages) w))
      by by rewrite Hwrite.
    by apply write_state_working. }
  apply and_then_Ok in H as (fetched & wd & Hall & H).
  apply lift_Ok in Hall as [_ ->].
  apply and_then_Ok in H as (existing & we & Hexisting & H).
  assert (we = wc) as ->.
  { unfold _get_existing_companies, and_then, read_store, ret in Hexisting.
    by simplify_eq. }
  apply and_then_Ok in H as ([s f] & wf & Hbatches & H).
  assert (working wc wf) as Hf.
  { replace wf with (fst (process_batches fromisoformat isoformat now (act_state act)
                            fetched (index_by_id existing)
                            (batch_starts (length fetched)) (0, 0) wc))
      by by rewrite Hbatches.
    apply process_batches_working. }
  apply and_then_Ok in H as (d & wg & Hd & H).
  apply lift_Ok in Hd as [Hd ->].
  apply and_then_Ok in H as (update & wh & Hu & H).
  apply lift_Ok in Hu as [Hu ->].
  apply new_SyncLogUpdate_valid in Hu as [-> Hvalid].
  apply and_then_Ok in H as ([] & wi & Hupd & H).
  unfold ret in H. simplify_eq.
  unfold _update_sync_log, and_then, read_store, write_store in Hupd.
  simpl in Hupd. simplify_eq.
  exists d. split; [done|]. split; [by apply Hvalid|]. simpl.
  destruct Hc as [Hc _], Hf as [Hf _]. by rewrite Hf, Hc.
Qed.

(** The handler of [perform_sync] when the duration is not negative: it
    assigns the [failed] update and yields the exception to re-raise. *)
Lemma perform_sync_handler (now : datetime) (act : Activation) (sync_log_id d : Z)
    (e : exn) (w : World) :
  elapsed_ms now (act_start_time act) = Ok d -> 0 <= d ->
  and_then (lift (elapsed_ms now (act_start_time act)))
    (fun duration_ms =>
       and_then (lift (new_SyncLogUpdate
          {| upd_end_time := Some now; upd_status := Some failed;
             upd_total_records := None; upd_success_records := None;
             upd_failed_records := None;
             upd_error_message := Some (str_of_exn e);
             upd_duration_ms := Some duration_ms |}))
         (fun update =>
            and_then (_update_sync_log sync_log_id update)
              (fun _ => ret (Raise (A:=Summary) e)))) w
  = ({| store := {| companies := companies (store w);
                    sync_logs := update_logs sync_log_id failed
                                   (failed_update now e (Some d)) (sync_logs (store w)) |};
        heap := heap w; _sync_state := _sync_state w |},
     Ok (Raise e)).
Proof.
  intros Hd Hpos. unfold and_then, lift. rewrite Hd.
  unfold new_SyncLogUpdate. cbn [upd_total_records upd_success_records
    upd_failed_records upd_duration_ms ge0 bind].
  assert ((0 <=? d) = true) as -> by by apply Z.leb_le.
  reflexivity.
Qed.

(** The perform step under a clock that has not gone back: it always gets
    to its terminal write. *)
Lemma perform_sync_run_returns (env : Environment) (now : datetime) (act : Activation)
    (sync_log_id d : Z) (w : World) :
  elapsed_ms now (act_start_time act) = Ok d -> 0 <= d ->
  exists w1 outcome,
    perform_sync_run fromisoformat isoformat env now act sync_log_id w = (w1, Ok outcome) /\
    _sync_state w1 = _sync_state w /\
    sync_logs (store w1)
    = match outcome with
      | Ok summary =>
          update_logs sync_log_id completed (completed_update now summary d)
            (sync_logs (store w))
      | Raise e =>
          update_logs sync_log_id failed (failed_update now e (Some d))
            (sync_logs (store w))
      end.
Proof.
  intros Hd Hpos. unfold perform_sync_run, try_except.
  pose proof (perform_sync_try_writes fromisoformat isoformat env now act sync_log_id w)
    as Htry.
  rewrite (and_then_ret (perform_sync_try fromisoformat isoformat env now act sync_log_id)
             (fun summary => Ok summary) w).
  destruct (perform_sync_try _ _ _ _ _ _ w) as [w1 [summary|e]] eqn:Hbody; cbn [fst snd].
  - destruct Htry as (S & _ & _).
    apply perform_sync_try_returns in Hbody as (d' & Hd' & _ & Hlogs).
    assert (d' = d) as -> by congruence.
    exists w1, (Ok summary). by repeat split.
  - destruct Htry as (S & _ & W). cbn [fst snd] in S, W.
    rewrite (perform_sync_handler now act sync_log_id d e w1 Hd Hpos).
    eexists _, (Raise e). split; [reflexivity|]. simpl. by rewrite W.
Qed.

(** The whole call under such a clock. *)
Lemma perform_sync_forward (env : Environment) (started now : datetime)
    (sync_log_id d : Z) (w : World) :
  elapsed_ms now started = Ok d -> 0 <= d ->
  exists w1 outcome,
    perform_sync fromisoformat isoformat env started now sync_log_id w
    = ({| store := store w1;
          heap := <[_sync_state w :=
                      set_is_running false (deref (heap w1) (_sync_state w))]> (heap w1);
          _sync_state := _sync_state w |}, outcome) /\
    sync_logs (store w1)
    = match outcome with
      | Ok summary =>
          update_logs sync_log_id completed (completed_update now summary d)
            (sync_logs (store w))
      | Raise e =>
          update_logs sync_log_id failed (failed_update now e (Some d))
            (sync_logs (store w))
      end.
Proof.
  intros Hd Hpos.
  destruct (perform_sync_run_returns env now
              {| act_start_time := started; act_state := _sync_state w |}
              sync_log_id d w Hd Hpos) as (w1 & outcome & Hrun & Hstate & Hlogs).
  exists w1, outcome. split; [|done].
  unfold perform_sync, perform_sync_enter.
  unfold and_then at 1. unfold and_then at 1. unfold get_sync_state, ret.
  unfold and_then at 1. rewrite Hrun.
  unfold perform_sync_exit, and_then, write_state, set_sync_state, lift.
  reflexivity.
Qed.

End RunEnds.



Lemma start_sync_busy (now : datetime) (w : World) :
  is_running (deref (heap w) (_sync_state w)) = true ->
  start_sync now w
  = (w, Raise (SyncInProgressException "Synchronization is already in progress")).
Proof.
  intros Hflag.
  unfold start_sync, start_sync_begin, and_then, get_sync_state, read_state.
  simpl. by rewrite Hflag.
Qed.

(** X10. When the clock is set back by a millisecond or more between the
    start of [perform_sync] and its end, the duration is negative, the
    update object is refused on either path, and the call raises out of its
    handler: no terminal row is written and the flag is not cleared. The
    write of the background task then marks the run [failed] but leaves the
    flag set, so that [start_sync] goes on refusing. *)
Theorem perform_sync_clock_set_back
    (fromisoformat : string -> option datetime) (isoformat : datetime -> string)
    (env : Environment) (started now later : datetime) (sync_log_id : Z) (w : World) :
  utcoffset started = None -> utcoffset now = None -> wall now + 1000 <= wall started ->
  is_running (deref (heap w) (_sync_state w)) = true ->
  exists w1,
    perform_sync fromisoformat isoformat env started now sync_log_id w
    = (w1, Raise (ValidationError "duration_ms")) /\
    sync_logs (store w1) = sync_logs (store w) /\
    is_running (deref (heap w1) (_sync_state w1)) = true /\
    exists w2,
      background_failure later sync_log_id (ValidationError "duration_ms") w1
      = (w2, Ok tt) /\
      sync_logs (store w2)
      = update_logs sync_log_id failed
          (failed_update later (ValidationError "duration_ms") None)
          (sync_logs (store w)) /\
      start_sync later w2
      = (w2, Raise (SyncInProgressException "Synchronization is already in progress")).
Proof.
  intros Hs Hn Hback Hflag.
  destruct (elapsed_ms_backward now started Hn Hs Hback) as (d & Hd & Hneg).
  set (act := {| act_start_time := started; act_state := _sync_state w |}).
  pose proof (perform_sync_try_writes fromisoformat isoformat env now act sync_log_id w)
    as Htry.
  assert (exists w1,
    perform_sync_run fromisoformat isoformat env now act sync_log_id w
    = (w1, Raise (ValidationError "duration_ms")) /\
    sync_logs (store w1) = sync_logs (store w) /\
    _sync_state w1 = _sync_state w /\
    forall l, is_running (deref (heap w1) l) = is_running (deref (heap w) l))
    as (w1 & Hrun & Hlogs & Hstate & Hflags).
  { unfold perform_sync_run, try_except.
    rewrite (and_then_ret (perform_sync_try fromisoformat isoformat env now act sync_log_id)
               (fun summary => Ok summary) w).
    destruct (perform_sync_try _ _ _ _ _ _ w) as [w1 [summary|e]] eqn:Hbody;
      cbn [fst snd].
    - apply perform_sync_try_returns in Hbody as (d' & Hd' & Hpos & _).
      simpl in Hd'. rewrite Hd in Hd'. simplify_eq. lia.
    - destruct Htry as (S & F & W). cbn [fst snd] in S, F, W.
      exists w1. split; [|split; [done|split; [done|apply F]]].
      unfold and_then, lift. cbn [act_start_time act]. rewrite Hd.
      unfold new_SyncLogUpdate. cbn [upd_total_records upd_success_records
        upd_failed_records upd_duration_ms ge0 bind].
      by assert ((0 <=? d) = false) as -> by (apply Z.leb_gt; lia). }
  exists w1. split.
  { unfold perform_sync, perform_sync_enter.
    unfold and_then at 1. unfold and_then at 1. unfold get_sync_state, ret.
    unfold and_then at 1. fold act. by rewrite Hrun. }
  split; [done|].
  assert (is_running (deref (heap w1) (_sync_state w1)) = true) as Hflag1
    by (by rewrite Hstate, Hflags).
  split; [done|].
  eexists. split; [reflexivity|]. cbn [store sync_logs]. split; [by rewrite Hlogs|].
  apply start_sync_busy. exact Hflag1.
Qed.

(** The run of the scenario, the clock set back by five seconds. *)
Lemma perform_sync_clock_set_back_witness :
  utcoffset t1 = None /\ utcoffset t0 = None /\ wall t0 + 1000 <= wall t1 /\
  is_running (deref (heap scenario_started) (_sync_state scenario_started)) = true /\
  exists w1,
    perform_sync iso_parse iso_format scenario_env t1 t0 1 scenario_started
    = (w1, Raise (ValidationError "duration_ms")) /\
    sync_logs (store w1) = sync_logs (store scenario_started) /\
    is_running (deref (heap w1) (_sync_state w1)) = true /\
    exists w2,
      background_failure t0 1 (ValidationError "duration_ms") w1 = (w2, Ok tt) /\
      sync_logs (store w2)
      = update_logs 1 failed (failed_update t0 (ValidationError "duration_ms") None)
          (sync_logs (store scenario_started)) /\
      start_sync t0 w2
      = (w2, Raise (SyncInProgressException "Synchronization is already in progress")).
Proof.
  assert (utcoffset t1 = None) as H1 by reflexivity.
  assert (utcoffset t0 = None) as H2 by reflexivity.
  assert (wall t0 + 1000 <= wall t1) as H3 by (simpl; lia).
  assert (is_running (deref (heap scenario_started) (_sync_state scenario_started))
          = true) as H4 by reflexivity.
  split; [exact H1|]. split; [exact H2|]. split; [exact H3|]. split; [exact H4|].
  exact (perform_sync_clock_set_back iso_parse iso_format scenario_env t1 t0 t0 1
           scenario_started H1 H2 H3 H4).
Defined.

(** ** Writing table [companies] *)

Section Writes.

Variable isoformat : datetime -> string.



End Writes.



Section Updates.

Variable isoformat : datetime -> string.




End Updates.


(** ** The id column after a run *)

Lemma validate_CompanyCreate_Ok (c c' : CompanyCreate) :
  validate_CompanyCreate c = Ok c' -> c' = c.
Proof.
  unfold validate_CompanyCreate, bind. intros H.
  repeat match type of H with
         | context [match ?scrut with _ => _ end] => destruct scrut; try done
         end.
  by simplify_eq.
Qed.


Section IdColumn.

Variable fromisoformat : string -> option datetime.
Variable isoformat : datetime -> string.
Variable existing_by_id : gmap Z CompanyRow.

(** The ids of the records a run classifies as new. *)
Local Abbreviation new_ids records :=
  (map ext_id
     (filter (fun e => disposition fromisoformat existing_by_id e = Inserted) records)).







End IdColumn.

Section RunStore.

Variable fromisoformat : string -> option datetime.
Variable isoformat : datetime -> string.


End RunStore.



(** ** The transform and the fate of a record *)

Lemma parse_if_truthy_Ok (fromisoformat : string -> option datetime)
    (o : option string) (t : option datetime) :
  parse_if_truthy fromisoformat o = Ok t ->
  t = match o with
      | Some s => if String.eqb s "" then None else fromisoformat s
      | None => None
      end /\
  (truthy o = true -> is_Some t).
Proof.
  unfold parse_if_truthy, datetime_fromisoformat. destruct o as [s|]; simpl.
  - destruct (String.eqb s ""); simpl.
    + by intros [= <-].
    + destruct (fromisoformat s) as [d|]; simpl; [|done]. intros [= <-]. by split.
  - by intros [= <-].
Qed.

(** X14. What [to_internal] returns, when it returns: the id and the text
    fields of the record as they are, a name of 1 to 255 characters, an
    address that is never NULL (the empty string stands for a missing one),
    and each stamp read by [datetime.fromisoformat], an empty or missing
    stamp giving no time at all. *)
Theorem to_internal_result (fromisoformat : string -> option datetime)
    (e : ExternalCompany) (c : CompanyCreate) :
  to_internal fromisoformat e = Ok c ->
  id c = Some (ext_id e) /\
  company_name c = ext_company_name e /\
  (1 <= String.length (company_name c) <= 255)%nat /\
  owner c = ext_owner e /\ company_desc c = ext_company_desc e /\
  code c = ext_code e /\ uuid c = ext_uuid e /\
  address c = Some (default "" (ext_adress e)) /\
  create_time c = (if String.eqb (ext_create_time e) "" then None
                   else fromisoformat (ext_create_time e)) /\
  update_time c = match ext_update_time e with
                  | Some s => if String.eqb s "" then None else fromisoformat s
                  | None => None
                  end.
Proof.
  unfold to_internal. intros H.
  destruct (parse_if_truthy _ (Some _)) as [ct|] eqn:Hct; [|done].
  destruct (parse_if_truthy _ (ext_update_time e)) as [ut|] eqn:Hut; [|done].
  cbn [bind] in H.
  apply parse_if_truthy_Ok in Hct as [-> _]. apply parse_if_truthy_Ok in Hut as [-> _].
  pose proof (validate_CompanyCreate_Ok _ _ H) as ->.
  unfold validate_CompanyCreate, bind in H. cbn [company_name max_length] in H.
  destruct (1 <=? String.length (ext_company_name e))%nat eqn:E1; [|done].
  destruct (String.length (ext_company_name e) <=? 255)%nat eqn:E2; [|done].
  apply Nat.leb_le in E1, E2. cbn. repeat split; try done.
  destruct (ext_adress e) as [a|]; [|done]. simpl.
  destruct (String.eqb a "") eqn:E; [|done]. apply String.eqb_eq in E. by subst.
Qed.

(** A record of the source without an address. *)
Lemma to_internal_result_witness :
  let e := {| ext_id := 7; ext_company_name := "Company"; ext_owner := None;
              ext_company_desc := None; ext_adress := None;
              ext_create_time := "2023-01-01 00:00:00"; ext_update_time := Some "";
              ext_code := None; ext_uuid := None |} in
  exists c,
    to_internal iso_parse e = Ok c /\
    id c = Some 7 /\ address c = Some "" /\ update_time c = None /\
    create_time c = Some (mk_datetime 1672531200000000 None).
Proof.
  intros e. eexists. split; [reflexivity|].
  destruct (to_internal_result iso_parse e _ eq_refl)
    as (H1 & _ & _ & _ & _ & _ & _ & H2 & H3 & H4).
  split; [exact H1|]. split; [exact H2|]. split; [exact H4|]. exact H3.
Defined.

(** X15. What a second run does with a record. A record with an update
    stamp whose row was written from it by [_insert_companies] or
    [_update_companies] is skipped, provided the text written for the stamp
    reads back as the same time. A record without an update stamp, or one
    whose row carries no stamp or a stamp that cannot be read, is written
    again at every run. *)
Theorem resync_disposition
    (fromisoformat : string -> option datetime) (isoformat : datetime -> string)
    (existing_by_id : gmap Z CompanyRow) (e : ExternalCompany) (c : CompanyCreate)
    (existing : CompanyRow) :
  to_internal fromisoformat e = Ok c ->
  existing_by_id !! ext_id e = Some existing ->
  (forall d now key r,
     update_time c = Some d ->
     isoformat d <> "" -> fromisoformat (isoformat d) = Some d ->
     existing = inserted_row isoformat now key c \/
     existing = updated_row isoformat now c r ->
     disposition fromisoformat existing_by_id e = Skipped) /\
  (truthy (ext_update_time e) = false \/
   truthy (row_update_time existing) = false \/
   (exists s, row_update_time existing = Some s /\ fromisoformat s = None) ->
   disposition fromisoformat existing_by_id e = Updated).
Proof.
  intros Hint Hidx. split.
  - intros d now key r Hd Hne Hback Hrow.
    destruct (to_internal_result fromisoformat e c Hint)
      as (_ & _ & _ & _ & _ & _ & _ & _ & _ & Hut).
    rewrite Hd in Hut.
    destruct (ext_update_time e) as [s|] eqn:Hs; [|done].
    destruct (String.eqb s "") eqn:Es; [done|]. apply String.eqb_neq in Es.
    assert (row_update_time existing = Some (isoformat d)) as Hstamp.
    { destruct Hrow as [->| ->]; simpl; by rewrite Hd. }
    assert (_needs_update fromisoformat existing c e = Ok false) as Hskip.
    { apply needs_update_false_iff. exists s, (isoformat d), d, d.
      repeat split; try done. unfold datetime_le.
      destruct (utcoffset d); f_equal; apply Z.leb_refl. }
    unfold disposition. by rewrite Hint, Hidx, Hskip.
  - intros Hno.
    assert (_needs_update fromisoformat existing c e = Ok true) as Hupd.
    { apply needs_update_undetermined.
      destruct Hno as [H|[H|H]]; [by left|by right; left|by right; right; right]. }
    unfold disposition. by rewrite Hint, Hidx, Hupd.
Qed.

(** A stamped record is skipped once written; without the stamp it is
    updated again. *)
Lemma resync_disposition_witness :
  let e := sample_company 5 (Some "2023-06-01 00:00:00") in
  let d := mk_datetime 1685577600000000 None in
  exists c,
    to_internal iso_parse e = Ok c /\
    update_time c = Some d /\
    iso_format d <> "" /\ iso_parse (iso_format d) = Some d /\
    disposition iso_parse {[ 5 := inserted_row iso_format t0 5 c ]} e = Skipped.
Proof.
  intros e d. eexists. split; [reflexivity|].
  assert (iso_format d <> "") as H1 by (by vm_compute).
  assert (iso_parse (iso_format d) = Some d) as H2 by (vm_compute; reflexivity).
  split; [reflexivity|]. split; [exact H1|]. split; [exact H2|].
  refine (proj1 (resync_disposition iso_parse iso_format _ e _ _ eq_refl _)
            d t0 5 (sample_row 5 None) eq_refl H1 H2 (or_introl eq_refl)).
  apply lookup_singleton_eq.
Defined.

Section SetAside.

Variable fromisoformat : string -> option datetime.
Variable isoformat : datetime -> string.
Variable existing_by_id : gmap Z CompanyRow.

Lemma partition_step_rejected (acc : Partition) (e : ExternalCompany) :
  disposition fromisoformat existing_by_id e = Rejected ->
  partition_step fromisoformat existing_by_id acc e = one_more_failed acc.
Proof.
  unfold partition_step, disposition.
  destruct (to_internal fromisoformat e) as [internal|err]; [|done].
  destruct (existing_by_id !! ext_id e) as [existing|]; [|done]. simpl.
  by destruct (_needs_update fromisoformat existing internal e) as [[|]|err].
Qed.

Lemma partition_step_one_more (acc : Partition) (e : ExternalCompany) :
  partition_step fromisoformat existing_by_id (one_more_failed acc) e
  = one_more_failed (partition_step fromisoformat existing_by_id acc e).
Proof.
  unfold partition_step.
  destruct (to_internal fromisoformat e) as [internal|err]; [|done]. simpl.
  destruct (existing_by_id !! ext_id e) as [existing|]; [|done]. simpl.
  by destruct (_needs_update fromisoformat existing internal e) as [[|]|err].
Qed.

Lemma partition_fold_one_more (batch : list ExternalCompany) : forall acc : Partition,
  foldl (partition_step fromisoformat existing_by_id) (one_more_failed acc) batch
  = one_more_failed (foldl (partition_step fromisoformat existing_by_id) acc batch).
Proof.
  induction batch as [|e batch IH]; intros acc; [done|].
  cbn [foldl]. by rewrite partition_step_one_more, IH.
Qed.

Lemma partition_batch_rejected (before after : list ExternalCompany) (e : ExternalCompany) :
  disposition fromisoformat existing_by_id e = Rejected ->
  partition_batch fromisoformat (before ++ e :: after) existing_by_id
  = one_more_failed (partition_batch fromisoformat (before ++ after) existing_by_id).
Proof.
  intros He. unfold partition_batch. rewrite !foldl_app. cbn [foldl].
  by rewrite (partition_step_rejected _ e He), partition_fold_one_more.
Qed.

End SetAside.

(** X16. A record that is refused (its transform raises: an empty name, a
    field too long, a stamp that cannot be read; or its staleness check
    raises) does not stop the batch: [_process_batch] does with the other
    records, and to the store, exactly what it does without the record, and
    counts one more failure. *)
Theorem rejected_record_is_set_aside
    (fromisoformat : string -> option datetime) (isoformat : datetime -> string)
    (now : datetime) (existing_by_id : gmap Z CompanyRow)
    (before after : list ExternalCompany) (e : ExternalCompany) (w : World) :
  disposition fromisoformat existing_by_id e = Rejected ->
  _process_batch fromisoformat isoformat now (before ++ e :: after) existing_by_id w
  = (fst (_process_batch fromisoformat isoformat now (before ++ after) existing_by_id w),
     match snd (_process_batch fromisoformat isoformat now (before ++ after)
                  existing_by_id w) with
     | Ok (success_count, failed_count) => Ok (success_count, failed_count + 1)
     | Raise err => Raise err
     end).
Proof.
  intros He. unfold _process_batch.
  rewrite (partition_batch_rejected fromisoformat existing_by_id before after e He).
  destruct (partition_batch fromisoformat (before ++ after) existing_by_id)
    as [ins upd failed_n].
  cbn [one_more_failed to_insert to_update failed_count].
  assert (forall a b, a + 1 + b = a + b + 1) as Hswap by (intros; lia).
  destruct ins as [|c ins]; destruct upd as [|c' upd]; unfold and_then, ret.
  - done.
  - destruct (_update_companies _ _ _ _) as [w1 [n|err]]; [|done].
    cbn [fst snd]. by rewrite ?Hswap.
  - destruct (_insert_companies _ _ _ _) as [w1 [n|err]]; [|done].
    cbn [fst snd]. by rewrite ?Hswap.
  - destruct (_insert_companies _ _ _ _) as [w1 [n|err]]; [|done].
    destruct (_update_companies _ _ _ _) as [w2 [m|err]]; [|done].
    cbn [fst snd]. by rewrite ?Hswap.
Qed.

(** A record without a name between two new records. *)
Lemma rejected_record_is_set_aside_witness :
  let nameless :=
    {| ext_id := 2; ext_company_name := ""; ext_owner := None;
       ext_company_desc := None; ext_adress := None;
       ext_create_time := "2023-01-01 00:00:00"; ext_update_time := None;
       ext_code := None; ext_uuid := None |} in
  disposition iso_parse scenario_index nameless = Rejected /\
  snd (_process_batch iso_parse iso_format t1
         ([sample_company 1 None] ++ nameless :: [sample_company 3 None])
         scenario_index scenario_started) = Ok (2, 1).
Proof.
  intros nameless.
  assert (disposition iso_parse scenario_index nameless = Rejected) as H by reflexivity.
  split; [exact H|].
  rewrite (rejected_record_is_set_aside iso_parse iso_format t1 scenario_index
             [sample_company 1 None] [sample_company 3 None] nameless
             scenario_started H).
  reflexivity.
Defined.

(** ** The estimate of the remaining time *)





(** ** The routes *)

(** The scan for the latest row goes through a rewriting of the rows that
    keeps their ids. *)
Lemma latest_log_map (f : SyncLog -> SyncLog) (logs : list SyncLog) :
  (forall r, log_id (f r) = log_id r) ->
  latest_log (map f logs) = f <$> latest_log logs.
Proof.
  intros Hf. unfold latest_log.
  assert (forall best : option SyncLog,
    foldl (fun best r =>
             match best with
             | Some b => if log_id b <? log_id r then Some r else Some b
             | None => Some r
             end) (f <$> best) (map f logs)
    = f <$> foldl (fun best r =>
                     match best with
                     | Some b => if log_id b <? log_id r then Some r else Some b
                     | None => Some r
                     end) best logs) as H.
  { induction logs as [|r logs IH]; intros best; [done|]. cbn [map foldl].
    rewrite <- IH. f_equal. destruct best as [b|]; [|done]. simpl.
    rewrite !Hf. by destruct (log_id b <? log_id r). }
  apply (H None).
Qed.

Lemma latest_log_update (sync_log_id : Z) (status : sync_status) (u : SyncLogUpdate)
    (logs : list SyncLog) (row : SyncLog) :
  latest_log logs = Some row -> log_id row = sync_log_id ->
  latest_log (update_logs sync_log_id status u logs) = Some (apply_update status u row).
Proof.
  intros Hlatest Hid. unfold update_logs. rewrite latest_log_map.
  - rewrite Hlatest. simpl. by rewrite Hid, Z.eqb_refl.
  - intros r. by destruct (log_id r =? sync_log_id).
Qed.

(** X18. The status codes of [POST /sync] and [POST /sync/cancel]. A start
    is answered 409 with the text of the exception while a sync is running,
    the process being left as it was, and 202 with the id of the new run
    otherwise. A cancellation is answered 404 while no sync is running and
    200 otherwise. Neither route answers 500. *)
Theorem sync_routes_status_codes (now : datetime) (w : World) :
  (is_running (deref (heap w) (_sync_state w)) = true ->
     routes.start_sync now w
     = (w, HTTPException 409 "Synchronization is already in progress") /\
     exists w', routes.cancel_sync now w
                = (w', Answer 200 "Synchronization cancelled successfully")) /\
  (is_running (deref (heap w) (_sync_state w)) = false ->
     routes.cancel_sync now w
     = (w, HTTPException 404 "No active synchronization to cancel") /\
     exists w',
       routes.start_sync now w
       = (w', Answer 202 {| start_message := "Synchronization started successfully";
                            sync_id := 1 + max_log_id (sync_logs (store w));
                            estimated_duration_minutes := 5 |})).
Proof.
  split; intros Hflag.
  - unfold routes.start_sync, routes.cancel_sync.
    rewrite (start_sync_busy now w Hflag), (cancel_sync_running now w Hflag).
    split; [done|]. by eexists.
  - unfold routes.start_sync, routes.cancel_sync.
    rewrite (cancel_sync_idle now w Hflag).
    destruct (start_sync_idle now w Hflag) as (sync_log & w' & -> & -> & _).
    split; [done|]. by eexists.
Qed.

(** X19. [GET /sync/status] answers 404 while table [sync_logs] is empty
    and 200 with the row of the run just after a start. Once the latest run
    is cancelled, or its [perform_sync] has raised, its row holds NULL in the
    three counts, the response model refuses it, and the route answers 500
    until another run is started. *)
Theorem status_route_after_a_run
    (fromisoformat : string -> option datetime) (isoformat : datetime -> string)
    (w : World) :
  (sync_logs (store w) = [] ->
     routes.get_sync_status w
     = (w, HTTPException 404 "No synchronization history found")) /\
  (forall now,
     is_running (deref (heap w) (_sync_state w)) = false ->
     exists response,
       snd (routes.get_sync_status (fst (start_sync now w))) = Answer 200 response /\
       st_id response = 1 + max_log_id (sync_logs (store w)) /\
       st_status response = running) /\
  (forall now sync_log_id row,
     is_running (deref (heap w) (_sync_state w)) = true ->
     truthy_id (current_sync_id (deref (heap w) (_sync_state w))) = Some sync_log_id ->
     latest_log (sync_logs (store w)) = Some row -> log_id row = sync_log_id ->
     snd (routes.get_sync_status (fst (cancel_sync now w)))
     = HTTPException 500 "Failed to get sync status") /\
  (forall env started now sync_log_id row e,
     utcoffset started = None -> utcoffset now = None -> wall started <= wall now ->
     latest_log (sync_logs (store w)) = Some row -> log_id row = sync_log_id ->
     snd (perform_sync fromisoformat isoformat env started now sync_log_id w) = Raise e ->
     snd (routes.get_sync_status
            (fst (perform_sync fromisoformat isoformat env started now sync_log_id w)))
     = HTTPException 500 "Failed to get sync status").
Proof.
  split; [|split; [|split]].
  - intros Hempty.
    unfold routes.get_sync_status, get_sync_status, and_then, read_store, ret.
    by rewrite Hempty.
  - intros now Hflag.
    destruct (start_sync_idle now w Hflag) as (sync_log & w' & -> & -> & Hlogs & _).
    unfold routes.get_sync_status, get_sync_status, and_then, read_store, ret.
    cbn [fst snd]. rewrite Hlogs, latest_log_appended by (simpl; lia).
    by eexists.
  - intros now sync_log_id row Hflag Hid Hlatest Hrow.
    rewrite (cancel_sync_running now w Hflag), Hid.
    unfold routes.get_sync_status, get_sync_status, and_then, read_store, ret.
    cbn [fst snd store sync_logs].
    by rewrite (latest_log_update _ _ _ _ row Hlatest Hrow).
  - intros env started now sync_log_id row e Hs Hn Hle Hlatest Hrow Hraise.
    destruct (elapsed_ms_forward now started Hn Hs Hle) as (d & Hd & Hpos).
    destruct (perform_sync_forward fromisoformat isoformat env started now sync_log_id
                d w Hd Hpos) as (w1 & outcome & Heq & Hlogs).
    rewrite Heq in Hraise |- *. cbn [fst snd] in Hraise |- *. subst outcome.
    unfold routes.get_sync_status, get_sync_status, and_then, read_store, ret.
    cbn [fst snd store sync_logs]. rewrite Hlogs.
    by rewrite (latest_log_update _ _ _ _ row Hlatest Hrow).
Qed.

(** The run of the scenario, cancelled: the status route answers 500. *)
Lemma status_route_after_a_run_witness :
  is_running (deref (heap scenario_started) (_sync_state scenario_started)) = true /\
  truthy_id (current_sync_id (deref (heap scenario_started)
                                    (_sync_state scenario_started))) = Some 1 /\
  latest_log (sync_logs (store scenario_started)) = Some (started_row t0 []) /\
  log_id (started_row t0 []) = 1 /\
  (exists response,
     snd (routes.get_sync_status scenario_started) = Answer 200 response) /\
  snd (routes.get_sync_status (fst (cancel_sync t1 scenario_started)))
  = HTTPException 500 "Failed to get sync status".
Proof.
  assert (is_running (deref (heap scenario_started) (_sync_state scenario_started))
          = true) as H1 by reflexivity.
  assert (truthy_id (current_sync_id (deref (heap scenario_started)
            (_sync_state scenario_started))) = Some 1) as H2 by reflexivity.
  assert (latest_log (sync_logs (store scenario_started)) = Some (started_row t0 []))
    as H3 by reflexivity.
  assert (log_id (started_row t0 []) = 1) as H4 by reflexivity.
  split; [exact H1|]. split; [exact H2|]. split; [exact H3|]. split; [exact H4|].
  split; [by eexists|].
  exact (proj1 (proj2 (proj2 (status_route_after_a_run iso_parse iso_format
                                scenario_started)))
           t1 1 (started_row t0 []) H1 H2 H3 H4).
Defined.

(** ** The endpoints *)

Lemma rstrip_slash_slashes (n : nat) : rstrip_slash (slashes n) = "".
Proof. induction n as [|n IH]; [done|]. simpl. by rewrite IH. Qed.

Lemma rstrip_slash_append (s : string) (n : nat) :
  rstrip_slash (s +:+ slashes n) = rstrip_slash s.
Proof.
  induction s as [|c s IH]; simpl.
  - apply rstrip_slash_slashes.
  - by rewrite IH.
Qed.

Lemma rstrip_slash_stem (s : string) :
  (exists n, s = rstrip_slash s +:+ slashes n) /\
  forall t, rstrip_slash s <> t +:+ "/".
Proof.
  induction s as [|c s [[n IHn] IHt]]; simpl.
  - split; [by exists 0%nat|]. by intros [|? ?].
  - destruct (rstrip_slash s) as [|c' kept] eqn:E.
    + destruct (Ascii.eqb c "/") eqn:Ec.
      * apply Ascii.eqb_eq in Ec. subst c. split.
        -- exists (S n). simpl. by rewrite IHn at 1.
        -- by intros [|? ?].
      * split.
        -- exists n. simpl. by rewrite IHn at 1.
        -- intros [|c1 t]; simpl.
           ++ intros [= ->]. by rewrite Ascii.eqb_refl in Ec.
           ++ intros [= -> Ht]. by destruct t.
    + split.
      * exists n. simpl. by rewrite IHn at 1.
      * intros [|c1 t]; simpl; [done|]. intros [= -> Ht]. by apply (IHt t).
Qed.

(** X20. Slashes at the end of the configured base URL do not matter: the
    endpoints are those of the URL without them. Each endpoint is the base
    URL cut before its trailing slashes, a stem that does not end in a
    slash, followed by the fixed path. *)
Theorem endpoints_ignore_trailing_slashes (base : string) :
  (forall n, external_api_endpoints (base +:+ slashes n) = external_api_endpoints base) /\
  exists (stem : string) (n : nat),
    base = stem +:+ slashes n /\
    (forall t, stem <> t +:+ "/") /\
    external_api_endpoints base !! "companies"
    = Some (stem +:+ "/system/softwareCompany/list") /\
    external_api_endpoints base !! "health" = Some (stem +:+ "/health").
Proof.
  split.
  - intros n. unfold external_api_endpoints. by rewrite rstrip_slash_append.
  - destruct (rstrip_slash_stem base) as [[n Hn] Hstem].
    exists (rstrip_slash base), n. split; [done|]. split; [done|].
    unfold external_api_endpoints. cbn zeta. split.
    + by rewrite lookup_insert_eq.
    + rewrite lookup_insert_ne by done. by rewrite lookup_singleton_eq.
Qed.

(** ** Runs under interleaving *)


(** ** The company service: listings and pages *)

Lemma remove_dups_NoDup `{EqDecision A} (l : list A) : NoDup l -> remove_dups l = l.
Proof.
  induction 1 as [|x l Hx Hnd IH]; [done|]. simpl.
  destruct (decide_rel elem_of x l); [done|]. by rewrite IH.
Qed.

Lemma NoDup_map_filter {A B} (f : A -> B) (p : A -> bool) (l : list A) :
  NoDup (map f l) -> NoDup (map f (List.filter p l)).
Proof.
  induction l as [|x l IH]; [done|]. simpl. intros Hnd.
  apply NoDup_cons in Hnd as [Hx Hnd]. destruct (p x); [|by apply IH].
  simpl. apply NoDup_cons. split; [|by apply IH].
  intros Hin. apply Hx. apply list_elem_of_fmap in Hin as (y & -> & Hy).
  apply list_elem_of_fmap. exists y. split; [done|].
  apply list_elem_of_In, filter_In in Hy as [Hy _]. by apply list_elem_of_In.
Qed.

Lemma limit_offset_length {A} (limit offset : Z) (l : list A) :
  0 <= limit -> 0 <= offset ->
  Z.of_nat (length (limit_offset limit offset l))
  = Z.min limit (Z.max 0 (Z.of_nat (length l) - offset)).
Proof.
  intros Hl Ho. unfold limit_offset.
  assert ((limit <? 0) = false) as -> by (apply Z.ltb_ge; lia).
  rewrite length_take, length_drop. lia.
Qed.

(** The pages of a list, put end to end. *)
Lemma pages_cover {A} (page_size : Z) (l : list A) (pages : nat) :
  1 <= page_size ->
  concat (map (fun page => limit_offset page_size ((page - 1) * page_size) l)
              (page_numbers (Z.of_nat pages)))
  = take (pages * Z.to_nat page_size) l.
Proof.
  intros Hs. unfold page_numbers. rewrite Nat2Z.id.
  induction pages as [|m IH]; [done|].
  rewrite seq_S, !map_app, concat_app, IH. simpl. rewrite app_nil_r.
  unfold limit_offset.
  assert ((page_size <? 0) = false) as -> by (apply Z.ltb_ge; lia).
  replace (Z.to_nat ((Z.of_nat (S m) - 1) * page_size))
    with (m * Z.to_nat page_size)%nat by nia.
  rewrite take_take_drop. f_equal. lia.
Qed.

Section Listing.

Variable validate_datetime : string -> option datetime.
Variable order_by_company_name : list CompanyRow -> list CompanyRow.
Variable like : string -> string -> bool.
Variable fts_match : string -> option (CompanyRow -> bool).

Hypothesis order_permutes : forall rows, order_by_company_name rows ≡ₚ rows.

Lemma companies_of_rows_Ok (rows : list CompanyRow) (found : list Company) :
  companies_of_rows validate_datetime rows = Ok found ->
  map cr_id (map _company_to_response found) = map row_id rows.
Proof.
  revert found. induction rows as [|row rows IH]; intros found H.
  - simpl in H. by simplify_eq.
  - cbn [companies_of_rows] in H.
    destruct (new_Company validate_datetime row) as [company|e] eqn:Hc; [|done].
    cbn [bind] in H.
    destruct (companies_of_rows validate_datetime rows) as [others|e]; [|done].
    cbn [bind] in H. simplify_eq. cbn [map]. rewrite (IH others eq_refl). f_equal.
    unfold new_Company, bind in Hc.
    repeat match type of Hc with
           | context [match ?scrut with _ => _ end] => destruct scrut; try done
           end.
    by simplify_eq.
Qed.

(** With ids that are a key of the table, the count and the page are taken
    from the same selection of rows. *)
Lemma count_and_search (conn : list CompanyRow) (query search_type : string) :
  NoDup (map row_id conn) ->
  match selection like fts_match conn query search_type with
  | Some selected =>
      _count_companies like fts_match conn query search_type
      = Ok (Z.of_nat (length selected)) /\
      forall page page_size,
        _search_companies validate_datetime order_by_company_name like fts_match
          conn query search_type page page_size
        = companies_of_rows validate_datetime
            (limit_offset page_size ((page - 1) * page_size)
               (order_by_company_name selected))
  | None =>
      _count_companies like fts_match conn query search_type
      = Raise (DatabaseException "Database operation failed" None)
  end.
Proof.
  intros Hkey. unfold selection, _count_companies, _search_companies.
  destruct (String.eqb query ""); [done|].
  destruct (String.eqb search_type "fts"); [|done].
  destruct (fts_match query) as [matches|]; [|done].
  pose proof (NoDup_map_filter row_id (fun r => matches r && row_is_active r) conn Hkey)
    as Hnd.
  rewrite (remove_dups_NoDup _ Hnd), length_map.
  by rewrite (remove_dups_NoDup _ (NoDup_fmap_1 row_id _ Hnd)).
Qed.

(** A listing that returns, taken apart. *)
Lemma get_companies_returns (now : datetime) (query : string) (page page_size : Z)
    (search_type : string) (db db' : Database) (found_page : SearchResult) :
  NoDup (map row_id (companies (tables db))) ->
  get_companies validate_datetime order_by_company_name like fts_match
    now query page page_size search_type db = (db', Ok found_page) ->
  exists selected found,
    1 <= page /\ 1 <= page_size <= 200 /\
    selection like fts_match (companies (tables db)) query search_type = Some selected /\
    companies_of_rows validate_datetime
      (limit_offset page_size ((page - 1) * page_size) (order_by_company_name selected))
    = Ok found /\
    db' = (if String.eqb query "" then db
           else _log_search_query now query (Z.of_nat (length found)) db) /\
    found_page
    = {| sr_companies := map _company_to_response found;
         sr_total_count := Z.of_nat (length selected);
         sr_page := page; sr_page_size := page_size;
         sr_total_pages := if 0 <? Z.of_nat (length selected)
                           then (Z.of_nat (length selected) + page_size - 1) / page_size
                           else 0;
         sr_query := query; sr_search_type := search_type;
         sr_processing_time_ms := 0 |}.
Proof.
  intros Hkey. unfold get_companies.
  destruct (page <? 1) eqn:Hp; [done|]. apply Z.ltb_ge in Hp.
  destruct ((page_size <? 1) || (200 <? page_size)) eqn:Hs; [done|].
  apply orb_false_iff in Hs as [Hs1 Hs2]. apply Z.ltb_ge in Hs1, Hs2.
  destruct (negb _); [done|].
  pose proof (count_and_search (companies (tables db)) query search_type Hkey) as Hsel.
  destruct (selection like fts_match (companies (tables db)) query search_type)
    as [selected|].
  - destruct Hsel as [-> Hsearch]. cbn [bind]. rewrite Hsearch.
    destruct (companies_of_rows _ _) as [found|e] eqn:Hfound; [|done].
    cbn [bind]. intros [= <- <-]. by exists selected, found.
  - by rewrite Hsel.
Qed.

End Listing.

(** X22. What a page of [get_companies] holds. When the call returns, over
    a table whose ids are a key, the page and page size are within 1.. and
    1..200, [total_count] is the number of active rows the query selects,
    [total_pages] is 0 for no row and otherwise the least number of pages
    that hold them all, the page carries
    [min(page_size, max(0, total_count - (page - 1) * page_size))]
    companies, none at all past the last page, and table [companies] is as
    before. *)
Theorem get_companies_page_facts
    (validate_datetime : string -> option datetime)
    (order_by_company_name : list CompanyRow -> list CompanyRow)
    (like : string -> string -> bool) (fts_match : string -> option (CompanyRow -> bool))
    (now : datetime) (query : string) (page page_size : Z) (search_type : string)
    (db db' : Database) (found_page : SearchResult) :
  (forall rows, order_by_company_name rows ≡ₚ rows) ->
  NoDup (map row_id (companies (tables db))) ->
  get_companies validate_datetime order_by_company_name like fts_match
    now query page page_size search_type db = (db', Ok found_page) ->
  tables db' = tables db /\
  1 <= page /\ 1 <= page_size <= 200 /\
  sr_page found_page = page /\ sr_page_size found_page = page_size /\
  (exists selected,
     selection like fts_match (companies (tables db)) query search_type = Some selected /\
     sr_total_count found_page = Z.of_nat (length selected)) /\
  (sr_total_count found_page = 0 -> sr_total_pages found_page = 0) /\
  (0 < sr_total_count found_page ->
     (sr_total_pages found_page - 1) * page_size < sr_total_count found_page
     <= sr_total_pages found_page * page_size) /\
  Z.of_nat (length (sr_companies found_page))
  = Z.min page_size (Z.max 0 (sr_total_count found_page - (page - 1) * page_size)) /\
  (sr_total_pages found_page < page -> sr_companies found_page = []).
Proof.
  intros Horder Hkey Hget.
  destruct (get_companies_returns validate_datetime order_by_company_name like fts_match
              now query page page_size search_type db db' found_page Hkey Hget)
    as (selected & found & Hp & Hs & Hsel & Hfound & -> & ->).
  cbn [sr_companies sr_total_count sr_page sr_page_size sr_total_pages].
  assert (Z.of_nat (length (map _company_to_response found))
          = Z.min page_size
              (Z.max 0 (Z.of_nat (length selected) - (page - 1) * page_size))) as Hlen.
  { apply companies_of_rows_Ok in Hfound. apply (f_equal length) in Hfound.
    rewrite !length_map in Hfound. rewrite length_map, Hfound.
    rewrite limit_offset_length by nia. by rewrite (Permutation_length (Horder selected)). }
  split; [by destruct (String.eqb query "")|].
  split; [done|]. split; [done|]. split; [done|]. split; [done|].
  split; [by exists selected|]. split; [by intros ->|]. split; [|split; [done|]].
  - intros Hpos. assert ((0 <? Z.of_nat (length selected)) = true) as ->
      by by apply Z.ltb_lt.
    pose proof (Z.div_mod (Z.of_nat (length selected) + page_size - 1) page_size
                  ltac:(lia)).
    pose proof (Z.mod_pos_bound (Z.of_nat (length selected) + page_size - 1) page_size
                  ltac:(lia)).
    nia.
  - intros Hpast.
    assert (length (map _company_to_response found) = 0%nat) as Hnone; [|by destruct found].
    destruct (0 <? Z.of_nat (length selected)) eqn:E.
    + pose proof (Z.div_mod (Z.of_nat (length selected) + page_size - 1) page_size
                    ltac:(lia)).
      pose proof (Z.mod_pos_bound (Z.of_nat (length selected) + page_size - 1) page_size
                    ltac:(lia)).
      nia.
    + apply Z.ltb_ge in E. nia.
Qed.

Lemma sorted_by_name_permutes (rows : list CompanyRow) : sorted_by_name rows ≡ₚ rows.
Proof. apply merge_sort_Permutation. Qed.

(** The second page of fifty over the 63 rows of the scenario. *)
Lemma get_companies_page_facts_witness :
  (forall rows, sorted_by_name rows ≡ₚ rows) /\
  NoDup (map row_id (companies (tables scenario_database))) /\
  exists found_page,
    get_companies iso_parse sorted_by_name reference_like (fun _ => None)
      t1 "" 2 50 "auto" scenario_database = (scenario_database, Ok found_page) /\
    sr_total_count found_page = 63 /\
    sr_total_pages found_page = 2 /\
    Z.of_nat (length (sr_companies found_page))
    = Z.min 50 (Z.max 0 (sr_total_count found_page - (2 - 1) * 50)).
Proof.
  assert (NoDup (map row_id (companies (tables scenario_database)))) as Hkey.
  { apply (bool_decide_unpack _). vm_compute. exact I. }
  split; [exact sorted_by_name_permutes|]. split; [exact Hkey|].
  eexists. split; [vm_compute; reflexivity|].
  split; [reflexivity|]. split; [reflexivity|].
  match goal with |- context [sr_companies ?r] =>
    exact (proj1 (proj2 (proj2 (proj2 (proj2 (proj2 (proj2 (proj2 (proj2
             (get_companies_page_facts iso_parse sorted_by_name reference_like
                (fun _ => None) t1 "" 2 50 "auto" scenario_database scenario_database r
                sorted_by_name_permutes Hkey ltac:(vm_compute; reflexivity)))))))))))
  end.
Defined.

(** X23. The pages of a listing cover it: when the calls for the pages 1
    to the last one all return, the companies on these pages, taken
    together, are the active rows the query selects, each of them once. *)
Theorem get_companies_pages_cover
    (validate_datetime : string -> option datetime)
    (order_by_company_name : list CompanyRow -> list CompanyRow)
    (like : string -> string -> bool) (fts_match : string -> option (CompanyRow -> bool))
    (now : datetime) (query : string) (page_size : Z) (search_type : string)
    (db : Database) (selected : list CompanyRow) (found_page : Z -> SearchResult) :
  (forall rows, order_by_company_name rows ≡ₚ rows) ->
  NoDup (map row_id (companies (tables db))) ->
  1 <= page_size ->
  selection like fts_match (companies (tables db)) query search_type = Some selected ->
  (forall page,
     1 <= page <= (Z.of_nat (length selected) + page_size - 1) / page_size ->
     snd (get_companies validate_datetime order_by_company_name like fts_match
            now query page page_size search_type db) = Ok (found_page page)) ->
  map cr_id
    (concat (map (fun page => sr_companies (found_page page))
                 (page_numbers ((Z.of_nat (length selected) + page_size - 1) / page_size))))
  ≡ₚ map row_id selected.
Proof.
  intros Horder Hkey Hs Hsel Hpages.
  set (pages := (Z.of_nat (length selected) + page_size - 1) / page_size) in *.
  assert (0 <= pages) as Hpos by (apply Z.div_pos; lia).
  assert (map cr_id (concat (map (fun page => sr_companies (found_page page))
                                 (page_numbers pages)))
          = map row_id
              (concat (map (fun page =>
                              limit_offset page_size ((page - 1) * page_size)
                                (order_by_company_name selected))
                           (page_numbers pages)))) as ->.
  { rewrite !concat_map. f_equal.
    rewrite !map_map. apply map_ext_in. intros page Hin.
    unfold page_numbers in Hin. apply in_map_iff in Hin as (k & <- & Hk).
    apply in_seq in Hk.
    specialize (Hpages (Z.of_nat k) ltac:(lia)).
    destruct (get_companies validate_datetime order_by_company_name like fts_match
                now query (Z.of_nat k) page_size search_type db) as [db' r] eqn:Hget.
    cbn [snd] in Hpages. subst r.
    destruct (get_companies_returns validate_datetime order_by_company_name like
                fts_match now query (Z.of_nat k) page_size search_type db db' _ Hkey Hget)
      as (selected' & found & _ & _ & Hsel' & Hfound & _ & ->).
    rewrite Hsel in Hsel'. simplify_eq. cbn [sr_companies].
    by apply companies_of_rows_Ok in Hfound. }
  replace pages with (Z.of_nat (Z.to_nat pages)) by lia.
  rewrite pages_cover by done.
  rewrite take_ge.
  - change (map row_id ?l) with (row_id <$> l). by rewrite Horder.
  - rewrite (Permutation_length (Horder selected)).
    pose proof (Z.div_mod (Z.of_nat (length selected) + page_size - 1) page_size
                  ltac:(lia)).
    pose proof (Z.mod_pos_bound (Z.of_nat (length selected) + page_size - 1) page_size
                  ltac:(lia)).
    fold pages in H. nia.
Qed.

(** The three active companies of the small table, in pages of two. *)
Lemma get_companies_pages_cover_witness :
  let listing := fun page =>
    get_companies iso_parse sorted_by_name reference_like (fun _ => None)
      t1 "" page 2 "auto" small_database in
  let found_page := fun page =>
    match snd (listing page) with
    | Ok found => found
    | Raise _ => create_empty "" page 2
    end in
  let selected := [named_row 1 "Test Company 1" true;
                   named_row 2 "Technology Company" true;
                   named_row 4 "Another Company" true] in
  (forall rows, sorted_by_name rows ≡ₚ rows) /\
  NoDup (map row_id (companies (tables small_database))) /\
  1 <= 2 /\
  selection reference_like (fun _ => None) (companies (tables small_database)) "" "auto"
  = Some selected /\
  (forall page, 1 <= page <= (Z.of_nat (length selected) + 2 - 1) / 2 ->
     snd (listing page) = Ok (found_page page)) /\
  map cr_id (sr_companies (found_page 1)) = [4; 2] /\
  map cr_id (sr_companies (found_page 2)) = [1] /\
  map cr_id
    (concat (map (fun page => sr_companies (found_page page))
                 (page_numbers ((Z.of_nat (length selected) + 2 - 1) / 2))))
  ≡ₚ map row_id selected.
Proof.
  intros listing found_page selected.
  assert (NoDup (map row_id (companies (tables small_database)))) as Hkey.
  { apply (bool_decide_unpack _). vm_compute. exact I. }
  assert (1 <= 2) as Hsize by lia.
  assert (selection reference_like (fun _ => None) (companies (tables small_database))
            "" "auto" = Some selected) as Hsel by reflexivity.
  assert (forall page, 1 <= page <= (Z.of_nat (length selected) + 2 - 1) / 2 ->
            snd (listing page) = Ok (found_page page)) as Hpages.
  { intros page Hpage. change ((Z.of_nat (length selected) + 2 - 1) / 2) with 2 in Hpage.
    assert (page = 1 \/ page = 2) as [->| ->] by lia; vm_compute; reflexivity. }
  split; [exact sorted_by_name_permutes|]. split; [exact Hkey|]. split; [exact Hsize|].
  split; [exact Hsel|]. split; [exact Hpages|].
  split; [vm_compute; reflexivity|]. split; [vm_compute; reflexivity|].
  exact (get_companies_pages_cover iso_parse sorted_by_name reference_like (fun _ => None)
           t1 "" 2 "auto" small_database selected found_page
           sorted_by_name_permutes Hkey Hsize Hsel Hpages).
Defined.

(** ** The company service: one company, and the log of searches *)





(** X26. What [get_companies] writes. A listing without a query, and a call
    that raises, leave the store as it was. A search that returns leaves
    tables [companies] and [sync_logs] as they were and appends one row to
    table [search_queries]: the query, the number of companies on the page
    returned (not the total count), the agent ["web-interface"], and an id
    above those in the table. *)
Theorem search_is_logged
    (validate_datetime : string -> option datetime)
    (order_by_company_name : list CompanyRow -> list CompanyRow)
    (like : string -> string -> bool) (fts_match : string -> option (CompanyRow -> bool))
    (now : datetime) (query : string) (page page_size : Z) (search_type : string)
    (db : Database) :
  tables (fst (get_companies validate_datetime order_by_company_name like fts_match
                 now query page page_size search_type db)) = tables db /\
  (query = "" ->
     fst (get_companies validate_datetime order_by_company_name like fts_match
            now query page page_size search_type db) = db) /\
  (forall e,
     snd (get_companies validate_datetime order_by_company_name like fts_match
            now query page page_size search_type db) = Raise e ->
     fst (get_companies validate_datetime order_by_company_name like fts_match
            now query page page_size search_type db) = db) /\
  (query <> "" ->
   forall found_page,
     snd (get_companies validate_datetime order_by_company_name like fts_match
            now query page page_size search_type db) = Ok found_page ->
     exists row,
       search_queries
         (fst (get_companies validate_datetime order_by_company_name like fts_match
                 now query page page_size search_type db))
       = search_queries db ++ [row] /\
       sq_query row = query /\
       sq_result_count row = Z.of_nat (length (sr_companies found_page)) /\
       sq_timestamp row = now /\
       sq_user_agent row = Some "web-interface" /\
       forall r, r ∈ search_queries db -> sq_id r < sq_id row).
Proof.
  unfold get_companies.
  destruct (page <? 1); [by repeat split|].
  destruct ((page_size <? 1) || (200 <? page_size)); [by repeat split|].
  destruct (negb _); [by repeat split|].
  match goal with |- context [match ?b with Ok _ => _ | Raise _ => _ end] =>
    destruct b as [[total_count found]|e]
  end; [|by repeat split].
  cbn [fst snd]. split; [by destruct (String.eqb query "")|]. split; [|split].
  - intros ->. done.
  - done.
  - intros Hq found_page [= <-]. apply String.eqb_neq in Hq. rewrite Hq.
    eexists. split; [reflexivity|]. cbn [sq_query sq_result_count sq_timestamp
      sq_user_agent sq_id sr_companies].
    rewrite length_map. repeat split; try done.
    intros r Hr.
    assert (forall l : list SearchQueryRow, r ∈ l ->
              sq_id r <= foldr (fun r m => Z.max (sq_id r) m) 0 l) as Hmax.
    { induction l as [|r' l IH]; intros Hin; [by apply elem_of_nil in Hin|].
      simpl. apply elem_of_cons in Hin as [->|Hin]; [lia|]. specialize (IH Hin). lia. }
    specialize (Hmax _ Hr). lia.
Qed.

(** A search for [tech] over the small table finds one company and logs
    the search with that count. *)
Lemma search_is_logged_witness :
  let x := get_companies iso_parse sorted_by_name reference_like (fun _ => None)
             t1 "tech" 1 50 "auto" small_database in
  "tech" <> "" /\
  exists found_page,
    snd x = Ok found_page /\
    map cr_company_name (sr_companies found_page) = ["Technology Company"] /\
    sr_total_count found_page = 1 /\
    exists row,
      search_queries (fst x) = search_queries small_database ++ [row] /\
      sq_query row = "tech" /\
      sq_result_count row = Z.of_nat (length (sr_companies found_page)) /\
      sq_timestamp row = t1 /\
      sq_user_agent row = Some "web-interface" /\
      forall r, r ∈ search_queries small_database -> sq_id r < sq_id row.
Proof.
  intros x. assert ("tech" <> "") as Hq by done. split; [exact Hq|].
  eexists. split; [vm_compute; reflexivity|].
  split; [reflexivity|]. split; [reflexivity|].
  refine (proj2 (proj2 (proj2 (search_is_logged iso_parse sorted_by_name reference_like
                                 (fun _ => None) t1 "tech" 1 50 "auto" small_database)))
            Hq _ _).
  vm_compute. reflexivity.
Defined.

(** ** From the source to the listing *)

Lemma max_length_Ok (n : nat) (field : string) (o : option string) :
  max_length n field o = Ok tt \/ max_length n field o = Raise (ValidationError field).
Proof. unfold max_length. destruct o as [s|]; [|by left]. destruct (_ <=? _)%nat; auto. Qed.

(** X27. A record that passes [to_internal] gives, once inserted by the
    sync, a row that the listing accepts: [Company(...)] over the row
    returns the fields of the record, the row being active and its time of
    last sync the time of the insertion, provided the text stored for each
    time reads back as that time. The same holds for the row as
    [_update_companies] rewrites it, when the creation stamp it keeps is
    readable. *)
Theorem synced_row_is_listable
    (fromisoformat validate_datetime : string -> option datetime)
    (isoformat : datetime -> string) (now : datetime) (e : ExternalCompany)
    (c : CompanyCreate) :
  to_internal fromisoformat e = Ok c ->
  validate_datetime (isoformat now) = Some now ->
  (forall d, create_time c = Some d -> validate_datetime (isoformat d) = Some d) ->
  (forall d, update_time c = Some d -> validate_datetime (isoformat d) = Some d) ->
  new_Company validate_datetime (inserted_row isoformat now (ext_id e) c)
  = Ok {| co_id := ext_id e; co_company_name := company_name c; co_owner := owner c;
          co_company_desc := company_desc c; co_address := address c;
          co_create_time := create_time c; co_update_time := update_time c;
          co_code := code c; co_uuid := uuid c; co_last_sync_at := now;
          co_is_active := true |} /\
  forall (r : CompanyRow) (created : option datetime),
    optional_datetime validate_datetime "create_time" (row_create_time r) = Ok created ->
    new_Company validate_datetime (updated_row isoformat now c r)
    = Ok {| co_id := row_id r; co_company_name := company_name c; co_owner := owner c;
            co_company_desc := company_desc c; co_address := address c;
            co_create_time := created; co_update_time := update_time c;
            co_code := code c; co_uuid := uuid c; co_last_sync_at := now;
            co_is_active := row_is_active r |}.
Proof.
  intros Hint Hnow Hct Hut.
  assert (validate_CompanyCreate c = Ok c) as Hvalid.
  { unfold to_internal, bind in Hint.
    destruct (parse_if_truthy _ (Some _)) as [ct|]; [|done].
    destruct (parse_if_truthy _ (ext_update_time e)) as [ut|]; [|done].
    pose proof (validate_CompanyCreate_Ok _ _ Hint) as Heq. by subst c. }
  unfold validate_CompanyCreate, bind in Hvalid.
  destruct (1 <=? String.length (company_name c))%nat eqn:E1; [|done].
  destruct (max_length 255 "company_name" (Some (company_name c))) as [[]|] eqn:E2; [|done].
  destruct (max_length 100 "owner" (owner c)) as [[]|] eqn:E3; [|done].
  destruct (max_length 5000 "company_desc" (company_desc c)) as [[]|] eqn:E4; [|done].
  destruct (max_length 500 "address" (address c)) as [[]|] eqn:E5; [|done].
  destruct (max_length 50 "code" (code c)) as [[]|] eqn:E6; [|done].
  destruct (max_length 100 "uuid" (uuid c)) as [[]|] eqn:E7; [|done].
  assert (optional_datetime validate_datetime "update_time" (isoformat <$> update_time c)
          = Ok (update_time c)) as Hupdate.
  { unfold optional_datetime. destruct (update_time c) as [d|]; [|done]. simpl.
    by rewrite (Hut d eq_refl). }
  assert (optional_datetime validate_datetime "create_time" (isoformat <$> create_time c)
          = Ok (create_time c)) as Hcreate.
  { unfold optional_datetime. destruct (create_time c) as [d|]; [|done]. simpl.
    by rewrite (Hct d eq_refl). }
  split.
  - unfold new_Company.
    cbn [inserted_row row_id row_company_name row_owner row_company_desc row_address
         row_create_time row_update_time row_code row_uuid row_last_sync_at
         row_is_active].
    rewrite E1, E2, E3, E4, E5, E6, E7, Hcreate, Hupdate.
    unfold required_datetime. by rewrite Hnow.
  - intros r created Hcreated. unfold new_Company.
    cbn [updated_row row_id row_company_name row_owner row_company_desc row_address
         row_create_time row_update_time row_code row_uuid row_last_sync_at
         row_is_active].
    rewrite E1, E2, E3, E4, E5, E6, E7, Hcreated, Hupdate.
    unfold required_datetime. by rewrite Hnow.
Qed.

(** A record of the scenario, inserted at [t0]. *)
Lemma synced_row_is_listable_witness :
  let e := sample_company 5 (Some "2023-06-01 00:00:00") in
  exists c,
    to_internal iso_parse e = Ok c /\
    iso_parse (iso_format t0) = Some t0 /\
    (forall d, create_time c = Some d -> iso_parse (iso_format d) = Some d) /\
    (forall d, update_time c = Some d -> iso_parse (iso_format d) = Some d) /\
    co_id <$> match new_Company iso_parse (inserted_row iso_format t0 (ext_id e) c) with
              | Ok company => Some company
              | Raise _ => None
              end = Some 5.
Proof.
  intros e. eexists. split; [reflexivity|].
  assert (iso_parse (iso_format t0) = Some t0) as H1 by (vm_compute; reflexivity).
  match goal with |- _ /\ (forall d, create_time ?c = _ -> _) /\ _ =>
    assert (forall d, create_time c = Some d -> iso_parse (iso_format d) = Some d) as H2;
    [|assert (forall d, update_time c = Some d -> iso_parse (iso_format d) = Some d) as H3]
  end.
  { intros d [= <-]. vm_compute. reflexivity. }
  { intros d [= <-]. vm_compute. reflexivity. }
  split; [exact H1|]. split; [exact H2|]. split; [exact H3|].
  rewrite (proj1 (synced_row_is_listable iso_parse iso_parse iso_format t0 e _
                    eq_refl H1 H2 H3)).
  reflexivity.
Defined.

(** ** The numbers a run reports *)

Lemma new_SyncLogUpdate_total (u u' : SyncLogUpdate) (n : Z) :
  new_SyncLogUpdate u = Ok u' -> upd_total_records u = Some n -> 0 <= n.
Proof.
  unfold new_SyncLogUpdate, bind. intros H Hn. rewrite Hn in H. simpl in H.
  destruct (0 <=? n) eqn:E; [|done]. by apply Z.leb_le.
Qed.

Section RunNumbers.

Variable fromisoformat : string -> option datetime.
Variable isoformat : datetime -> string.

(** A run that returns has left its [try] block by the [return]. *)
Lemma perform_sync_returns_try (env : Environment) (started now : datetime)
    (sync_log_id : Z) (w w' : World) (summary : Summary) :
  perform_sync fromisoformat isoformat env started now sync_log_id w = (w', Ok summary) ->
  exists w1,
    perform_sync_try fromisoformat isoformat env now
      {| act_start_time := started; act_state := _sync_state w |} sync_log_id w
    = (w1, Ok summary).
Proof.
  unfold perform_sync. intros H.
  apply and_then_Ok in H as (act & w1 & Henter & H).
  apply and_then_Ok in H as (outcome & w2 & Hrun & H).
  apply and_then_Ok in H as ([] & w3 & _ & H).
  apply and_then_Ok in H as ([] & w4 & _ & H).
  apply lift_Ok in H as [-> _].
  unfold perform_sync_enter, and_then, get_sync_state, ret in Henter.
  injection Henter as Hw Hact. subst w1 act.
  unfold perform_sync_run, try_except in Hrun.
  destruct (and_then (perform_sync_try _ _ _ _ _ _) _ w) as [w5 [r|e]] eqn:Hbody.
  2: { exfalso. unfold and_then in Hrun.
       destruct (lift (elapsed_ms _ _) w5) as [w6 [d|e1]]; [|done].
       destruct (lift (new_SyncLogUpdate _) w6) as [w7 [u|e2]]; [|done].
       destruct (_update_sync_log _ _ w7) as [w8 [[]|e3]]; [|done].
       unfold ret in Hrun. by simplify_eq. }
  simplify_eq.
  apply and_then_Ok in Hbody as (summary' & w6 & Htry & Hret).
  unfold ret in Hret. simplify_eq. by eexists.
Qed.

Lemma perform_sync_try_total (env : Environment) (now : datetime) (act : Activation)
    (sync_log_id : Z) (w w1 : World) (summary : Summary) :
  perform_sync_try fromisoformat isoformat env now act sync_log_id w = (w1, Ok summary) ->
  0 <= sum_total_records summary.
Proof.
  unfold perform_sync_try. intros H.
  apply and_then_Ok in H as (pages & wa & _ & H).
  apply and_then_Ok in H as (first_page & wb & _ & H).
  apply and_then_Ok in H as ([] & wc & _ & H).
  apply and_then_Ok in H as (fetched & wd & _ & H).
  apply and_then_Ok in H as (existing & we & _ & H).
  apply and_then_Ok in H as ([s f] & wf & _ & H).
  apply and_then_Ok in H as (d & wg & _ & H).
  apply and_then_Ok in H as (update & wh & Hu & H).
  apply lift_Ok in Hu as [Hu _].
  apply and_then_Ok in H as ([] & wi & _ & H).
  unfold ret in H. simplify_eq. simpl.
  by apply (new_SyncLogUpdate_total _ _ _ Hu).
Qed.

End RunNumbers.

(** X28. The numbers of a run that returns. [total_records] is the [total]
    field of the first page as the source states it: it is not negative (a
    negative one makes the run fail) but it is not tied to the number of
    records fetched. The successes and the failures are counted over the
    fetched records; neither is negative and together they never exceed the
    number fetched. *)
Theorem run_summary_numbers
    (fromisoformat : string -> option datetime) (isoformat : datetime -> string)
    (env : Environment) (started now : datetime) (sync_log_id : Z) (w w' : World)
    (summary : Summary) :
  perform_sync fromisoformat isoformat env started now sync_log_id w = (w', Ok summary) ->
  exists first_page fetched,
    get_companies_page (env_settings env) (env_source env) 1 50 = Ok first_page /\
    get_all_companies (env_settings env) (env_source env) (env_completion env) 50
      = Ok fetched /\
    sum_total_records summary = total first_page /\
    0 <= total first_page /\
    0 <= sum_success_records summary /\ 0 <= sum_failed_records summary /\
    sum_success_records summary + sum_failed_records summary <= Z.of_nat (length fetched).
Proof.
  intros Hrun.
  destruct (perform_sync_returns_try fromisoformat isoformat env started now sync_log_id
              w w' summary Hrun) as (w1 & Htry).
  apply perform_sync_try_total in Htry.
  apply perform_sync_counts in Hrun
    as (fetched & first_page & Hall & Hfirst & _ & Htotal & Hs & Hf).
  exists first_page, fetched.
  pose proof (tally_total fromisoformat
    (index_by_id (filter (fun r => row_is_active r = true) (companies (store w))))
    fetched) as Hsum.
  unfold tally in *. repeat split; try done; lia.
Qed.

(** The scenario: the source states 100 records; 42 are written. *)
Lemma run_summary_numbers_witness :
  perform_sync iso_parse iso_format scenario_env t0 t1 1 scenario_started
    = (scenario_finished, Ok scenario_summary) /\
  exists first_page fetched,
    get_companies_page (env_settings scenario_env) (env_source scenario_env) 1 50
      = Ok first_page /\
    get_all_companies (env_settings scenario_env) (env_source scenario_env)
      (env_completion scenario_env) 50 = Ok fetched /\
    sum_total_records scenario_summary = total first_page /\
    0 <= total first_page /\
    0 <= sum_success_records scenario_summary /\
    0 <= sum_failed_records scenario_summary /\
    sum_success_records scenario_summary + sum_failed_records scenario_summary
    <= Z.of_nat (length fetched).
Proof.
  assert (perform_sync iso_parse iso_format scenario_env t0 t1 1 scenario_started
          = (scenario_finished, Ok scenario_summary)) as Hrun
    by (vm_compute; reflexivity).
  split; [exact Hrun|].
  exact (run_summary_numbers iso_parse iso_format scenario_env t0 t1 1
           scenario_started scenario_finished scenario_summary Hrun).
Defined.

(** ** The state of the process around a run *)

(** X29. Right after [start_sync] has accepted, [get_sync_progress] shows a
    running sync at zero: no page, no record, 0 percent and no estimate,
    whatever the clock reads. *)
Theorem progress_after_start (now later : datetime) (w : World) :
  is_running (deref (heap w) (_sync_state w)) = false ->
  exists sync_log w',
    start_sync now w = (w', Ok sync_log) /\
    get_sync_progress later w'
    = (w', Ok {| p_is_running := true; p_current_page := 0; p_total_pages := 0;
                 p_processed_records := 0; p_total_records := 0; p_percentage := 0%Q;
                 p_estimated_remaining_seconds := None;
                 p_current_operation := Some (0, 0) |}).
Proof.
  intros Hflag.
  unfold start_sync, start_sync_begin, and_then, get_sync_state, read_state.
  simpl. rewrite Hflag. simpl. eexists _, _. split; [reflexivity|].
  unfold get_sync_progress, and_then, get_sync_state, read_state, lift, ret.
  simpl. by rewrite deref_new.
Qed.

Lemma progress_after_start_witness :
  is_running (deref (heap (initial_world scenario_store))
                    (_sync_state (initial_world scenario_store))) = false /\
  exists sync_log w',
    start_sync t0 (initial_world scenario_store) = (w', Ok sync_log) /\
    get_sync_progress t1 w'
    = (w', Ok {| p_is_running := true; p_current_page := 0; p_total_pages := 0;
                 p_processed_records := 0; p_total_records := 0; p_percentage := 0%Q;
                 p_estimated_remaining_seconds := None;
                 p_current_operation := Some (0, 0) |}).
Proof.
  assert (is_running (deref (heap (initial_world scenario_store))
            (_sync_state (initial_world scenario_store))) = false) as H by reflexivity.
  split; [exact H|]. exact (progress_after_start t0 t1 (initial_world scenario_store) H).
Defined.

Lemma perform_sync_exit_effect (act : Activation) (outcome : result Summary)
    (w : World) :
  perform_sync_exit act outcome w
  = ({| store := store w;
        heap := <[act_state act :=
                    set_is_running false (deref (heap w) (act_state act))]> (heap w);
        _sync_state := act_state act |}, outcome).
Proof. reflexivity. Qed.

(** X30. The end of a run makes the service idle, whichever run is current
    by then. [perform_sync], when it returns or re-raises, clears the flag
    of the state object it took at its start and points the global reference
    back at that object: progress is idle and [start_sync] is accepted
    afterwards. So after a start, a cancellation and a second start, the end
    of the first run leaves the second run in flight with its row
    [running], yet no run is current, and a third start is accepted beside
    it. *)
Theorem old_run_resets_state :
  (forall (act : Activation) (outcome : result Summary) (w : World) (later : datetime),
     _sync_state (fst (perform_sync_exit act outcome w)) = act_state act /\
     snd (perform_sync_exit act outcome w) = outcome /\
     get_sync_progress later (fst (perform_sync_exit act outcome w))
     = (fst (perform_sync_exit act outcome w), Ok idle_progress) /\
     exists sync_log w',
       start_sync later (fst (perform_sync_exit act outcome w)) = (w', Ok sync_log)) /\
  runs_in_flight (course restarted_course) = [2] /\
  finished (course restarted_course) = [1] /\
  status_of 2 (course restarted_course) = Some running /\
  current_run (world (course restarted_course)) = None /\
  suspended (course (restarted_course ++ [CallStart t1; Resume 1 t1 scenario_env]))
  = [TaskCreated 2; TaskCreated 3].
Proof.
  split; [|vm_compute; by repeat split].
  intros act outcome w later. rewrite perform_sync_exit_effect. cbn [fst snd].
  remember {| store := store w;
              heap := <[act_state act :=
                          set_is_running false (deref (heap w) (act_state act))]> (heap w);
              _sync_state := act_state act |} as w1 eqn:Hw1.
  assert (is_running (deref (heap w1) (_sync_state w1)) = false) as Hclear.
  { subst w1. apply deref_cleared. }
  split; [by subst w1|]. split; [done|]. split.
  - unfold get_sync_progress, and_then, get_sync_state, read_state. simpl.
    by rewrite Hclear.
  - destruct (start_sync_idle later w1 Hclear) as (sync_log & w' & Hstart & _).
    by exists sync_log, w'.
Qed.
